(** * FrameParsing: framecode detection and integer range strings

    A shallow embedding of [frameparsing/framecode_types.py] and
    [frameparsing/parsing.py] together with the parts of the Python
    standard library they call ([str], [int], [range], [re], [pathlib]).

    Conventions of the embedding
    - Python [int] is [Z]; Python [str] is [string], a sequence of code
      points below 256.
    - A raised exception is a value of [exn]; a function that may raise
      returns [result].  The exception classes and messages are the ones
      of the source.
    - [pathlib.Path] is the POSIX flavour ([os.sep] is ["/"]), with the
      behaviour of CPython 3.8 to 3.13.
    - Regular expressions are abstract syntax trees run by a backtracking
      matcher with the priorities of [re]: greedy quantifiers, leftmost
      match first. *)

From Stdlib Require Import ZArith List String Ascii Bool Lia Arith.
From Stdlib Require Import DecimalString DecimalZ DecimalPos DecimalFacts.
Import ListNotations.

Local Open Scope string_scope.
Local Open Scope Z_scope.

(** ** Exceptions and results *)

Inductive exn : Type :=
| ValueError (msg : string)
| TypeError (msg : string)
| IndexError (msg : string)
| KeyError (msg : string)
| ReError (msg : string).

Inductive result (A : Type) : Type :=
| Ok (a : A)
| Raise (e : exn).

Arguments Ok {A} a.
Arguments Raise {A} e.

Definition bind {A B : Type} (r : result A) (f : A -> result B) : result B :=
  match r with
  | Ok a => f a
  | Raise e => Raise e
  end.

Notation "x <- c1 ;; c2" := (bind c1 (fun x => c2))
  (at level 61, c1 at next level, right associativity).

(** ** Python builtins *)

Module Py.

Definition code (c : ascii) : N := N_of_ascii c.

(** [\d] on code points below 256: the ASCII digits. *)
Definition is_digit (c : ascii) : bool :=
  (48 <=? code c)%N && (code c <=? 57)%N.

(** [\s] for a [str] pattern, on code points below 256. *)
Definition is_space (c : ascii) : bool :=
  ((9 <=? code c)%N && (code c <=? 13)%N)
  || ((28 <=? code c)%N && (code c <=? 32)%N)
  || (code c =? 133)%N || (code c =? 160)%N.

Definition digit_value (c : ascii) : Z := Z.of_N (code c) - 48.

(** Value of a run of decimal digits read left to right. *)
Fixpoint digits_value (acc : Z) (s : string) : Z :=
  match s with
  | EmptyString => acc
  | String c s' => digits_value (10 * acc + digit_value c) s'
  end.

Fixpoint all_digits (s : string) : bool :=
  match s with
  | EmptyString => true
  | String c s' => is_digit c && all_digits s'
  end.

Definition is_number (s : string) : bool :=
  match s with
  | EmptyString => false
  | _ => all_digits s
  end.

(** [str(n)] for an integer [n]. *)
Definition str (n : Z) : string := NilZero.string_of_int (Z.to_int n).

Definition int_error (s : string) : exn :=
  ValueError ("invalid literal for int() with base 10: '" ++ s ++ "'").

(** [int(s)] on the literals this program passes to it: an optional
    minus sign and decimal digits.  Any other text raises here. *)
Definition int (s : string) : result Z :=
  match s with
  | String c ds =>
      if Ascii.eqb c "-" then
        if is_number ds then Ok (- digits_value 0 ds)
        else Raise (int_error s)
      else
        if is_number s then Ok (digits_value 0 s) else Raise (int_error s)
  | EmptyString => Raise (int_error s)
  end.

Definition len (s : string) : Z := Z.of_nat (String.length s).

(** Number of elements of [range(start, stop, step)], [step <> 0]. *)
Definition range_len (start stop step : Z) : Z :=
  if 0 <? step then
    if start <? stop then (stop - start - 1) / step + 1 else 0
  else
    if stop <? start then (start - stop - 1) / (- step) + 1 else 0.

(** [list(range(start, stop, step))]. *)
Definition range3 (start stop step : Z) : result (list Z) :=
  if step =? 0 then Raise (ValueError "range() arg 3 must not be zero")
  else Ok (map (fun i => start + step * Z.of_nat i)
               (seq 0 (Z.to_nat (range_len start stop step)))).

(** [list(range(n))]. *)
Definition range1 (n : Z) : list Z :=
  map Z.of_nat (seq 0 (Z.to_nat n)).

(** [sep.join(items)]. *)
Definition join (sep : string) (items : list string) : string :=
  String.concat sep items.

(** [s * n] for a one-character string. *)
Definition repeat_char (c : ascii) (n : Z) : string :=
  string_of_list_ascii (repeat c (Z.to_nat n)).

Definition starts_with_digit (s : string) : bool :=
  match s with
  | String c _ => is_digit c
  | EmptyString => false
  end.

End Py.

(** ** The [re] module *)

Module Re.

(** Syntax of the patterns of this program.  [(?:r)] is [r] itself,
    [r+] over a class is [Plus]. *)
Inductive cclass : Type :=
| Lit (c : ascii)   (* the character itself *)
| Digit             (* \d *)
| Space             (* \s *)
| Dot.              (* .  without DOTALL *)

Definition in_class (p : cclass) (c : ascii) : bool :=
  match p with
  | Lit x => Ascii.eqb x c
  | Digit => Py.is_digit c
  | Space => Py.is_space c
  | Dot => negb (Ascii.eqb c "010")
  end.

Inductive regex : Type :=
| Cls (p : cclass)               (* one character of a class *)
| Seq (r1 r2 : regex)            (* r1 r2 *)
| Opt (r : regex)                (* r?  greedy *)
| Star (p : cclass)              (* c*  greedy, over a class *)
| Grp (i : nat) (r : regex)      (* capturing group number i *)
| NotAhead (r : regex)           (* (?!r) *)
| NotBehind (p : cclass).        (* (?<!c), c a class *)

Definition Chr (c : ascii) : regex := Cls (Lit c).
Definition Plus (p : cclass) : regex := Seq (Cls p) (Star p).

(** Matching state: the text already passed (most recent character
    first), the text ahead, and the groups captured so far (most recent
    first). *)
Record mstate : Type := MState {
  before : string;
  rest : string;
  caps : list (nat * string)
}.

(** The text consumed between a state with [s] ahead and a later state
    with [s'] ahead. *)
Definition taken (s s' : string) : string :=
  substring 0 (String.length s - String.length s') s.

Fixpoint lookup (i : nat) (cs : list (nat * string)) : option string :=
  match cs with
  | [] => None
  | (j, v) :: cs' => if Nat.eqb i j then Some v else lookup i cs'
  end.

Fixpoint star (p : cclass) (k : mstate -> option mstate)
    (b s : string) (cs : list (nat * string)) : option mstate :=
  match s with
  | String c s' =>
      if in_class p c then
        match star p k (String c b) s' cs with
        | Some r => Some r
        | None => k (MState b s cs)
        end
      else k (MState b s cs)
  | EmptyString => k (MState b s cs)
  end.

(** Backtracking matcher in continuation-passing style: [mt r st k]
    tries the ways [r] matches at [st] in the priority order of [re]
    and returns the first for which the continuation [k] succeeds. *)
Fixpoint mt (r : regex) (st : mstate) (k : mstate -> option mstate)
    : option mstate :=
  match r with
  | Cls p =>
      match rest st with
      | String c s' =>
          if in_class p c
          then k (MState (String c (before st)) s' (caps st))
          else None
      | EmptyString => None
      end
  | Seq r1 r2 => mt r1 st (fun st1 => mt r2 st1 k)
  | Opt r1 =>
      match mt r1 st k with
      | Some x => Some x
      | None => k st
      end
  | Star p => star p k (before st) (rest st) (caps st)
  | Grp i r1 =>
      mt r1 st (fun st1 =>
        k (MState (before st1) (rest st1)
                  ((i, taken (rest st) (rest st1)) :: caps st1)))
  | NotAhead r1 =>
      match mt r1 st Some with
      | Some _ => None
      | None => k st
      end
  | NotBehind p =>
      match before st with
      | String c _ => if in_class p c then None else k st
      | EmptyString => k st
      end
  end.

(** A pattern: its source text as the program writes it, the syntax
    tree [re.compile] builds from it, and its number of groups. *)
Record pattern : Type := Pattern {
  source : string;
  ast : regex;
  ngroups : nat
}.

(** A match object: the pattern it comes from, [group()] and the
    numbered groups. *)
Record mmatch : Type := Match {
  re : pattern;
  group0 : string;
  groups : list (nat * string)
}.

Definition group (m : mmatch) (i : nat) : option string :=
  lookup i (groups m).

(** The match of [r] that starts exactly where [s] starts, with [b]
    behind; the second component is the text after the match.  Every
    pattern of this program consumes at least one character, so the
    rules of [re] for empty matches never apply: a match that consumes
    nothing is not reported. *)
Definition match_at (p : pattern) (b s : string) : option (mmatch * string) :=
  match mt (ast p) (MState b s []) Some with
  | Some st =>
      if (String.length (rest st) <? String.length s)%nat
      then Some (Match p (taken s (rest st)) (caps st), rest st)
      else None
  | None => None
  end.

(** The subject cut into the non-overlapping matches found from left
    to right and the characters between them. *)
Inductive piece : Type :=
| PChar (c : ascii)
| PMatch (m : mmatch).

Fixpoint rev_onto (s acc : string) : string :=
  match s with
  | EmptyString => acc
  | String c s' => rev_onto s' (String c acc)
  end.

Fixpoint pieces_fuel (fuel : nat) (r : pattern) (b s : string) : list piece :=
  match fuel with
  | O => []
  | S fuel' =>
      match match_at r b s with
      | Some (m, s') =>
          PMatch m :: pieces_fuel fuel' r (rev_onto (group0 m) b) s'
      | None =>
          match s with
          | EmptyString => []
          | String c s' => PChar c :: pieces_fuel fuel' r (String c b) s'
          end
      end
  end.

Definition pieces (r : pattern) (s : string) : list piece :=
  pieces_fuel (S (String.length s)) r EmptyString s.

(** [re.search(r, s)]: the leftmost match, with the text before it. *)
Fixpoint first_match (ps : list piece) : option (string * mmatch) :=
  match ps with
  | [] => None
  | PMatch m :: _ => Some (EmptyString, m)
  | PChar c :: ps' =>
      match first_match ps' with
      | Some (pre, m) => Some (String c pre, m)
      | None => None
      end
  end.

Definition search (r : pattern) (s : string) : option mmatch :=
  option_map snd (first_match (pieces r s)).

(** [re.finditer(r, s)]. *)
Fixpoint matches_of (ps : list piece) : list mmatch :=
  match ps with
  | [] => []
  | PMatch m :: ps' => m :: matches_of ps'
  | PChar _ :: ps' => matches_of ps'
  end.

Definition finditer (r : pattern) (s : string) : list mmatch :=
  matches_of (pieces r s).

(** [re.split(r, s)]: the list [t0, g.., t1, g.., t2, ...] is kept as
    [t0] and the list of the pairs (groups of a match, text after it). *)
Fixpoint split_pieces (ps : list piece)
    : string * list (list (option string) * string) :=
  match ps with
  | [] => (EmptyString, [])
  | PChar c :: ps' =>
      let (t, more) := split_pieces ps' in (String c t, more)
  | PMatch m :: ps' =>
      let (t, more) := split_pieces ps' in
      (EmptyString, (map (group m) (seq 1 (ngroups (re m))), t) :: more)
  end.

Definition split (r : pattern) (s : string)
    : string * list (list (option string) * string) :=
  split_pieces (pieces r s).

(** [parts[0]] and [parts[-1]] of the list [re.split] returns. *)
Definition split_first (sp : string * list (list (option string) * string))
    : string := fst sp.

Definition split_last (sp : string * list (list (option string) * string))
    : string :=
  match rev (snd sp) with
  | [] => fst sp
  | (_, t) :: _ => t
  end.

(** *** [re.escape] *)

Definition special_chars : list ascii :=
  list_ascii_of_string "()[]{}?*+-|^$\.&~# "
  ++ ["009"; "010"; "013"; "011"; "012"]%char.

Definition is_special (c : ascii) : bool :=
  existsb (Ascii.eqb c) special_chars.

Fixpoint escape (s : string) : string :=
  match s with
  | EmptyString => EmptyString
  | String c s' =>
      if is_special c then String "\" (String c (escape s'))
      else String c (escape s')
  end.

(** *** Replacement templates of [re.sub] *)

Inductive tpart : Type :=
| TLit (c : ascii)
| TGroup (i : nat).

Definition is_octdigit (c : ascii) : bool :=
  (48 <=? Py.code c)%N && (Py.code c <=? 55)%N.

Definition is_ascii_letter (c : ascii) : bool :=
  ((65 <=? Py.code c)%N && (Py.code c <=? 90)%N)
  || ((97 <=? Py.code c)%N && (Py.code c <=? 122)%N).

Definition dval (c : ascii) : nat := N.to_nat (Py.code c) - 48.

(** The character a letter escape stands for. *)
Definition letter_escape (c : ascii) : option ascii :=
  (if Ascii.eqb c "a" then Some "007"
   else if Ascii.eqb c "b" then Some "008"
   else if Ascii.eqb c "f" then Some "012"
   else if Ascii.eqb c "n" then Some "010"
   else if Ascii.eqb c "r" then Some "013"
   else if Ascii.eqb c "t" then Some "009"
   else if Ascii.eqb c "v" then Some "011"
   else if Ascii.eqb c "\" then Some "\"
   else None)%char.

Definition group_ref (ng i : nat) (k : result (list tpart))
    : result (list tpart) :=
  if (ng <? i)%nat then Raise (ReError "invalid group reference")
  else bind k (fun ps => Ok (TGroup i :: ps)).

Definition lit (c : ascii) (k : result (list tpart)) : result (list tpart) :=
  bind k (fun ps => Ok (TLit c :: ps)).

(** [parse_template]: the replacement text cut into literal characters
    and group references.  In [\g<name>] only a decimal group number is
    recognised; the patterns of this program have no named group. *)
Fixpoint parse_template (ng : nat) (s : string) : result (list tpart) :=
  match s with
  | EmptyString => Ok []
  | String c s1 =>
      if negb (Ascii.eqb c "\") then lit c (parse_template ng s1) else
      match s1 with
      | EmptyString => Raise (ReError "bad escape (end of pattern)")
      | String e s2 =>
          if Ascii.eqb e "g" then
            match s2 with
            | String "<" s3 =>
                (fix name (t : string) (acc : string) {struct t}
                     : result (list tpart) :=
                   match t with
                   | EmptyString =>
                       Raise (ReError "missing >, unterminated name")
                   | String d t' =>
                       if Ascii.eqb d ">" then
                         if Py.is_number acc then
                           group_ref ng (Z.to_nat (Py.digits_value 0 acc))
                                     (parse_template ng t')
                         else if match acc with
                                 | EmptyString => true
                                 | _ => false
                                 end
                         then Raise (ReError "missing group name")
                         else Raise (IndexError "unknown group name")
                       else name t' (acc ++ String d EmptyString)
                   end) s3 EmptyString
            | _ => Raise (ReError "missing <")
            end
          else if Ascii.eqb e "0" then
            match s2 with
            | String o1 s3 =>
                if is_octdigit o1 then
                  match s3 with
                  | String o2 s4 =>
                      if is_octdigit o2 then
                        lit (ascii_of_nat (dval o1 * 8 + dval o2))
                            (parse_template ng s4)
                      else lit (ascii_of_nat (dval o1)) (parse_template ng s3)
                  | EmptyString =>
                      lit (ascii_of_nat (dval o1)) (parse_template ng s3)
                  end
                else lit "000"%char (parse_template ng s2)
            | EmptyString => lit "000"%char (parse_template ng s2)
            end
          else if Py.is_digit e then
            match s2 with
            | String y2 s3 =>
                if Py.is_digit y2 then
                  match s3 with
                  | String y3 s4 =>
                      if is_octdigit e && is_octdigit y2 && is_octdigit y3
                      then
                        if (255 <? dval e * 64 + dval y2 * 8 + dval y3)%nat
                        then Raise (ReError "octal escape value outside of range 0-0o377")
                        else lit (ascii_of_nat
                                    (dval e * 64 + dval y2 * 8 + dval y3))
                                 (parse_template ng s4)
                      else group_ref ng (dval e * 10 + dval y2)
                                     (parse_template ng s3)
                  | EmptyString =>
                      group_ref ng (dval e * 10 + dval y2)
                                (parse_template ng s3)
                  end
                else group_ref ng (dval e) (parse_template ng s2)
            | EmptyString => group_ref ng (dval e) (parse_template ng s2)
            end
          else
            match letter_escape e with
            | Some x => lit x (parse_template ng s2)
            | None =>
                if is_ascii_letter e then Raise (ReError "bad escape")
                else lit "\"%char (lit e (parse_template ng s2))
            end
      end
  end.

(** The text a parsed template stands for at a match; a group that
    took no part in the match gives the empty string. *)
Fixpoint expand (t : list tpart) (m : mmatch) : string :=
  match t with
  | [] => EmptyString
  | TLit c :: t' => String c (expand t' m)
  | TGroup i :: t' =>
      (match i with
       | O => group0 m
       | _ => match group m i with
              | Some g => g
              | None => EmptyString
              end
       end) ++ expand t' m
  end.

Fixpoint sub_pieces (t : list tpart) (ps : list piece) : string :=
  match ps with
  | [] => EmptyString
  | PChar c :: ps' => String c (sub_pieces t ps')
  | PMatch m :: ps' => expand t m ++ sub_pieces t ps'
  end.

(** [re.sub(p, repl, s)] with [repl] a string: every match replaced. *)
Definition sub (p : pattern) (repl s : string) : result string :=
  t <- parse_template (ngroups p) repl ;;
  Ok (sub_pieces t (pieces p s)).

End Re.

(** ** [pathlib]: pure POSIX paths *)

Module Path.

(** A parsed path: the root (["/"], ["//"] or empty) and the
    components after it. *)
Record t : Type := Mk {
  root : string;
  parts : list string
}.

Definition sep : string := "/".

(** [s.split("/")]. *)
Fixpoint split_sep (s : string) : list string :=
  match s with
  | EmptyString => [EmptyString]
  | String c s' =>
      if Ascii.eqb c "/" then EmptyString :: split_sep s'
      else match split_sep s' with
           | [] => [String c EmptyString]
           | h :: tl => String c h :: tl
           end
  end.

Fixpoint lstrip_sep (s : string) : string :=
  match s with
  | String c s' => if Ascii.eqb c "/" then lstrip_sep s' else s
  | EmptyString => s
  end.

(** [splitroot] of the POSIX flavour: exactly two leading slashes are
    kept as the root ["//"]. *)
Definition splitroot (s : string) : string * string :=
  match s with
  | String "/" _ =>
      let stripped := lstrip_sep s in
      if (String.length s - String.length stripped =? 2)%nat
      then ("//", stripped) else ("/", stripped)
  | _ => (EmptyString, s)
  end.

Definition keep (x : string) : bool :=
  negb (String.eqb x EmptyString) && negb (String.eqb x ".").

(** [PurePosixPath(s)]. *)
Definition of_str (s : string) : t :=
  let (r, rel) := splitroot s in
  Mk r (filter keep (split_sep rel)).

(** [str(p)]. *)
Definition to_str (p : t) : string :=
  match root p, parts p with
  | EmptyString, [] => "."
  | r, ps => r ++ Py.join sep ps
  end.

(** [p.name]. *)
Definition name (p : t) : string := last (parts p) EmptyString.

(** [s.rfind(".")]. *)
Fixpoint rfind_dot (s : string) : option nat :=
  match s with
  | EmptyString => None
  | String c s' =>
      match rfind_dot s' with
      | Some i => Some (S i)
      | None => if Ascii.eqb c "." then Some O else None
      end
  end.

(** The index at which the suffix starts, when there is one. *)
Definition suffix_index (nm : string) : option nat :=
  match rfind_dot nm with
  | Some i =>
      if (0 <? i)%nat && (i <? String.length nm - 1)%nat
      then Some i else None
  | None => None
  end.

(** [p.suffix]. *)
Definition suffix (p : t) : string :=
  match suffix_index (name p) with
  | Some i => substring i (String.length (name p) - i) (name p)
  | None => EmptyString
  end.

(** [p.stem]. *)
Definition stem (p : t) : string :=
  match suffix_index (name p) with
  | Some i => substring 0 i (name p)
  | None => name p
  end.

(** [p.parent]. *)
Definition parent (p : t) : t :=
  match parts p with
  | [] => p
  | _ => Mk (root p) (removelast (parts p))
  end.

(** [p / other] for a string [other]. *)
Definition joinpath (p : t) (other : string) : t :=
  let q := of_str other in
  match root q with
  | EmptyString => Mk (root p) (parts p ++ parts q)
  | _ => q
  end.

End Path.

(** ** [framecode_types.py] *)

Module FramecodeTypes.

Import Re.

Notation "a +++ b" := (Seq a b) (at level 60, right associativity).

Record attrs : Type := Attrs {
  pattern : Re.pattern;
  width : option string -> result Z;
  generate_framecode : option (Z -> string)
}.

(** [int] and [len] applied to what [match.group(1)] returns. *)
Definition int_ (g : option string) : result Z :=
  match g with
  | Some s => Py.int s
  | None => Raise (TypeError "int() argument must be a string, a bytes-like object or a real number, not 'NoneType'")
  end.

Definition len_ (g : option string) : result Z :=
  match g with
  | Some s => Ok (Py.len s)
  | None => Raise (TypeError "object of type 'NoneType' has no len()")
  end.

Definition format_code_pattern : Re.pattern :=
  Pattern "[{]:0(\d+)d*[}]"
    (Chr "{" +++ Chr ":" +++ Chr "0" +++ Grp 1 (Plus Digit)
     +++ Star (Lit "d") +++ Chr "}")
    1.

Definition modulo_pattern : Re.pattern :=
  Pattern "%0(\d+)d"
    (Chr "%" +++ Chr "0" +++ Grp 1 (Plus Digit) +++ Chr "d")
    1.

Definition numbersign_pattern : Re.pattern :=
  Pattern "(#+)(?!.*#)"
    (Grp 1 (Plus (Lit "#")) +++ NotAhead (Star Dot +++ Chr "#"))
    1.

Definition digits_pattern : Re.pattern :=
  Pattern "(-?\d+)(?!.*\d)"
    (Grp 1 (Opt (Chr "-") +++ Plus Digit)
     +++ NotAhead (Star Dot +++ Cls Digit))
    1.

(** The table, in the order of the source dictionary. *)
Definition FRAMECODE_TYPES : list (string * attrs) :=
  [ ("format_code",
     Attrs format_code_pattern int_
           (Some (fun n => "{:0" ++ Py.str n ++ "d}")));
    ("modulo",
     Attrs modulo_pattern int_
           (Some (fun n => "%0" ++ Py.str n ++ "d")));
    ("numbersign",
     Attrs numbersign_pattern len_
           (Some (fun n => Py.repeat_char "#" n)));
    ("digits",
     Attrs digits_pattern len_ None) ].

(** [FRAMECODE_TYPES.get(key, None)]. *)
Fixpoint get (key : string) (d : list (string * attrs)) : option attrs :=
  match d with
  | [] => None
  | (k, v) :: d' => if String.eqb key k then Some v else get key d'
  end.

(** [FRAMECODE_TYPES[key]]. *)
Definition getitem (key : string) (d : list (string * attrs)) : result attrs :=
  match get key d with
  | Some v => Ok v
  | None => Raise (KeyError key)
  end.

End FramecodeTypes.

(** ** [parsing.py]: framecodes *)

Import FramecodeTypes.

(** [generate_framecode(framecode_type, width)]. *)
Definition generate_framecode (framecode_type : string) (width : Z)
    : result string :=
  if width <? 1 then Raise (ValueError "'width' must be positive.") else
  match get framecode_type FRAMECODE_TYPES with
  | None =>
      Raise (ValueError ("'" ++ framecode_type
                         ++ "' is not a supported framecode type."))
  | Some attrs =>
      match FramecodeTypes.generate_framecode attrs with
      | None =>
          Raise (ValueError ("Cannot generate framecode of type '"
                             ++ framecode_type ++ "'"))
      | Some generate => Ok (generate width)
      end
  end.

Module _Parser.

(** An instance: the string it was created from, the match found in
    the stem and the name of the matching framecode type. *)
Record t : Type := Mk {
  _string : string;
  _match : Re.mmatch;
  _type : string
}.

Definition path_of (s : string) : Path.t := Path.of_str s.

(** The loop of [__init__]: the first type of the table whose pattern
    is found in the stem. *)
Fixpoint find (types : list (string * attrs)) (stem : string)
    : option (string * Re.mmatch) :=
  match types with
  | [] => None
  | (fc_type, fc_attrs) :: types' =>
      match Re.search (pattern fc_attrs) stem with
      | Some m => Some (fc_type, m)
      | None => find types' stem
      end
  end.

(** [_Parser(string)]. *)
Definition init (s : string) : result t :=
  match find FRAMECODE_TYPES (Path.stem (path_of s)) with
  | Some (fc_type, m) => Ok (Mk s m fc_type)
  | None => Raise (ValueError ("No framecode found in '" ++ s ++ "'"))
  end.

Definition path (self : t) : Path.t := path_of (_string self).

Definition framecode (self : t) : string := Re.group0 (_match self).

Definition width (self : t) : result Z :=
  a <- getitem (_type self) FRAMECODE_TYPES ;;
  FramecodeTypes.width a (Re.group (_match self) 1).

Definition replace_framecode (self : t) (repl : string) : result string :=
  new_stem <- Re.sub (Re.re (_match self)) repl (Path.stem (path self)) ;;
  Ok (Path.to_str (Path.joinpath (Path.parent (path self))
                                 (new_stem ++ Path.suffix (path self)))).

(** The table [width_options] of [create_regex]. *)
Definition width_options (w : Z) : list (string * string) :=
  [ ("any", "-?\d+");
    ("exact", "(?:\d{" ++ Py.str w ++ "}|-\d{" ++ Py.str (w - 1) ++ "})");
    ("min", "(?:\d{" ++ Py.str w ++ ",}|-\d{" ++ Py.str (w - 1) ++ ",})");
    ("max", "(?:\d{1," ++ Py.str w ++ "}|-\d{1," ++ Py.str (w - 1) ++ "})") ].

Fixpoint options_get (key : string) (d : list (string * string))
    : option string :=
  match d with
  | [] => None
  | (k, v) :: d' => if String.eqb key k then Some v else options_get key d'
  end.

Definition create_regex (self : t) (width_ : string) : result string :=
  w <- width self ;;
  match options_get width_ (width_options w) with
  | None =>
      Raise (ValueError ("'" ++ width_ ++ "' not supported as an option."
               ++ "Available options: 'any', 'exact', 'min', 'max'."))
  | Some regex_code =>
      let stem_parts := Re.split (Re.re (_match self)) (Path.stem (path self)) in
      let new_stem := Re.escape (Re.split_first stem_parts) ++ regex_code
                      ++ Re.escape (Re.split_last stem_parts) in
      let new_name := new_stem ++ Re.escape (Path.suffix (path self)) in
      let parent := Path.to_str (Path.parent (path self)) in
      if String.eqb parent "." then Ok new_name
      else Ok (Re.escape parent ++ Re.escape Path.sep ++ new_name)
  end.

(** [translate(to_type, **kwargs)]; the only keyword [create_regex]
    takes is [width]. *)
Definition translate (self : t) (to_type : string) (kw_width : option string)
    : result string :=
  if String.eqb to_type "regex" then
    create_regex self (match kw_width with Some w => w | None => "any" end)
  else
    w <- width self ;;
    framecode <- generate_framecode to_type w ;;
    replace_framecode self framecode.

End _Parser.

(** [try: body except ValueError: handler]. *)
Definition except_ValueError {A : Type} (body : result A) (handler : A)
    : result A :=
  match body with
  | Raise (ValueError _) => Ok handler
  | r => r
  end.

Definition get_framecode (s : string) : result (option string) :=
  except_ValueError
    (parser <- _Parser.init s ;; Ok (Some (_Parser.framecode parser)))
    None.

Definition get_frame_number (s : string) : result (option Z) :=
  except_ValueError
    (parser <- _Parser.init s ;;
     if String.eqb (_Parser._type parser) "digits"
     then n <- Py.int (_Parser.framecode parser) ;; Ok (Some n)
     else Ok None)
    None.

Definition has_framecode (s : string) : result bool :=
  except_ValueError (_ <- _Parser.init s ;; Ok true) false.

Definition get_framecode_type (s : string) : result (option string) :=
  except_ValueError
    (parser <- _Parser.init s ;; Ok (Some (_Parser._type parser)))
    None.

Definition get_framecode_width (s : string) : result (option Z) :=
  except_ValueError
    (parser <- _Parser.init s ;; w <- _Parser.width parser ;; Ok (Some w))
    None.

Definition replace_framecode (s repl : string) : result string :=
  except_ValueError
    (parser <- _Parser.init s ;; _Parser.replace_framecode parser repl)
    s.

Definition translate_framecode (s to_type : string) : result string :=
  match _Parser.init s with
  | Raise (ValueError _) => Ok s
  | Raise e => Raise e
  | Ok parser => _Parser.translate parser to_type None
  end.

Definition create_regex (s width : string) : result string :=
  match _Parser.init s with
  | Raise (ValueError _) => Ok (Re.escape s)
  | Raise e => Raise e
  | Ok parser => _Parser.create_regex parser width
  end.

(** ** [parsing.py]: sets of integers as text *)

(** What consuming a generator to its end gives: the values yielded,
    and the exception that ended it if one was raised. *)
Record trace : Type := Trace {
  yielded : list Z;
  raised : option exn
}.

Definition whitespace_not_before_digit : Re.pattern :=
  Re.Pattern "\s(?!\d)" (Re.Cls Re.Space +++ Re.NotAhead (Re.Cls Re.Digit)) 0.

Definition whitespace_not_after_digit : Re.pattern :=
  Re.Pattern "(?<!\d)\s" (Re.NotBehind Re.Digit +++ Re.Cls Re.Space) 0.

(** The pattern of [parse_numbers], compiled with [re.VERBOSE]. *)
Definition numbers_pattern : Re.pattern :=
  Re.Pattern "(-?\d+)(?:-(-?\d+))?(?:x(-?\d+))?"
    (Re.Grp 1 (Re.Opt (Re.Chr "-") +++ Re.Plus Re.Digit)
     +++ Re.Opt (Re.Chr "-" +++ Re.Grp 2 (Re.Opt (Re.Chr "-") +++ Re.Plus Re.Digit))
     +++ Re.Opt (Re.Chr "x" +++ Re.Grp 3 (Re.Opt (Re.Chr "-") +++ Re.Plus Re.Digit)))
    3.

(** [int(n) if n is not None else None]. *)
Definition int_or_None (g : option string) : result (option Z) :=
  match g with
  | Some n => v <- Py.int n ;; Ok (Some v)
  | None => Ok None
  end.

(** The body of the loop of [parse_numbers] for one match: the values
    it yields.  It raises before it yields or not at all. *)
Definition numbers_of_match (m : Re.mmatch) : result (list Z) :=
  A <- int_or_None (Re.group m 1) ;;
  B <- int_or_None (Re.group m 2) ;;
  C <- int_or_None (Re.group m 3) ;;
  match A, B, C with
  | None, _, _ => Raise (TypeError "group 1 did not take part in the match")
  | Some a, None, None => Ok [a]
  | Some a, None, Some c => Ok (map (fun _ => a) (Py.range1 c))
  | Some a, Some b, _ =>
      let c := match C with Some c => c | None => 1 end in
      let b' := b + (if 0 <=? c then 1 else -1) in
      Py.range3 a b' c
  end.

Fixpoint run_matches (ms : list Re.mmatch) : trace :=
  match ms with
  | [] => Trace [] None
  | m :: ms' =>
      match numbers_of_match m with
      | Ok ys =>
          let t := run_matches ms' in
          Trace (ys ++ yielded t)%list (raised t)
      | Raise e => Trace [] (Some e)
      end
  end.

(** [parse_numbers(string)], consumed to its end. *)
Definition parse_numbers (s : string) : trace :=
  match
    (s1 <- Re.sub whitespace_not_before_digit "" s ;;
     Re.sub whitespace_not_after_digit "" s1)
  with
  | Ok s2 => run_matches (Re.finditer numbers_pattern s2)
  | Raise e => Trace [] (Some e)
  end.

(** [build_string] of [format_numbers], on the variables it reads. *)
Definition build_string (seq_start seq_end step seq_length : Z) : string :=
  if step =? 0 then Py.str seq_start ++ "x" ++ Py.str seq_length
  else if step =? 1 then Py.str seq_start ++ "-" ++ Py.str seq_end
  else Py.str seq_start ++ "-" ++ Py.str seq_end ++ "x" ++ Py.str step.

(** The [while True] loop of [format_numbers]; [numbers] is what the
    iterator has left, [output] the list of strings built so far. *)
Fixpoint format_loop (numbers : list Z)
    (seq_start seq_end next_number step seq_length : Z)
    (output : list string) {struct numbers} : list string :=
  if next_number =? seq_start + step * seq_length then
    (* next number forms part of arithmetic sequence *)
    let seq_end := next_number in
    let seq_length := seq_length + 1 in
    match numbers with
    | next_number :: numbers' =>
        format_loop numbers' seq_start seq_end next_number step seq_length
                    output
    | [] =>
        (output ++ [build_string seq_start seq_end step seq_length])%list
    end
  else if (3 <=? seq_length) || (step =? 0) then
    let output :=
      (output ++ [build_string seq_start seq_end step seq_length])%list in
    (* Shift 2 numbers forward and continue checking *)
    let seq_start := next_number in
    match numbers with
    | [] => (output ++ [Py.str seq_start])%list
    | seq_end :: numbers' =>
        let step := seq_end - seq_start in
        match numbers' with
        | [] =>
            if step =? 0
            then (output ++ [(Py.str seq_start ++ "x" ++ Py.str seq_length)%string])%list
            else (output ++ [Py.str seq_start; Py.str seq_end])%list
        | next_number :: numbers'' =>
            format_loop numbers'' seq_start seq_end next_number
                        (seq_end - seq_start) 2 output
        end
    end
  else
    (* Not a sequence or repeat *)
    let output := (output ++ [Py.str seq_start])%list in
    (* Shift 1 number forward and continue checking *)
    let seq_start := seq_end in
    let seq_end := next_number in
    let step := seq_end - seq_start in
    match numbers with
    | [] =>
        if step =? 0
        then (output ++ [(Py.str seq_start ++ "x" ++ Py.str seq_length)%string])%list
        else (output ++ [Py.str seq_start; Py.str seq_end])%list
    | next_number :: numbers' =>
        format_loop numbers' seq_start seq_end next_number
                    (seq_end - seq_start) 2 output
    end.

(** [format_numbers(numbers)] for an iterable of integers. *)
Definition format_numbers (numbers : list Z) : result string :=
  match numbers with
  | [] => Raise (ValueError "Input is empty.")
  | [seq_start] => Ok (Py.str seq_start)
  | [seq_start; seq_end] =>
      if seq_start =? seq_end then Ok (Py.str seq_start ++ "x2")
      else Ok (Py.str seq_start ++ ", " ++ Py.str seq_end)
  | seq_start :: seq_end :: next_number :: numbers' =>
      Ok (Py.join ", "
            (format_loop numbers' seq_start seq_end next_number
                         (seq_end - seq_start) 2 []))
  end.

(** ** [parsing.py]: the class [Seqname] *)

Module Seqname.

(** A [Seqname] is a [str] (its [value]) that holds the parser of the
    string it was created from. *)
Record t : Type := Mk {
  value : string;
  _parser : _Parser.t
}.

(** [Seqname(string)]: [__new__] then [__init__]. *)
Definition new (s : string) : result t :=
  parser <- _Parser.init s ;;
  v <- _Parser.translate parser "format_code" None ;;
  parser' <- _Parser.init s ;;
  Ok (Mk v parser').

Definition format_code (self : t) : result string :=
  _Parser.translate (_parser self) "format_code" None.

Definition modulo (self : t) : result string :=
  _Parser.translate (_parser self) "modulo" None.

Definition numbersign (self : t) : result string :=
  _Parser.translate (_parser self) "numbersign" None.

Definition regex (self : t) : result string :=
  _Parser.create_regex (_parser self) "any".

Definition width (self : t) : result Z := _Parser.width (_parser self).

Section Matches.

(** [re.fullmatch(pattern, string) is not None] and
    [re.search(pattern, string) is not None] for a pattern given as
    text: the regular expression engine is a parameter here. *)
Variable re_fullmatch : string -> string -> bool.
Variable re_search : string -> string -> bool.

(** [self.matches(string, strict)] for a [str] argument. *)
Definition matches (self : t) (s : string) (strict : bool) : result bool :=
  let matchfunc := if strict then re_fullmatch else re_search in
  r <- regex self ;;
  if matchfunc r s then Ok true
  else
    match new s with
    | Ok other_seqname => Ok (String.eqb (value self) (value other_seqname))
    | Raise (ValueError _) => Ok false
    | Raise e => Raise e
    end.

End Matches.

End Seqname.

(** ** Definitions used in the statements and proofs below *)

(** The decimal digits of a positive number. *)
Definition pos_digits (p : positive) : string :=
  NilEmpty.string_of_uint (Pos.to_uint p).

(** The digits [str] writes after the sign. *)
Definition abs_digits (z : Z) : string :=
  match z with
  | 0 => "0"
  | Z.pos p => pos_digits p
  | Z.neg p => pos_digits p
  end.

(** Every character of [s] is in the class [p]. *)
Fixpoint all_in (p : Re.cclass) (s : string) : bool :=
  match s with
  | EmptyString => true
  | String c s' => Re.in_class p c && all_in p s'
  end.

(** [s] starts with a character of the class [p]. *)
Definition head_in (p : Re.cclass) (s : string) : bool :=
  match s with
  | String c _ => Re.in_class p c
  | EmptyString => false
  end.

(** [s] is empty or starts with a comma. *)
Definition at_boundary (s : string) : bool :=
  match s with
  | EmptyString => true
  | String c _ => Ascii.eqb c ","
  end.

(** The pieces of a subject from a position on, whatever the fuel. *)
Definition pieces_from (p : Re.pattern) (b s : string) : list Re.piece :=
  Re.pieces_fuel (S (String.length s)) p b s.

(** The units [format_numbers] writes between commas. *)
Inductive fragment : Type :=
| FSingle (a : Z)
| FRepeat (a n : Z)
| FRange (a b : Z)
| FRangeStep (a b c : Z).

Definition render (f : fragment) : string :=
  match f with
  | FSingle a => Py.str a
  | FRepeat a n => Py.str a ++ "x" ++ Py.str n
  | FRange a b => Py.str a ++ "-" ++ Py.str b
  | FRangeStep a b c => Py.str a ++ "-" ++ Py.str b ++ "x" ++ Py.str c
  end.

(** The groups of the match of [numbers_pattern] on a rendered unit. *)
Definition groups_of (f : fragment) : list (nat * string) :=
  match f with
  | FSingle a => [(1%nat, Py.str a)]
  | FRepeat a n => [(3%nat, Py.str n); (1%nat, Py.str a)]
  | FRange a b => [(2%nat, Py.str b); (1%nat, Py.str a)]
  | FRangeStep a b c =>
      [(3%nat, Py.str c); (2%nat, Py.str b); (1%nat, Py.str a)]
  end.

Definition match_of (f : fragment) : Re.mmatch :=
  Re.Match numbers_pattern (render f) (groups_of f).

(** The values a unit stands for, as [parse_numbers] reads it back. *)
Definition expand_fragment (f : fragment) : result (list Z) :=
  match f with
  | FSingle a => Ok [a]
  | FRepeat a n => Ok (repeat a (Z.to_nat n))
  | FRange a b => Py.range3 a (b + 1) 1
  | FRangeStep a b c => Py.range3 a (b + (if 0 <=? c then 1 else -1)) c
  end.

(** No character of [s] is whitespace. *)
Fixpoint no_space (s : string) : bool :=
  match s with
  | EmptyString => true
  | String c s' => negb (Py.is_space c) && no_space s'
  end.

(** A non-empty text without whitespace. *)
Definition token (s : string) : Prop := s <> "" /\ no_space s = true.

(** Tokens joined by [", "] after the first substitution of
    [parse_numbers]: the blank stays only before a digit. *)
Fixpoint join1 (ts : list string) : string :=
  match ts with
  | [] => ""
  | t :: ts' =>
      match ts' with
      | [] => t
      | t' :: _ =>
          t ++ (if Py.starts_with_digit t' then ", " else ",") ++ join1 ts'
      end
  end.

(** Reading back a list of units: [run_matches] on the units. *)
Fixpoint run_fragments (fs : list fragment) : trace :=
  match fs with
  | [] => Trace [] None
  | f :: fs' =>
      match expand_fragment f with
      | Ok ys =>
          let t := run_fragments fs' in
          Trace (ys ++ yielded t)%list (raised t)
      | Raise e => Trace [] (Some e)
      end
  end.

(** The words a pattern can take and the groups it then adds: what any
    successful run of the matcher goes through.  Lookarounds take the
    empty word (the conditions they check are left out here). *)
Inductive accepts : Re.regex -> list (nat * string) -> string ->
                    list (nat * string) -> Prop :=
| acc_cls p c cs :
    Re.in_class p c = true -> accepts (Re.Cls p) cs (String c "") cs
| acc_seq r1 r2 cs w1 cs1 w2 cs2 :
    accepts r1 cs w1 cs1 -> accepts r2 cs1 w2 cs2 ->
    accepts (Re.Seq r1 r2) cs (w1 ++ w2) cs2
| acc_opt_some r cs w cs1 :
    accepts r cs w cs1 -> accepts (Re.Opt r) cs w cs1
| acc_opt_none r cs : accepts (Re.Opt r) cs "" cs
| acc_star p cs w : all_in p w = true -> accepts (Re.Star p) cs w cs
| acc_grp i r cs w cs1 :
    accepts r cs w cs1 -> accepts (Re.Grp i r) cs w ((i, w) :: cs1)
| acc_not_ahead r cs : accepts (Re.NotAhead r) cs "" cs
| acc_not_behind p cs : accepts (Re.NotBehind p) cs "" cs.

(** The literals [int] reads: an optional minus sign and digits. *)
Definition int_literal (s : string) : bool :=
  match s with
  | String c ds => if Ascii.eqb c "-" then Py.is_number ds else Py.is_number s
  | EmptyString => false
  end.

(** The text [parse_numbers] scans, after its two substitutions. *)
Definition stripped (s : string) : string :=
  Re.sub_pieces []
    (Re.pieces whitespace_not_after_digit
       (Re.sub_pieces [] (Re.pieces whitespace_not_before_digit s))).

(** The matches [parse_numbers] iterates over. *)
Definition number_matches (s : string) : list Re.mmatch :=
  Re.finditer numbers_pattern (stripped s).

(** No character of [s] is a backslash. *)
Fixpoint no_backslash (s : string) : bool :=
  match s with
  | EmptyString => true
  | String c s' => negb (Ascii.eqb c "\") && no_backslash s'
  end.

(** [sub] occurs in [s]. *)
Definition contains (s sub : string) : Prop :=
  exists pre post, s = pre ++ sub ++ post.

(** The arithmetic progression of [len] terms from [start]. *)
Definition arith (start step len : Z) : list Z :=
  map (fun i => start + step * Z.of_nat i) (seq 0 (Z.to_nat len)).

(** [build_string] as a unit. *)
Definition build_fragment (seq_start seq_end step seq_length : Z) : fragment :=
  if step =? 0 then FRepeat seq_start seq_length
  else if step =? 1 then FRange seq_start seq_end
  else FRangeStep seq_start seq_end step.

(** The units [format_loop] appends to its output. *)
Fixpoint loop_fragments (numbers : list Z)
    (seq_start seq_end next_number step seq_length : Z)
    {struct numbers} : list fragment :=
  if next_number =? seq_start + step * seq_length then
    match numbers with
    | n :: numbers' =>
        loop_fragments numbers' seq_start next_number n step (seq_length + 1)
    | [] => [build_fragment seq_start next_number step (seq_length + 1)]
    end
  else if (3 <=? seq_length) || (step =? 0) then
    build_fragment seq_start seq_end step seq_length ::
    match numbers with
    | [] => [FSingle next_number]
    | e :: numbers' =>
        match numbers' with
        | [] =>
            if e - next_number =? 0 then [FRepeat next_number seq_length]
            else [FSingle next_number; FSingle e]
        | n :: numbers'' =>
            loop_fragments numbers'' next_number e n (e - next_number) 2
        end
    end
  else
    FSingle seq_start ::
    match numbers with
    | [] =>
        if next_number - seq_end =? 0 then [FRepeat seq_end seq_length]
        else [FSingle seq_end; FSingle next_number]
    | n :: numbers' =>
        loop_fragments numbers' seq_end next_number n
                       (next_number - seq_end) 2
    end.

(** The units of the text [format_numbers] returns. *)
Definition format_fragments (numbers : list Z) : list fragment :=
  match numbers with
  | [] => []
  | [a] => [FSingle a]
  | [a; b] => if a =? b then [FRepeat a 2] else [FSingle a; FSingle b]
  | a :: b :: c :: numbers' => loop_fragments numbers' a b c (b - a) 2
  end.

(** ** Statements of the specification that fail as written *)




(** Stated for every string with a framecode: [Seqname(f)] can be built
    and matches [f]. *)
Definition seqname_claim (f : string) : Prop :=
  forall (re_fullmatch re_search : string -> string -> bool) p,
    _Parser.init f = Ok p ->
    exists sn, Seqname.new f = Ok sn
               /\ Seqname.matches re_fullmatch re_search sn f true = Ok true.

(** The text of a list of pieces. *)
Fixpoint pieces_text (ps : list Re.piece) : string :=
  match ps with
  | [] => ""
  | Re.PChar c :: ps' => String c (pieces_text ps')
  | Re.PMatch m :: ps' => Re.group0 m ++ pieces_text ps'
  end.

(** The text after the first match. *)
Fixpoint after_first_match (ps : list Re.piece) : string :=
  match ps with
  | [] => ""
  | Re.PChar _ :: ps' => after_first_match ps'
  | Re.PMatch _ :: ps' => pieces_text ps'
  end.

(** From the words of the claim on [create_regex] with ["exact"], to be
    compared with the function of the source: the escaped part of the
    stem before the detected framecode, the fragment for exactly [w]
    digits or a minus sign and [w - 1] digits, the escaped part of the
    stem after the framecode and the escaped extension, after the
    escaped parent directory and separator when there is a parent
    directory. *)
Definition claimed_exact_regex (f : string) : option string :=
  match _Parser.init f with
  | Ok p =>
      match _Parser.width p with
      | Ok w =>
          let ps := Re.pieces (Re.re (_Parser._match p))
                              (Path.stem (_Parser.path p)) in
          let stem_prefix :=
            match Re.first_match ps with
            | Some (pre, _) => pre
            | None => ""
            end in
          let stem_suffix := after_first_match ps in
          let name :=
            Re.escape stem_prefix
            ++ "(?:\d{" ++ Py.str w ++ "}|-\d{" ++ Py.str (w - 1) ++ "})"
            ++ Re.escape stem_suffix
            ++ Re.escape (Path.suffix (_Parser.path p)) in
          let parent := Path.to_str (Path.parent (_Parser.path p)) in
          if String.eqb parent "." then Some name
          else Some (Re.escape parent ++ Re.escape Path.sep ++ name)
      | Raise _ => None
      end
  | Raise _ => None
  end.

(** From the words of the claim on [replace]: only the first match of
    the pattern in the stem is replaced by the replacement text. *)
Definition claimed_replace (f repl : string) : option string :=
  match _Parser.init f with
  | Ok p =>
      let ps := Re.pieces (Re.re (_Parser._match p))
                          (Path.stem (_Parser.path p)) in
      match Re.first_match ps with
      | Some (pre, _) =>
          Some (Path.to_str
                  (Path.joinpath (Path.parent (_Parser.path p))
                     (pre ++ repl ++ after_first_match ps
                      ++ Path.suffix (_Parser.path p))))
      | None => None
      end
  | Raise _ => None
  end.

(** The parsed form of a replacement text without backslash. *)
Fixpoint plain_template (s : string) : list Re.tpart :=
  match s with
  | EmptyString => []
  | String c s' => Re.TLit c :: plain_template s'
  end.

(** ** Definitions for the further properties *)

(** [s] contains a decimal digit. *)
Fixpoint has_digit (s : string) : bool :=
  match s with
  | EmptyString => false
  | String c s' => Py.is_digit c || has_digit s'
  end.

(** [s] contains the character [x]. *)
Fixpoint has_char (x : ascii) (s : string) : bool :=
  match s with
  | EmptyString => false
  | String c s' => Ascii.eqb x c || has_char x s'
  end.


(** The last two elements of [l] are equal. *)
Fixpoint last_two_equal (l : list Z) : bool :=
  match l with
  | a :: tl =>
      match tl with
      | [] => false
      | b :: tl' =>
          match tl' with
          | [] => a =? b
          | _ :: _ => last_two_equal tl
          end
      end
  | [] => false
  end.

(** Every character of [s] is an ASCII letter. *)
Fixpoint all_letters (s : string) : bool :=
  match s with
  | EmptyString => true
  | String c s' => Re.is_ascii_letter c && all_letters s'
  end.

(** No character of [s] is in the class [p]. *)
Fixpoint none_in (p : Re.cclass) (s : string) : bool :=
  match s with
  | EmptyString => true
  | String c s' => negb (Re.in_class p c) && none_in p s'
  end.

(** A character of an integer literal: a digit or the minus sign. *)
Definition num_char (c : ascii) : bool := Py.is_digit c || Ascii.eqb c "-".

(** [s] ends with a digit or a minus sign. *)
Fixpoint ends_num (s : string) : bool :=
  match s with
  | EmptyString => false
  | String c s' =>
      match s' with
      | EmptyString => num_char c
      | String _ _ => ends_num s'
      end
  end.

(** A digit occurs in [s] before any line feed. *)
Fixpoint digit_on_line (s : string) : bool :=
  match s with
  | EmptyString => false
  | String c s' =>
      Py.is_digit c || (negb (Ascii.eqb c "010") && digit_on_line s')
  end.

(** What may stand before the frame number of a name: no ['#'], ['{'],
    ['%'] or line feed, and no digit or minus sign at the end. *)
Definition name_prefix (s : string) : bool :=
  negb (has_char "#" s) && negb (has_char "{" s) && negb (has_char "%" s)
  && negb (has_char "010" s) && negb (ends_num s).

(** * Properties *)

(** ** Strings *)

Lemma sapp_assoc (a b c : string) : (a ++ b) ++ c = a ++ (b ++ c).
Proof. induction a as [|x a IH]; simpl; [reflexivity | now rewrite IH]. Qed.

Lemma sapp_nil_r (a : string) : a ++ "" = a.
Proof. induction a as [|x a IH]; simpl; [reflexivity | now rewrite IH]. Qed.

Lemma slength_app (a b : string) :
  String.length (a ++ b) = (String.length a + String.length b)%nat.
Proof. induction a as [|x a IH]; simpl; [reflexivity | now rewrite IH]. Qed.

Lemma substring_0_app (a b : string) :
  substring 0 (String.length a) (a ++ b) = a.
Proof.
  induction a as [|x a IH]; simpl.
  - now destruct b.
  - now rewrite IH.
Qed.

Lemma taken_app (w s : string) : Re.taken (w ++ s) s = w.
Proof.
  unfold Re.taken. rewrite slength_app.
  replace (String.length w + String.length s - String.length s)%nat
    with (String.length w) by lia.
  apply substring_0_app.
Qed.

Lemma rev_onto_app (a b acc : string) :
  Re.rev_onto (a ++ b) acc = Re.rev_onto b (Re.rev_onto a acc).
Proof.
  revert acc. induction a as [|x a IH]; intros acc; simpl;
    [reflexivity | apply IH].
Qed.

(** ** Decimal text of integers *)

Lemma uint_all_digits (d : Decimal.uint) :
  Py.all_digits (NilEmpty.string_of_uint d) = true.
Proof. induction d; simpl; auto. Qed.

Lemma uint_string_nonempty (d : Decimal.uint) :
  d <> Decimal.Nil -> NilEmpty.string_of_uint d <> "".
Proof. destruct d; simpl; congruence. Qed.

Ltac digit_values :=
  repeat match goal with
  | |- context [Py.digit_value ?c] =>
      let v := eval vm_compute in (Py.digit_value c) in
      change (Py.digit_value c) with v
  end.

Lemma digits_value_uint_acc (d : Decimal.uint) (acc : positive) :
  Py.digits_value (Z.pos acc) (NilEmpty.string_of_uint d)
  = Z.pos (Pos.of_uint_acc d acc).
Proof.
  revert acc.
  induction d; intros acc;
    cbn [NilEmpty.string_of_uint Py.digits_value Pos.of_uint_acc];
    try reflexivity;
    rewrite <- IHd; f_equal; digit_values; lia.
Qed.

Lemma digits_value_uint (d : Decimal.uint) :
  Py.digits_value 0 (NilEmpty.string_of_uint d) = Z.of_N (Pos.of_uint d).
Proof.
  induction d;
    cbn [NilEmpty.string_of_uint Py.digits_value Pos.of_uint];
    try reflexivity; digit_values;
    try exact IHd; apply digits_value_uint_acc.
Qed.

Lemma pos_digits_number (p : positive) : Py.is_number (pos_digits p) = true.
Proof.
  unfold pos_digits, Py.is_number.
  pose proof (uint_string_nonempty (Pos.to_uint p)
                (Unsigned.to_uint_nonnil p)) as H.
  destruct (NilEmpty.string_of_uint (Pos.to_uint p)) eqn:E; [congruence|].
  rewrite <- E. apply uint_all_digits.
Qed.

Lemma pos_digits_value (p : positive) :
  Py.digits_value 0 (pos_digits p) = Z.pos p.
Proof.
  unfold pos_digits. rewrite digits_value_uint, Unsigned.of_to. reflexivity.
Qed.

Lemma str_pos (p : positive) : Py.str (Z.pos p) = pos_digits p.
Proof.
  unfold Py.str, pos_digits. simpl.
  unfold NilZero.string_of_uint.
  pose proof (Unsigned.to_uint_nonnil p).
  destruct (Pos.to_uint p); congruence.
Qed.

Lemma str_neg (p : positive) : Py.str (Z.neg p) = String "-" (pos_digits p).
Proof.
  unfold Py.str, pos_digits. simpl.
  unfold NilZero.string_of_uint.
  pose proof (Unsigned.to_uint_nonnil p).
  destruct (Pos.to_uint p); congruence.
Qed.

Lemma str_0 : Py.str 0 = "0".
Proof. reflexivity. Qed.

Lemma abs_digits_number (z : Z) : Py.is_number (abs_digits z) = true.
Proof. destruct z; simpl; [reflexivity | | ]; apply pos_digits_number. Qed.

Lemma abs_digits_value (z : Z) : Py.digits_value 0 (abs_digits z) = Z.abs z.
Proof. destruct z; simpl; [reflexivity | | ]; apply pos_digits_value. Qed.

Lemma str_cases (z : Z) :
  Py.str z = if z <? 0 then String "-" (abs_digits z) else abs_digits z.
Proof.
  destruct z; simpl.
  - reflexivity.
  - apply str_pos.
  - apply str_neg.
Qed.

Lemma is_number_head (s : string) :
  Py.is_number s = true -> Py.starts_with_digit s = true.
Proof.
  destruct s as [|c s]; simpl; [discriminate|].
  intros H. now apply andb_true_iff in H.
Qed.

Lemma is_number_all_digits (s : string) :
  Py.is_number s = true -> Py.all_digits s = true.
Proof. destruct s; simpl; [discriminate | auto]. Qed.

Lemma digit_not_minus (c : ascii) :
  Py.is_digit c = true -> Ascii.eqb c "-" = false.
Proof.
  intros H. destruct (Ascii.eqb_spec c "-") as [->|]; [discriminate H | reflexivity].
Qed.

(** [int(str(z))] is [z]. *)
Lemma int_str (z : Z) : Py.int (Py.str z) = Ok z.
Proof.
  rewrite str_cases. destruct (Z.ltb_spec z 0) as [Hz|Hz].
  - simpl. rewrite abs_digits_number, abs_digits_value. f_equal. lia.
  - pose proof (abs_digits_number z) as Hn.
    pose proof (is_number_head _ Hn) as Hh.
    unfold Py.int. destruct (abs_digits z) as [|c s] eqn:E; [discriminate|].
    simpl in Hh. rewrite (digit_not_minus c Hh), Hn.
    rewrite <- E, abs_digits_value. f_equal. lia.
Qed.

Lemma str_nonempty (z : Z) : Py.str z <> "".
Proof.
  rewrite str_cases. pose proof (abs_digits_number z).
  destruct (z <? 0); [discriminate|].
  destruct (abs_digits z); [discriminate | discriminate].
Qed.

(** ** The matcher on text of a known shape *)

Lemma star_greedy (p : Re.cclass) (w r : string) k b cs res :
  all_in p w = true -> head_in p r = false ->
  k (Re.MState (Re.rev_onto w b) r cs) = Some res ->
  Re.star p k b (w ++ r) cs = Some res.
Proof.
  revert b. induction w as [|c w IH]; intros b Hw Hr Hk; simpl in *.
  - destruct r as [|c r]; simpl in *; [exact Hk|]. now rewrite Hr.
  - apply andb_true_iff in Hw as [Hc Hw]. rewrite Hc.
    now rewrite (IH (String c b) Hw Hr Hk).
Qed.

Lemma all_digits_all_in (s : string) :
  Py.all_digits s = true -> all_in Re.Digit s = true.
Proof. induction s; simpl; auto. intros H. apply andb_true_iff in H as [-> H]. auto. Qed.

Lemma mt_number (ds r : string) k b cs res :
  Py.is_number ds = true -> Py.starts_with_digit r = false ->
  k (Re.MState (Re.rev_onto ds b) r cs) = Some res ->
  Re.mt (Re.Plus Re.Digit) (Re.MState b (ds ++ r) cs) k = Some res.
Proof.
  intros Hn Hr Hk. destruct ds as [|c ds]; [discriminate|].
  simpl in Hn. apply andb_true_iff in Hn as [Hc Hds].
  simpl. rewrite Hc. apply star_greedy; auto using all_digits_all_in.
Qed.

(** The pattern [-?\d+] takes the whole decimal text of an integer when
    no digit follows it. *)
Lemma mt_int (z : Z) (r : string) k b cs res :
  Py.starts_with_digit r = false ->
  k (Re.MState (Re.rev_onto (Py.str z) b) r cs) = Some res ->
  Re.mt (Re.Opt (Re.Chr "-") +++ Re.Plus Re.Digit)
        (Re.MState b (Py.str z ++ r) cs) k = Some res.
Proof.
  intros Hr Hk. rewrite str_cases in *.
  pose proof (abs_digits_number z) as Hn.
  destruct (z <? 0).
  - cbn [Re.mt Re.Chr Re.rest Re.before Re.caps append Re.in_class].
    rewrite Ascii.eqb_refl.
    change (Re.mt (Re.Cls Re.Digit) ?st (fun st1 => Re.mt (Re.Star Re.Digit) st1 k))
      with (Re.mt (Re.Plus Re.Digit) st k).
    now rewrite (mt_number _ _ _ _ _ _ Hn Hr Hk).
  - pose proof (is_number_head _ Hn) as Hh.
    destruct (abs_digits z) as [|c ds] eqn:E; [discriminate|].
    simpl in Hh.
    cbn [Re.mt Re.Chr Re.rest Re.before Re.caps append Re.in_class].
    rewrite Ascii.eqb_sym, (digit_not_minus c Hh).
    change (String c (ds ++ r)) with (String c ds ++ r).
    change (Re.mt (Re.Cls Re.Digit) ?st (fun st1 => Re.mt (Re.Star Re.Digit) st1 k))
      with (Re.mt (Re.Plus Re.Digit) st k).
    now apply mt_number.
Qed.

Lemma mt_grp_int (i : nat) (z : Z) (r : string) k b cs res :
  Py.starts_with_digit r = false ->
  k (Re.MState (Re.rev_onto (Py.str z) b) r ((i, Py.str z) :: cs)) = Some res ->
  Re.mt (Re.Grp i (Re.Opt (Re.Chr "-") +++ Re.Plus Re.Digit))
        (Re.MState b (Py.str z ++ r) cs) k = Some res.
Proof.
  intros Hr Hk.
  cbn [Re.mt]. 
  change (Re.mt (Re.Opt (Re.Chr "-")) ?st (fun st1 => Re.mt (Re.Plus Re.Digit) st1 ?k))
    with (Re.mt (Re.Opt (Re.Chr "-") +++ Re.Plus Re.Digit) st k).
  apply mt_int; [exact Hr|].
  cbn [Re.rest Re.before Re.caps]. now rewrite taken_app.
Qed.

Arguments Py.str : simpl never.

Lemma boundary_no_digit (r : string) :
  at_boundary r = true -> Py.starts_with_digit r = false.
Proof.
  destruct r as [|c r]; simpl; [reflexivity|].
  intros H. apply Ascii.eqb_eq in H. now subst.
Qed.

Lemma render_nonempty (f : fragment) (r : string) :
  (String.length r <? String.length (render f ++ r))%nat = true.
Proof.
  apply Nat.ltb_lt. rewrite slength_app.
  assert (render f <> "") as H.
  { destruct f; simpl; pose proof (str_nonempty a);
      destruct (Py.str a); simpl; congruence. }
  destruct (render f); [congruence | simpl; lia].
Qed.

Lemma mt_seq (r1 r2 : Re.regex) st k :
  Re.mt (r1 +++ r2) st k = Re.mt r1 st (fun st1 => Re.mt r2 st1 k).
Proof. reflexivity. Qed.

Lemma mt_opt_skip (c : ascii) (r1 : Re.regex) b s cs k :
  head_in (Re.Lit c) s = false ->
  Re.mt (Re.Opt (Re.Chr c +++ r1)) (Re.MState b s cs) k
  = k (Re.MState b s cs).
Proof.
  intros H. destruct s as [|x s]; simpl in *; [reflexivity|]. now rewrite H.
Qed.

Lemma mt_opt_take (c : ascii) (r1 : Re.regex) b s cs k res :
  Re.mt r1 (Re.MState (String c b) s cs) k = Some res ->
  Re.mt (Re.Opt (Re.Chr c +++ r1)) (Re.MState b (String c s) cs) k = Some res.
Proof. intros H. simpl. rewrite Ascii.eqb_refl. now rewrite H. Qed.

Lemma boundary_head (c : ascii) (r : string) :
  at_boundary r = true -> Ascii.eqb c "," = false ->
  head_in (Re.Lit c) r = false.
Proof.
  destruct r as [|x r]; simpl; [reflexivity|].
  intros H Hc. apply Ascii.eqb_eq in H. now subst.
Qed.

(** What the matcher does with [numbers_pattern] at the start of a
    rendered unit that ends the text or is followed by a comma. *)
Lemma mt_fragment (f : fragment) (b r : string) :
  at_boundary r = true ->
  Re.mt (Re.ast numbers_pattern) (Re.MState b (render f ++ r) []) Some
  = Some (Re.MState (Re.rev_onto (render f) b) r (groups_of f)).
Proof.
  intros Hr. pose proof (boundary_no_digit r Hr) as Hd.
  pose proof (boundary_head "-" r Hr eq_refl) as Hm.
  pose proof (boundary_head "x" r Hr eq_refl) as Hx.
  unfold numbers_pattern, Re.ast. rewrite mt_seq.
  destruct f as [a|a n|a b0|a b0 c]; unfold render, groups_of;
    rewrite ?sapp_assoc; cbn [append].
  - apply mt_grp_int; [exact Hd|].
    rewrite mt_seq, mt_opt_skip by exact Hm.
    rewrite mt_opt_skip by exact Hx. reflexivity.
  - apply mt_grp_int; [reflexivity|].
    rewrite mt_seq, mt_opt_skip by reflexivity.
    apply mt_opt_take. apply mt_grp_int; [exact Hd|].
    repeat first [rewrite rev_onto_app | progress cbn [Re.rev_onto]]; reflexivity.
  - apply mt_grp_int; [reflexivity|].
    rewrite mt_seq. apply mt_opt_take. apply mt_grp_int; [exact Hd|].
    rewrite mt_opt_skip by exact Hx.
    repeat first [rewrite rev_onto_app | progress cbn [Re.rev_onto]]; reflexivity.
  - apply mt_grp_int; [reflexivity|].
    rewrite mt_seq. apply mt_opt_take. apply mt_grp_int; [reflexivity|].
    apply mt_opt_take. apply mt_grp_int; [exact Hd|].
    repeat first [rewrite rev_onto_app | progress cbn [Re.rev_onto]]; reflexivity.
Qed.

Lemma match_at_fragment (f : fragment) (b r : string) :
  at_boundary r = true ->
  Re.match_at numbers_pattern b (render f ++ r) = Some (match_of f, r).
Proof.
  intros Hr. unfold Re.match_at. rewrite (mt_fragment f b r Hr).
  cbn [Re.rest Re.caps]. rewrite render_nonempty, taken_app. reflexivity.
Qed.

(** ** Scanning a subject for matches *)

Lemma match_at_shorter p b s m s' :
  Re.match_at p b s = Some (m, s') ->
  (String.length s' < String.length s)%nat.
Proof.
  unfold Re.match_at. destruct (Re.mt _ _ _) as [st|]; [|discriminate].
  destruct (Nat.ltb_spec (String.length (Re.rest st)) (String.length s));
    [|discriminate].
  intros [= <- <-]. assumption.
Qed.

Lemma pieces_fuel_enough p n m :
  forall b s, (String.length s < n)%nat -> (String.length s < m)%nat ->
  Re.pieces_fuel n p b s = Re.pieces_fuel m p b s.
Proof.
  revert m. induction n as [|n IH]; intros m b s Hn Hm; [lia|].
  destruct m as [|m]; [lia|]. simpl.
  destruct (Re.match_at p b s) as [[mm s']|] eqn:E.
  - apply match_at_shorter in E. f_equal. apply IH; lia.
  - destruct s as [|c s]; [reflexivity|]. simpl in *. f_equal. apply IH; lia.
Qed.

Lemma pieces_from_eq p b s :
  pieces_from p b s =
  match Re.match_at p b s with
  | Some (m, s') => Re.PMatch m :: pieces_from p (Re.rev_onto (Re.group0 m) b) s'
  | None =>
      match s with
      | EmptyString => []
      | String c s' => Re.PChar c :: pieces_from p (String c b) s'
      end
  end.
Proof.
  unfold pieces_from at 1. cbn [Re.pieces_fuel].
  destruct (Re.match_at p b s) as [[mm s']|] eqn:E.
  - apply match_at_shorter in E. f_equal. apply pieces_fuel_enough; lia.
  - destruct s as [|c s]; [reflexivity|]. f_equal.
Qed.

Lemma pieces_is_pieces_from p s : Re.pieces p s = pieces_from p "" s.
Proof. reflexivity. Qed.

(** *** The two whitespace substitutions *)

Lemma match_at_ws1 b c s :
  Re.match_at whitespace_not_before_digit b (String c s) =
  if Py.is_space c && negb (Py.starts_with_digit s)
  then Some (Re.Match whitespace_not_before_digit (String c "") [], s)
  else None.
Proof.
  unfold Re.match_at. simpl. destruct (Py.is_space c); simpl; [|reflexivity].
  assert (L : (String.length s <? S (String.length s))%nat = true)
    by (apply Nat.ltb_lt; lia).
  assert (T : Re.taken (String c s) s = String c "")
    by (apply (taken_app (String c "") s)).
  destruct s as [|d s']; simpl.
  - reflexivity.
  - destruct (Py.is_digit d); simpl; [reflexivity|].
    simpl in L. rewrite L. now rewrite T.
Qed.

Lemma match_at_ws1_nil b :
  Re.match_at whitespace_not_before_digit b "" = None.
Proof. reflexivity. Qed.

Lemma match_at_ws2 b c s :
  Re.match_at whitespace_not_after_digit b (String c s) =
  if negb (Py.starts_with_digit b) && Py.is_space c
  then Some (Re.Match whitespace_not_after_digit (String c "") [], s)
  else None.
Proof.
  unfold Re.match_at.
  assert (L : (String.length s <? S (String.length s))%nat = true)
    by (apply Nat.ltb_lt; lia).
  assert (T : Re.taken (String c s) s = String c "")
    by (apply (taken_app (String c "") s)).
  destruct b as [|x b]; simpl.
  - destruct (Py.is_space c); simpl; [|reflexivity].
    simpl in L. rewrite L. now rewrite T.
  - destruct (Py.is_digit x); simpl; [reflexivity|].
    destruct (Py.is_space c); simpl; [|reflexivity].
    simpl in L. rewrite L. now rewrite T.
Qed.

Lemma match_at_ws2_nil b :
  Re.match_at whitespace_not_after_digit b "" = None.
Proof. destruct b as [|x b]; [reflexivity|]. unfold Re.match_at. simpl.
  destruct (Py.is_digit x); reflexivity. Qed.

Lemma digit_not_space (c : ascii) :
  Py.is_digit c = true -> Py.is_space c = false.
Proof.
  unfold Py.is_digit, Py.is_space. intros H.
  apply andb_true_iff in H as [H1 H2].
  apply N.leb_le in H1. apply N.leb_le in H2.
  repeat match goal with
  | |- context [(?a <=? ?b)%N] => destruct (N.leb_spec a b)
  | |- context [(?a =? ?b)%N] => destruct (N.eqb_spec a b)
  end; simpl; try reflexivity; lia.
Qed.

Lemma no_space_app (a b : string) :
  no_space (a ++ b) = no_space a && no_space b.
Proof.
  induction a as [|c a IH]; simpl; [reflexivity|].
  rewrite IH. now rewrite andb_assoc.
Qed.

Lemma all_digits_no_space (s : string) :
  Py.all_digits s = true -> no_space s = true.
Proof.
  induction s as [|c s IH]; simpl; [reflexivity|].
  intros H. apply andb_true_iff in H as [Hc Hs].
  now rewrite (digit_not_space c Hc), IH.
Qed.

Lemma str_no_space (z : Z) : no_space (Py.str z) = true.
Proof.
  rewrite str_cases.
  pose proof (all_digits_no_space _
                (is_number_all_digits _ (abs_digits_number z))) as H.
  destruct (z <? 0); simpl; now rewrite ?H.
Qed.

Lemma render_token (f : fragment) : token (render f).
Proof.
  split.
  - pose proof (render_nonempty f "") as H. apply Nat.ltb_lt in H.
    intros E. rewrite sapp_nil_r, E in H. simpl in H. lia.
  - destruct f; simpl;
      repeat first [rewrite no_space_app | rewrite str_no_space
                   | progress simpl];
      reflexivity.
Qed.

Lemma ws1_keep b c s :
  Py.is_space c && negb (Py.starts_with_digit s) = false ->
  Re.sub_pieces [] (pieces_from whitespace_not_before_digit b (String c s))
  = String c (Re.sub_pieces []
                (pieces_from whitespace_not_before_digit (String c b) s)).
Proof. intros H. now rewrite pieces_from_eq, match_at_ws1, H. Qed.

Lemma ws1_drop b c s :
  Py.is_space c && negb (Py.starts_with_digit s) = true ->
  Re.sub_pieces [] (pieces_from whitespace_not_before_digit b (String c s))
  = Re.sub_pieces []
      (pieces_from whitespace_not_before_digit (String c b) s).
Proof. intros H. now rewrite pieces_from_eq, match_at_ws1, H. Qed.

Lemma ws2_keep b c s :
  negb (Py.starts_with_digit b) && Py.is_space c = false ->
  Re.sub_pieces [] (pieces_from whitespace_not_after_digit b (String c s))
  = String c (Re.sub_pieces []
                (pieces_from whitespace_not_after_digit (String c b) s)).
Proof. intros H. now rewrite pieces_from_eq, match_at_ws2, H. Qed.

Lemma ws2_drop b c s :
  negb (Py.starts_with_digit b) && Py.is_space c = true ->
  Re.sub_pieces [] (pieces_from whitespace_not_after_digit b (String c s))
  = Re.sub_pieces []
      (pieces_from whitespace_not_after_digit (String c b) s).
Proof. intros H. now rewrite pieces_from_eq, match_at_ws2, H. Qed.

Lemma strip1_token (t r b : string) :
  no_space t = true ->
  Re.sub_pieces [] (pieces_from whitespace_not_before_digit b (t ++ r))
  = t ++ Re.sub_pieces []
           (pieces_from whitespace_not_before_digit (Re.rev_onto t b) r).
Proof.
  revert b. induction t as [|c t IH]; intros b H; simpl in *; [reflexivity|].
  apply andb_true_iff in H as [Hc Ht]. apply negb_true_iff in Hc.
  rewrite ws1_keep by now rewrite Hc. f_equal. now apply IH.
Qed.

Lemma strip2_token (t r b : string) :
  no_space t = true ->
  Re.sub_pieces [] (pieces_from whitespace_not_after_digit b (t ++ r))
  = t ++ Re.sub_pieces []
           (pieces_from whitespace_not_after_digit (Re.rev_onto t b) r).
Proof.
  revert b. induction t as [|c t IH]; intros b H; simpl in *; [reflexivity|].
  apply andb_true_iff in H as [Hc Ht]. apply negb_true_iff in Hc.
  rewrite ws2_keep by now rewrite Hc, andb_false_r. f_equal. now apply IH.
Qed.

Lemma starts_with_digit_join (t : string) (ts : list string) :
  t <> "" ->
  Py.starts_with_digit (Py.join ", " (t :: ts)) = Py.starts_with_digit t.
Proof.
  intros H. destruct t as [|c t]; [congruence|].
  destruct ts; reflexivity.
Qed.

Lemma join_cons2 (sep t t' : string) (ts : list string) :
  Py.join sep (t :: t' :: ts) = t ++ sep ++ Py.join sep (t' :: ts).
Proof. reflexivity. Qed.

Lemma strip1_join (ts : list string) : forall b,
  Forall token ts ->
  Re.sub_pieces []
    (pieces_from whitespace_not_before_digit b (Py.join ", " ts))
  = join1 ts.
Proof.
  induction ts as [|t ts IH]; intros b H.
  - reflexivity.
  - inversion H as [|? ? [Hne Hsp] Hts]; subst.
    destruct ts as [|t' ts].
    + change (Py.join ", " [t]) with t.
      rewrite <- (sapp_nil_r t) at 1. rewrite strip1_token by assumption.
      simpl. apply sapp_nil_r.
    + rewrite join_cons2, strip1_token by assumption.
      cbn [join1]. f_equal.
      inversion Hts as [|? ? [Hne' _] _]; subst.
      cbn [append].
      rewrite ws1_keep by reflexivity.
      destruct (Py.starts_with_digit t') eqn:E; cbn [append].
      * rewrite ws1_keep
          by (rewrite starts_with_digit_join, E by assumption; reflexivity).
        do 2 f_equal. now apply IH.
      * rewrite ws1_drop
          by (rewrite starts_with_digit_join, E by assumption; reflexivity).
        f_equal. now apply IH.
Qed.

Lemma strip2_join1 (ts : list string) : forall b,
  Forall token ts ->
  Re.sub_pieces [] (pieces_from whitespace_not_after_digit b (join1 ts))
  = Py.join "," ts.
Proof.
  induction ts as [|t ts IH]; intros b H.
  - cbn [join1]. rewrite pieces_from_eq, match_at_ws2_nil. reflexivity.
  - inversion H as [|? ? [Hne Hsp] Hts]; subst.
    destruct ts as [|t' ts].
    + change (Py.join "," [t]) with t. cbn [join1].
      rewrite <- (sapp_nil_r t) at 1. rewrite strip2_token by assumption.
      rewrite pieces_from_eq, match_at_ws2_nil. simpl. apply sapp_nil_r.
    + rewrite join_cons2. cbn [join1].
      rewrite strip2_token by assumption. f_equal.
      destruct (Py.starts_with_digit t'); cbn [append].
      * rewrite ws2_keep by apply andb_false_r. f_equal.
        rewrite ws2_drop by reflexivity. now apply IH.
      * rewrite ws2_keep by apply andb_false_r. f_equal. now apply IH.
Qed.

(** The two substitutions of [parse_numbers] turn [", "] between
    tokens into [","]. *)
Lemma strip_join (ts : list string) :
  Forall token ts ->
  (s1 <- Re.sub whitespace_not_before_digit "" (Py.join ", " ts) ;;
   Re.sub whitespace_not_after_digit "" s1)
  = Ok (Py.join "," ts).
Proof.
  intros H. unfold Re.sub. cbn [Re.parse_template Re.ngroups
    whitespace_not_before_digit whitespace_not_after_digit bind].
  rewrite !pieces_is_pieces_from.
  fold whitespace_not_before_digit. fold whitespace_not_after_digit.
  rewrite (strip1_join ts "" H), (strip2_join1 ts "" H). reflexivity.
Qed.

Lemma match_at_numbers_comma b s :
  Re.match_at numbers_pattern b (String "," s) = None.
Proof. reflexivity. Qed.

Lemma match_at_numbers_nil b : Re.match_at numbers_pattern b "" = None.
Proof. reflexivity. Qed.

Lemma matches_numbers_join (fs : list fragment) : forall b,
  Re.matches_of
    (pieces_from numbers_pattern b (Py.join "," (map render fs)))
  = map match_of fs.
Proof.
  induction fs as [|f fs IH]; intros b.
  - reflexivity.
  - destruct fs as [|g fs].
    + change (Py.join "," (map render [f])) with (render f).
      rewrite <- (sapp_nil_r (render f)).
      rewrite pieces_from_eq, match_at_fragment by reflexivity.
      cbn [Re.matches_of map]. f_equal.
    + cbn [map]. rewrite join_cons2.
      rewrite pieces_from_eq, match_at_fragment by reflexivity.
      cbn [Re.matches_of]. f_equal.
      cbn [append].
      rewrite pieces_from_eq, match_at_numbers_comma.
      cbn [Re.matches_of]. apply IH.
Qed.

Lemma map_const_range1 (a n : Z) :
  map (fun _ : Z => a) (Py.range1 n) = repeat a (Z.to_nat n).
Proof.
  unfold Py.range1. rewrite map_map.
  generalize 0%nat. induction (Z.to_nat n) as [|k IH]; intros s; simpl;
    [reflexivity | now rewrite IH].
Qed.

Lemma numbers_of_match_fragment (f : fragment) :
  numbers_of_match (match_of f) = expand_fragment f.
Proof.
  destruct f as [a|a n|a b|a b c]; unfold numbers_of_match, match_of,
    Re.group; cbn [Re.groups groups_of Re.lookup Nat.eqb int_or_None];
    rewrite ?int_str; cbn [bind expand_fragment].
  - reflexivity.
  - now rewrite map_const_range1.
  - reflexivity.
  - reflexivity.
Qed.

Lemma run_matches_fragments (fs : list fragment) :
  run_matches (map match_of fs) = run_fragments fs.
Proof.
  induction fs as [|f fs IH]; [reflexivity|].
  cbn [map run_matches run_fragments].
  rewrite numbers_of_match_fragment, IH. reflexivity.
Qed.

(** [parse_numbers] on units joined the way [format_numbers] joins
    them reads the units back one after the other. *)
Lemma parse_numbers_join (fs : list fragment) :
  parse_numbers (Py.join ", " (map render fs)) = run_fragments fs.
Proof.
  unfold parse_numbers. rewrite strip_join.
  - unfold Re.finditer. rewrite pieces_is_pieces_from, matches_numbers_join.
    apply run_matches_fragments.
  - apply Forall_forall. intros t Ht. apply in_map_iff in Ht as [f [<- _]].
    apply render_token.
Qed.

(** ** Every run of the matcher is accepted *)

Lemma star_sound p k res : forall s b cs,
  Re.star p k b s cs = Some res ->
  exists w s', s = w ++ s' /\ all_in p w = true
               /\ k (Re.MState (Re.rev_onto w b) s' cs) = Some res.
Proof.
  induction s as [|c s IH]; intros b cs H; simpl in H.
  - exists "", "". auto.
  - destruct (Re.in_class p c) eqn:Hc.
    + destruct (Re.star p k (String c b) s cs) eqn:E.
      * injection H as ->.
        destruct (IH _ _ E) as (w & s' & -> & Hw & Hk).
        exists (String c w), s'. simpl. rewrite Hc, Hw.
        repeat split; congruence.
      * exists "", (String c s). auto.
    + exists "", (String c s). auto.
Qed.

Lemma mt_sound (r : Re.regex) : forall st k res,
  Re.mt r st k = Some res ->
  exists w s' cs',
    Re.rest st = w ++ s' /\ accepts r (Re.caps st) w cs'
    /\ k (Re.MState (Re.rev_onto w (Re.before st)) s' cs') = Some res.
Proof.
  induction r as [p|r1 IH1 r2 IH2|r1 IH1|p|i r1 IH1|r1 IH1|p];
    intros [b s cs] k res H; cbn [Re.mt Re.rest Re.before Re.caps] in *.
  - destruct s as [|c s]; [discriminate|].
    destruct (Re.in_class p c) eqn:Hc; [|discriminate].
    exists (String c ""), s, cs. repeat split; auto using acc_cls.
  - apply IH1 in H as (w1 & s1 & cs1 & E1 & A1 & H).
    apply IH2 in H as (w2 & s2 & cs2 & E2 & A2 & H).
    cbn [Re.rest Re.before Re.caps] in *. subst.
    exists (w1 ++ w2), s2, cs2. rewrite sapp_assoc, rev_onto_app.
    repeat split; eauto using acc_seq.
  - destruct (Re.mt r1 (Re.MState b s cs) k) eqn:E.
    + injection H as <-.
      apply IH1 in E as (w & s' & cs' & E1 & A1 & Hk).
      exists w, s', cs'. repeat split; auto using acc_opt_some.
    + exists "", s, cs. repeat split; auto using acc_opt_none.
  - apply star_sound in H as (w & s' & -> & Hw & Hk).
    exists w, s', cs. repeat split; auto using acc_star.
  - apply IH1 in H as (w & s' & cs' & E1 & A1 & Hk).
    cbn [Re.rest Re.before Re.caps] in *. subst s.
    rewrite taken_app in Hk.
    exists w, s', ((i, w) :: cs'). repeat split; auto using acc_grp.
  - destruct (Re.mt r1 (Re.MState b s cs) Some); [discriminate|].
    exists "", s, cs. repeat split; auto using acc_not_ahead.
  - exists "", s, cs. split; [reflexivity|]. split; [apply acc_not_behind|].
    destruct b as [|x b]; [exact H|].
    destruct (Re.in_class p x); [discriminate | exact H].
Qed.

Lemma match_at_sound p b s m s' :
  Re.match_at p b s = Some (m, s') ->
  exists w cs, s = w ++ s' /\ accepts (Re.ast p) [] w cs
               /\ m = Re.Match p w cs.
Proof.
  unfold Re.match_at. destruct (Re.mt _ _ _) as [st|] eqn:E; [|discriminate].
  apply mt_sound in E as (w & s1 & cs' & E1 & A & Hk).
  cbn [Re.rest Re.before Re.caps] in *. injection Hk as <-.
  cbn [Re.rest Re.caps]. subst s.
  destruct (_ <? _)%nat; [|discriminate].
  intros [= <- <-]. rewrite taken_app. eauto.
Qed.

Lemma pieces_fuel_sound p m : forall n b s,
  In (Re.PMatch m) (Re.pieces_fuel n p b s) ->
  exists w, accepts (Re.ast p) [] w (Re.groups m)
            /\ Re.group0 m = w /\ Re.re m = p.
Proof.
  induction n as [|n IH]; intros b s H; simpl in H; [contradiction|].
  destruct (Re.match_at p b s) as [[m' s']|] eqn:E.
  - destruct H as [H|H].
    + injection H as ->.
      apply match_at_sound in E as (w & cs & _ & A & ->). eauto.
    + eapply IH; eauto.
  - destruct s as [|c s]; [contradiction|].
    destruct H as [H|H]; [discriminate | eapply IH; eauto].
Qed.

Lemma first_match_in ps pre m :
  Re.first_match ps = Some (pre, m) -> In (Re.PMatch m) ps.
Proof.
  revert pre. induction ps as [|[c|m'] ps IH]; intros pre H; simpl in H.
  - discriminate.
  - destruct (Re.first_match ps) as [[pre' m'']|]; [|discriminate].
    injection H as _ <-. right. eapply IH; eauto.
  - injection H as _ <-. now left.
Qed.

(** A match [re.search] returns is a word the pattern accepts. *)
Lemma search_sound p s m :
  Re.search p s = Some m ->
  exists w, accepts (Re.ast p) [] w (Re.groups m)
            /\ Re.group0 m = w /\ Re.re m = p.
Proof.
  unfold Re.search. destruct (Re.first_match _) as [[pre m']|] eqn:E;
    [|discriminate].
  intros [= <-]. apply first_match_in in E.
  eapply pieces_fuel_sound; eauto.
Qed.

Lemma matches_of_in ps m : In m (Re.matches_of ps) -> In (Re.PMatch m) ps.
Proof.
  induction ps as [|[c|m'] ps IH]; simpl; auto.
  intros [->|H]; auto.
Qed.

Lemma finditer_sound p s m :
  In m (Re.finditer p s) ->
  exists w, accepts (Re.ast p) [] w (Re.groups m)
            /\ Re.group0 m = w /\ Re.re m = p.
Proof.
  unfold Re.finditer. intros H. apply matches_of_in in H.
  eapply pieces_fuel_sound; eauto.
Qed.

(** ** What the patterns of the program accept *)

Ltac inv_accepts :=
  unfold Re.Chr, Re.Plus in *;
  repeat match goal with
  | H : accepts (Re.Seq _ _) _ _ _ |- _ => inversion H; subst; clear H
  | H : accepts (Re.Cls _) _ _ _ |- _ => inversion H; subst; clear H
  | H : accepts (Re.Opt _) _ _ _ |- _ => inversion H; subst; clear H
  | H : accepts (Re.Star _) _ _ _ |- _ => inversion H; subst; clear H
  | H : accepts (Re.Grp _ _) _ _ _ |- _ => inversion H; subst; clear H
  | H : accepts (Re.NotAhead _) _ _ _ |- _ => inversion H; subst; clear H
  | H : accepts (Re.NotBehind _) _ _ _ |- _ => inversion H; subst; clear H
  end.

Lemma all_in_digits (s : string) :
  all_in Re.Digit s = true -> Py.all_digits s = true.
Proof.
  induction s as [|c s IH]; simpl; [reflexivity|].
  intros H. apply andb_true_iff in H as [-> H]. now apply IH.
Qed.

Lemma accepts_number cs w cs' :
  accepts (Re.Plus Re.Digit) cs w cs' -> Py.is_number w = true /\ cs' = cs.
Proof.
  intros H. unfold Re.Plus in H.
  inversion H as [|? ? ? w1 cs1 w2 cs2 H1 H2| | | | | |]; subst.
  inversion H1 as [? c ? Hc| | | | | | |]; subst.
  inversion H2 as [| | | |? ? ? Hw| | |]; subst.
  split; [|reflexivity].
  simpl in *. rewrite Hc. now apply all_in_digits.
Qed.

Lemma accepts_int cs w cs' :
  accepts (Re.Opt (Re.Chr "-") +++ Re.Plus Re.Digit) cs w cs' ->
  int_literal w = true /\ cs' = cs.
Proof.
  intros H. inversion H as [|? ? ? w1 cs1 w2 cs2 H1 H2| | | | | |]; subst.
  apply accepts_number in H2 as [Hn ->].
  inversion H1 as [| |? ? ? ? O1|? ?| | | | ]; subst; clear H1.
  - inversion O1 as [? c ? Hc| | | | | | |]; subst.
    cbn [Re.in_class] in Hc. apply Ascii.eqb_eq in Hc. subst c.
    split; [|reflexivity]. exact Hn.
  - split; [|reflexivity]. simpl.
    pose proof (is_number_head _ Hn) as Hh.
    unfold int_literal. destruct w2 as [|c w2]; [discriminate|].
    simpl in Hh. now rewrite (digit_not_minus c Hh).
Qed.

Lemma int_literal_int (s : string) :
  int_literal s = true ->
  exists z, Py.int s = Ok z.
Proof.
  unfold int_literal, Py.int. destruct s as [|c ds]; [discriminate|].
  destruct (Ascii.eqb c "-"); intros ->; eauto.
Qed.

Lemma digits_value_nonneg (s : string) : forall acc,
  Py.all_digits s = true -> 0 <= acc -> 0 <= Py.digits_value acc s.
Proof.
  induction s as [|c s IH]; intros acc H Hacc;
    cbn [Py.all_digits Py.digits_value] in *; [assumption|].
  apply andb_true_iff in H as [Hc Hs]. apply IH; [assumption|].
  unfold Py.is_digit in Hc. apply andb_true_iff in Hc as [H1 H2].
  apply N.leb_le in H1. unfold Py.digit_value.
  assert (48 <= Z.of_N (Py.code c)) by lia. lia.
Qed.

Lemma int_number (s : string) :
  Py.is_number s = true -> Py.int s = Ok (Py.digits_value 0 s).
Proof.
  intros Hn. pose proof (is_number_head _ Hn) as Hh.
  unfold Py.int. destruct s as [|c s]; [discriminate|].
  simpl in Hh. now rewrite (digit_not_minus c Hh), Hn.
Qed.

Ltac solve_group :=
  first [ left; reflexivity
        | right; eexists; split; [reflexivity | assumption] ].

Ltac solve_groups :=
  cbn [Re.lookup Nat.eqb];
  split; [eexists; split; [reflexivity | assumption]
         | split; solve_group].

(** The groups of a match of [numbers_pattern]: group 1 is an integer
    literal, groups 2 and 3 are absent or integer literals. *)
Lemma accepts_numbers w cs :
  accepts (Re.ast numbers_pattern) [] w cs ->
  (exists A, Re.lookup 1 cs = Some A /\ int_literal A = true)
  /\ (Re.lookup 2 cs = None
      \/ exists B, Re.lookup 2 cs = Some B /\ int_literal B = true)
  /\ (Re.lookup 3 cs = None
      \/ exists C, Re.lookup 3 cs = Some C /\ int_literal C = true).
Proof.
  unfold numbers_pattern, Re.ast. intros H.
  inversion H as [|? ? ? w1 cs1 w2 cs2 H1 H2| | | | | |]; subst. clear H.
  inversion H1 as [| | | | |? ? ? ? ? G1| |]; subst. clear H1.
  apply accepts_int in G1 as [L1 ->].
  inversion H2 as [|? ? ? w3 cs3 w4 cs4 H3 H4| | | | | |]; subst. clear H2.
  inversion H3 as [| |? ? ? ? O2|? ?| | | | ]; subst; clear H3.
  - inversion O2 as [|? ? ? w5 cs5 w6 cs6 H5 H6| | | | | |]; subst. clear O2.
    inversion H5; subst. clear H5.
    inversion H6 as [| | | | |? ? ? ? ? G2| |]; subst. clear H6.
    apply accepts_int in G2 as [L2 ->].
    inversion H4 as [| |? ? ? ? O3|? ?| | | | ]; subst; clear H4.
    + inversion O3 as [|? ? ? w7 cs7 w8 cs8 H7 H8| | | | | |]; subst. clear O3.
      inversion H7; subst. clear H7.
      inversion H8 as [| | | | |? ? ? ? ? G3| |]; subst. clear H8.
      apply accepts_int in G3 as [L3 ->].
      solve_groups.
    + solve_groups.
  - inversion H4 as [| |? ? ? ? O3|? ?| | | | ]; subst; clear H4.
    + inversion O3 as [|? ? ? w7 cs7 w8 cs8 H7 H8| | | | | |]; subst. clear O3.
      inversion H7; subst. clear H7.
      inversion H8 as [| | | | |? ? ? ? ? G3| |]; subst. clear H8.
      apply accepts_int in G3 as [L3 ->].
      solve_groups.
    + solve_groups.
Qed.

(** What the four framecode patterns capture in group 1. *)
Lemma accepts_format_code w cs :
  accepts (Re.ast format_code_pattern) [] w cs ->
  exists ds, cs = [(1%nat, ds)] /\ Py.is_number ds = true.
Proof.
  unfold format_code_pattern, Re.ast. intros H.
  repeat match goal with
  | H : accepts (Re.Seq _ _) _ _ _ |- _ => inversion H; subst; clear H
  | H : accepts (Re.Chr _) _ _ _ |- _ => inversion H; subst; clear H
  | H : accepts (Re.Star _) _ _ _ |- _ => inversion H; subst; clear H
  | H : accepts (Re.Grp _ _) _ _ _ |- _ => inversion H; subst; clear H
  end.
  match goal with H : accepts (Re.Plus _) _ _ _ |- _ =>
    apply accepts_number in H as [Hn ->] end.
  eauto.
Qed.

Lemma accepts_modulo w cs :
  accepts (Re.ast modulo_pattern) [] w cs ->
  exists ds, cs = [(1%nat, ds)] /\ Py.is_number ds = true.
Proof.
  unfold modulo_pattern, Re.ast. intros H.
  repeat match goal with
  | H : accepts (Re.Seq _ _) _ _ _ |- _ => inversion H; subst; clear H
  | H : accepts (Re.Chr _) _ _ _ |- _ => inversion H; subst; clear H
  | H : accepts (Re.Grp _ _) _ _ _ |- _ => inversion H; subst; clear H
  end.
  match goal with H : accepts (Re.Plus _) _ _ _ |- _ =>
    apply accepts_number in H as [Hn ->] end.
  eauto.
Qed.

Lemma accepts_numbersign w cs :
  accepts (Re.ast numbersign_pattern) [] w cs ->
  exists g, cs = [(1%nat, g)] /\ (1 <= String.length g)%nat.
Proof.
  unfold numbersign_pattern, Re.ast. intros H. inv_accepts.
  eexists. split; [reflexivity|]. simpl. lia.
Qed.

Lemma accepts_digits w cs :
  accepts (Re.ast digits_pattern) [] w cs ->
  exists g, cs = [(1%nat, g)] /\ (1 <= String.length g)%nat
            /\ int_literal g = true.
Proof.
  unfold digits_pattern, Re.ast. intros H.
  inversion H as [|? ? ? w1 cs1 w2 cs2 H1 H2| | | | | |]; subst. clear H.
  inversion H2; subst. clear H2.
  inversion H1 as [| | | | |? ? ? ? ? G1| |]; subst. clear H1.
  apply accepts_int in G1 as [L1 ->].
  eexists. split; [reflexivity|]. split; [|exact L1].
  destruct w1; [discriminate | simpl; lia].
Qed.

(** ** The parser *)

(** The match a parser holds was found by the pattern of its type. *)
Lemma init_cases (f : string) (p : _Parser.t) :
  _Parser.init f = Ok p ->
  _Parser._string p = f /\
  exists a, get (_Parser._type p) FRAMECODE_TYPES = Some a
            /\ Re.search (pattern a) (Path.stem (_Parser.path_of f))
               = Some (_Parser._match p).
Proof.
  unfold _Parser.init. destruct (_Parser.find _ _) as [[ty m]|] eqn:E;
    [|discriminate].
  intros [= <-]. split; [reflexivity|]. cbn [_Parser._type _Parser._match].
  unfold FRAMECODE_TYPES in E. cbn [_Parser.find pattern] in E.
  repeat match type of E with
  | match ?x with _ => _ end = _ =>
      let H := fresh "S" in destruct x eqn:H
  end; try discriminate; injection E as <- <-;
    eexists; (split; [reflexivity | eassumption]).
Qed.

Lemma init_re (f : string) (p : _Parser.t) a :
  _Parser.init f = Ok p ->
  get (_Parser._type p) FRAMECODE_TYPES = Some a ->
  Re.re (_Parser._match p) = pattern a.
Proof.
  intros H Ha. apply init_cases in H as [_ (a' & Ha' & S)].
  rewrite Ha in Ha'. injection Ha' as <-.
  apply search_sound in S as (w & _ & _ & R). exact R.
Qed.

Lemma get_cases ty a :
  get ty FRAMECODE_TYPES = Some a ->
  (ty = "format_code" /\ a = Attrs format_code_pattern int_
       (Some (fun n => "{:0" ++ Py.str n ++ "d}")))
  \/ (ty = "modulo" /\ a = Attrs modulo_pattern int_
       (Some (fun n => "%0" ++ Py.str n ++ "d")))
  \/ (ty = "numbersign" /\ a = Attrs numbersign_pattern len_
       (Some (fun n => Py.repeat_char "#" n)))
  \/ (ty = "digits" /\ a = Attrs digits_pattern len_ None).
Proof.
  unfold FRAMECODE_TYPES. cbn [get].
  repeat match goal with
  | |- context [String.eqb ty ?k] => destruct (String.eqb_spec ty k)
  end; intros H; try discriminate; injection H as <-; subst; auto 6.
Qed.

Lemma digits_value_ge (s : string) : forall acc,
  Py.all_digits s = true -> 0 <= acc -> acc <= Py.digits_value acc s.
Proof.
  induction s as [|c s IH]; intros acc H Hacc;
    cbn [Py.all_digits Py.digits_value] in *; [lia|].
  apply andb_true_iff in H as [Hc Hs].
  unfold Py.is_digit in Hc. apply andb_true_iff in Hc as [H1 H2].
  apply N.leb_le in H1.
  assert (0 <= Py.digit_value c) by (unfold Py.digit_value; lia).
  specialize (IH (10 * acc + Py.digit_value c) Hs). lia.
Qed.

Lemma digit_value_zero (c : ascii) : Py.digit_value c = 0 -> c = "0"%char.
Proof.
  unfold Py.digit_value, Py.code. intros H.
  assert (E : N_of_ascii c = 48%N) by lia.
  rewrite <- (ascii_N_embedding c), E. reflexivity.
Qed.

Lemma digits_value_zero (s : string) : forall acc,
  Py.all_digits s = true -> 0 <= acc -> Py.digits_value acc s = 0 ->
  acc = 0 /\ all_in (Re.Lit "0") s = true.
Proof.
  induction s as [|c s IH]; intros acc H Hacc Hv;
    cbn [Py.all_digits Py.digits_value all_in] in *; [auto|].
  apply andb_true_iff in H as [Hc Hs].
  assert (0 <= Py.digit_value c).
  { unfold Py.is_digit in Hc. apply andb_true_iff in Hc as [H1 H2].
    apply N.leb_le in H1. unfold Py.digit_value. lia. }
  destruct (IH (10 * acc + Py.digit_value c) Hs) as [E Hz]; [lia | exact Hv|].
  assert (Py.digit_value c = 0) as Hd by lia.
  apply digit_value_zero in Hd. subst c.
  split; [lia|]. rewrite Hz. reflexivity.
Qed.

(** [width] never raises on a parser, and tells what it returns. *)
Lemma width_spec (f : string) (p : _Parser.t) :
  _Parser.init f = Ok p ->
  exists w, _Parser.width p = Ok w /\
    (1 <= w \/
     (w = 0
      /\ (_Parser._type p = "format_code" \/ _Parser._type p = "modulo")
      /\ exists g, Re.group (_Parser._match p) 1 = Some g
                   /\ all_in (Re.Lit "0") g = true)).
Proof.
  intros H. apply init_cases in H as [_ (a & Ha & S)].
  unfold _Parser.width, getitem. rewrite Ha. cbn [bind].
  apply search_sound in S as (w & A & _ & _).
  assert (Hnum : forall ds, Re.groups (_Parser._match p) = [(1%nat, ds)] ->
            Py.is_number ds = true ->
            (_Parser._type p = "format_code" \/ _Parser._type p = "modulo") ->
            exists w0, int_ (Re.group (_Parser._match p) 1) = Ok w0 /\
              (1 <= w0 \/ (w0 = 0 /\
                 (_Parser._type p = "format_code" \/ _Parser._type p = "modulo")
                 /\ exists g, Re.group (_Parser._match p) 1 = Some g
                              /\ all_in (Re.Lit "0") g = true))).
  { intros ds Hg Hn Hty. unfold Re.group. rewrite Hg. cbn [Re.lookup Nat.eqb int_].
    rewrite (int_number _ Hn). eexists. split; [reflexivity|].
    pose proof (is_number_all_digits _ Hn) as Hd.
    pose proof (digits_value_nonneg ds 0 Hd (Z.le_refl 0)).
    destruct (Z.eq_dec (Py.digits_value 0 ds) 0) as [E|E]; [|left; lia].
    right. split; [exact E|]. split; [exact Hty|].
    exists ds. split; [reflexivity|].
    now apply (digits_value_zero ds 0 Hd (Z.le_refl 0)). }
  assert (Hlen : forall g, Re.groups (_Parser._match p) = [(1%nat, g)] ->
            (1 <= String.length g)%nat ->
            exists w0, len_ (Re.group (_Parser._match p) 1) = Ok w0 /\ 1 <= w0).
  { intros g Hg Hl. unfold Re.group. rewrite Hg. cbn [Re.lookup Nat.eqb len_].
    eexists. split; [reflexivity|]. unfold Py.len. lia. }
  destruct (get_cases _ _ Ha) as [[Hty ->]|[[Hty ->]|[[Hty ->]|[Hty ->]]]];
    cbn [pattern width] in *.
  - apply accepts_format_code in A as (ds & Hg & Hn). eauto.
  - apply accepts_modulo in A as (ds & Hg & Hn). eauto.
  - apply accepts_numbersign in A as (g & Hg & Hl).
    destruct (Hlen g Hg Hl) as (w0 & -> & Hw). eauto.
  - apply accepts_digits in A as (g & Hg & Hl & _).
    destruct (Hlen g Hg Hl) as (w0 & -> & Hw). eauto.
Qed.

(** ** Replacement and translation *)

Lemma parse_template_plain (ng : nat) (s : string) :
  no_backslash s = true -> exists t, Re.parse_template ng s = Ok t.
Proof.
  induction s as [|c s IH]; intros H.
  - exists []. reflexivity.
  - cbn [no_backslash] in H. apply andb_true_iff in H as [Hc Hs].
    destruct (IH Hs) as [t Ht].
    exists (Re.TLit c :: t).
    cbn [Re.parse_template]. rewrite Ascii.eqb_sym in Hc.
    rewrite Ascii.eqb_sym, Hc, Ht. reflexivity.
Qed.

Lemma no_backslash_app (a b : string) :
  no_backslash (a ++ b) = no_backslash a && no_backslash b.
Proof.
  induction a as [|c a IH]; simpl; [reflexivity|].
  rewrite IH. now rewrite andb_assoc.
Qed.

Lemma digit_not_backslash (c : ascii) :
  Py.is_digit c = true -> Ascii.eqb c "\" = false.
Proof.
  intros H. destruct (Ascii.eqb_spec c "\") as [->|]; [discriminate H | reflexivity].
Qed.

Lemma all_digits_no_backslash (s : string) :
  Py.all_digits s = true -> no_backslash s = true.
Proof.
  induction s as [|c s IH]; simpl; [reflexivity|].
  intros H. apply andb_true_iff in H as [Hc Hs].
  now rewrite (digit_not_backslash c Hc), IH.
Qed.

Lemma str_no_backslash (z : Z) : no_backslash (Py.str z) = true.
Proof.
  rewrite str_cases.
  pose proof (all_digits_no_backslash _
                (is_number_all_digits _ (abs_digits_number z))) as H.
  destruct (z <? 0); simpl; now rewrite ?H.
Qed.

Lemma repeat_char_no_backslash (n : Z) :
  no_backslash (Py.repeat_char "#" n) = true.
Proof.
  unfold Py.repeat_char. induction (Z.to_nat n) as [|k IH]; simpl; auto.
Qed.

(** Replacing the framecode by a text without backslash never raises. *)
Lemma replace_plain (self : _Parser.t) (repl : string) :
  no_backslash repl = true ->
  exists r, _Parser.replace_framecode self repl = Ok r.
Proof.
  intros H. unfold _Parser.replace_framecode, Re.sub.
  destruct (parse_template_plain (Re.ngroups (Re.re (_Parser._match self)))
              repl H) as [t ->].
  cbn [bind]. eauto.
Qed.

(** Translating to one of the three types that have a generator
    succeeds as soon as the width is positive. *)
Lemma translate_format_code (self : _Parser.t) (w : Z) :
  _Parser.width self = Ok w -> 1 <= w ->
  exists r, _Parser.translate self "format_code" None = Ok r.
Proof.
  intros Hw H1. unfold _Parser.translate. cbn [String.eqb Ascii.eqb Bool.eqb].
  rewrite Hw. cbn [bind]. unfold generate_framecode.
  destruct (Z.ltb_spec w 1); [lia|].
  cbn [get FRAMECODE_TYPES String.eqb Ascii.eqb Bool.eqb
       FramecodeTypes.generate_framecode bind].
  apply replace_plain.
  rewrite !no_backslash_app, str_no_backslash. reflexivity.
Qed.

Lemma create_regex_any (self : _Parser.t) (w : Z) :
  _Parser.width self = Ok w ->
  exists r, _Parser.create_regex self "any" = Ok r.
Proof.
  intros Hw. unfold _Parser.create_regex. rewrite Hw. cbn [bind].
  cbn [_Parser.width_options _Parser.options_get String.eqb Ascii.eqb
       Bool.eqb].
  destruct (String.eqb _ "."); eauto.
Qed.

(** A [Seqname] built from a string matches that string, whatever the
    regular expression engine answers. *)
Lemma seqname_matches_self (fm fs : string -> string -> bool)
    (f : string) (p : _Parser.t) (w : Z) :
  _Parser.init f = Ok p -> _Parser.width p = Ok w -> 1 <= w ->
  exists sn, Seqname.new f = Ok sn
             /\ forall strict, Seqname.matches fm fs sn f strict = Ok true.
Proof.
  intros Hp Hw H1.
  destruct (translate_format_code p w Hw H1) as [v Hv].
  destruct (create_regex_any p w Hw) as [r Hr].
  assert (Hnew : Seqname.new f = Ok (Seqname.Mk v p)).
  { unfold Seqname.new. rewrite Hp. cbn [bind]. rewrite Hv. reflexivity. }
  exists (Seqname.Mk v p). split; [exact Hnew|].
  intros strict. unfold Seqname.matches, Seqname.regex.
  cbn [Seqname._parser]. rewrite Hr. cbn [bind].
  destruct ((if strict then fm else fs) r f); [reflexivity|].
  rewrite Hnew. cbn [Seqname.value]. now rewrite String.eqb_refl.
Qed.

(** ** [format_numbers] as a list of units *)

Lemma render_build (ss se step len : Z) :
  render (build_fragment ss se step len) = build_string ss se step len.
Proof.
  unfold build_fragment, build_string.
  destruct (step =? 0); [reflexivity|]. destruct (step =? 1); reflexivity.
Qed.

Lemma format_loop_fragments_le (n : nat) :
  forall numbers, (List.length numbers <= n)%nat ->
  forall ss se nn step len output,
  format_loop numbers ss se nn step len output
  = (output ++ map render (loop_fragments numbers ss se nn step len))%list.
Proof.
  induction n as [|n IH]; intros numbers Hn ss se nn step len output;
    destruct numbers as [|x numbers]; cbn [List.length] in Hn; try lia;
    cbn [format_loop loop_fragments].
  - destruct (nn =? ss + step * len).
    + cbn [map]. now rewrite render_build.
    + destruct ((3 <=? len) || (step =? 0)).
      * cbn [map]. rewrite render_build, <- app_assoc. reflexivity.
      * destruct (nn - se =? 0); cbn [map render]; rewrite <- app_assoc;
          reflexivity.
  - destruct (nn =? ss + step * len).
    + cbn [map]. now rewrite render_build.
    + destruct ((3 <=? len) || (step =? 0)).
      * cbn [map]. rewrite render_build, <- app_assoc. reflexivity.
      * destruct (nn - se =? 0); cbn [map render]; rewrite <- app_assoc;
          reflexivity.
  - destruct (nn =? ss + step * len).
    + apply IH. lia.
    + destruct ((3 <=? len) || (step =? 0)).
      * destruct numbers as [|y numbers].
        -- destruct (x - nn =? 0); cbn [map render];
             rewrite render_build, <- app_assoc; reflexivity.
        -- rewrite IH by (cbn [List.length] in Hn; lia). cbn [map].
           rewrite render_build, <- app_assoc. reflexivity.
      * rewrite IH by lia. cbn [map render].
        rewrite <- app_assoc. reflexivity.
Qed.

Lemma format_loop_fragments (numbers : list Z) :
  forall ss se nn step len output,
  format_loop numbers ss se nn step len output
  = (output ++ map render (loop_fragments numbers ss se nn step len))%list.
Proof. apply (format_loop_fragments_le (List.length numbers)). lia. Qed.

Lemma format_numbers_fragments (numbers : list Z) :
  numbers <> [] ->
  format_numbers numbers
  = Ok (Py.join ", " (map render (format_fragments numbers))).
Proof.
  intros H. destruct numbers as [|a [|b [|c numbers]]]; [congruence| | |].
  - reflexivity.
  - cbn [format_numbers format_fragments]. destruct (a =? b); reflexivity.
  - cbn [format_numbers format_fragments].
    now rewrite format_loop_fragments.
Qed.

(** ** Reading the units back *)

Lemma arith_2 (a step : Z) : arith a step 2 = [a; a + step].
Proof.
  unfold arith. change (Z.to_nat 2) with 2%nat. cbn [seq map].
  replace (a + step * Z.of_nat 0) with a by lia.
  replace (a + step * Z.of_nat 1) with (a + step) by lia.
  reflexivity.
Qed.

Lemma arith_snoc (a step len : Z) :
  0 <= len ->
  arith a step (len + 1) = (arith a step len ++ [a + step * len])%list.
Proof.
  intros H. unfold arith.
  replace (Z.to_nat (len + 1)) with (S (Z.to_nat len)) by lia.
  rewrite seq_S, map_app. cbn [map]. do 4 f_equal. lia.
Qed.

Lemma arith_step0 (a len : Z) : arith a 0 len = repeat a (Z.to_nat len).
Proof.
  unfold arith. generalize 0%nat.
  induction (Z.to_nat len) as [|k IH]; intros s; cbn [seq map repeat];
    [reflexivity|].
  rewrite IH. f_equal. lia.
Qed.

(** [range] with the end point made inclusive, as [parse_numbers]
    calls it. *)
Lemma range3_inclusive (a c k : Z) :
  c <> 0 -> 0 <= k ->
  Py.range3 a (a + c * k + (if 0 <=? c then 1 else -1)) c
  = Ok (arith a c (k + 1)).
Proof.
  intros Hc Hk. unfold Py.range3, arith.
  destruct (Z.eqb_spec c 0); [contradiction|]. do 3 f_equal.
  unfold Py.range_len.
  destruct (Z.leb_spec 0 c), (Z.ltb_spec 0 c); try lia.
  - destruct (Z.ltb_spec a (a + c * k + 1)); [|nia].
    replace (a + c * k + 1 - a - 1) with (k * c) by lia.
    now rewrite Z.div_mul.
  - destruct (Z.ltb_spec (a + c * k + -1) a); [|nia].
    replace (a - (a + c * k + -1) - 1) with (k * - c) by lia.
    rewrite Z.div_mul by lia. reflexivity.
Qed.

Lemma expand_build (ss se step len : Z) :
  2 <= len -> se = ss + step * (len - 1) ->
  expand_fragment (build_fragment ss se step len) = Ok (arith ss step len).
Proof.
  intros Hl ->. unfold build_fragment.
  destruct (Z.eqb_spec step 0) as [->|H0].
  - cbn [expand_fragment]. now rewrite arith_step0.
  - destruct (Z.eqb_spec step 1) as [->|H1]; cbn [expand_fragment].
    + change (ss + 1 * (len - 1) + 1)
        with (ss + 1 * (len - 1) + (if 0 <=? 1 then 1 else -1)).
      rewrite range3_inclusive by lia.
      now replace (len - 1 + 1) with len by lia.
    + rewrite range3_inclusive by lia.
      now replace (len - 1 + 1) with len by lia.
Qed.

Lemma run_cons (f : fragment) (fs : list fragment) ys zs :
  expand_fragment f = Ok ys -> run_fragments fs = Trace zs None ->
  run_fragments (f :: fs) = Trace (ys ++ zs)%list None.
Proof. intros Hf Hfs. cbn [run_fragments]. now rewrite Hf, Hfs. Qed.

Lemma run_single (f : fragment) ys :
  expand_fragment f = Ok ys -> run_fragments [f] = Trace ys None.
Proof.
  intros Hf. rewrite (run_cons f [] ys []); auto. now rewrite List.app_nil_r.
Qed.

(** ** The round trip on the units *)

Lemma loop_ext x r ss se nn step len :
  nn = ss + step * len ->
  loop_fragments (x :: r) ss se nn step len
  = loop_fragments r ss nn x step (len + 1).
Proof.
  intros E. cbn [loop_fragments].
  destruct (Z.eqb_spec nn (ss + step * len)); [reflexivity | contradiction].
Qed.

Lemma loop_break2 e n r ss se nn step len :
  nn <> ss + step * len -> (3 <=? len) || (step =? 0) = true ->
  loop_fragments (e :: n :: r) ss se nn step len
  = build_fragment ss se step len :: loop_fragments r nn e n (e - nn) 2.
Proof.
  intros E C. cbn [loop_fragments].
  destruct (Z.eqb_spec nn (ss + step * len)); [contradiction|].
  now rewrite C.
Qed.

Lemma loop_break1 e ss se nn step len :
  nn <> ss + step * len -> (3 <=? len) || (step =? 0) = true ->
  loop_fragments [e] ss se nn step len
  = build_fragment ss se step len ::
    (if e - nn =? 0 then [FRepeat nn len] else [FSingle nn; FSingle e]).
Proof.
  intros E C. cbn [loop_fragments].
  destruct (Z.eqb_spec nn (ss + step * len)); [contradiction|].
  now rewrite C.
Qed.

Lemma loop_slide n r ss se nn step len :
  nn <> ss + step * len -> (3 <=? len) || (step =? 0) = false ->
  loop_fragments (n :: r) ss se nn step len
  = FSingle ss :: loop_fragments r se nn n (nn - se) 2.
Proof.
  intros E C. cbn [loop_fragments].
  destruct (Z.eqb_spec nn (ss + step * len)); [contradiction|].
  now rewrite C.
Qed.

(** A run of equal numbers is written as one repeat. *)
Lemma loop_repeat (v : Z) (m : nat) : forall se k,
  loop_fragments (repeat v m) v se v 0 k = [FRepeat v (k + 1 + Z.of_nat m)].
Proof.
  induction m as [|m IH]; intros se k; cbn [repeat].
  - cbn [loop_fragments].
    destruct (Z.eqb_spec v (v + 0 * k)); [|lia].
    unfold build_fragment. cbn [Z.eqb]. do 2 f_equal. lia.
  - rewrite loop_ext by lia. rewrite IH. do 2 f_equal. lia.
Qed.

Lemma roundtrip_nil ss se nn step len :
  2 <= len -> se = ss + step * (len - 1) ->
  run_fragments (loop_fragments [] ss se nn step len)
  = Trace (arith ss step len ++ [nn])%list None.
Proof.
  intros Hl Hse. cbn [loop_fragments].
  destruct (Z.eqb_spec nn (ss + step * len)) as [E|E].
  - rewrite (run_single _ (arith ss step (len + 1))).
    + rewrite arith_snoc by lia. now rewrite E.
    + apply expand_build; [lia|]. rewrite E. f_equal. f_equal. lia.
  - destruct ((3 <=? len) || (step =? 0)) eqn:C.
    + rewrite (run_cons _ _ (arith ss step len) [nn]).
      * reflexivity.
      * now apply expand_build.
      * now apply run_single.
    + apply orb_false_iff in C as [C1 C2].
      apply Z.leb_gt in C1. assert (len = 2) as -> by lia.
      rewrite arith_2. replace (ss + step) with se by lia.
      destruct (Z.eqb_spec (nn - se) 0) as [Z0|Z0].
      * assert (nn = se) as -> by lia. reflexivity.
      * reflexivity.
Qed.

Lemma roundtrip_loop_le (n : nat) :
  forall rest, (List.length rest <= n)%nat ->
  forall ss se nn step len,
  2 <= len -> se = ss + step * (len - 1) ->
  exists rest',
    run_fragments (loop_fragments rest ss se nn step len)
    = Trace (arith ss step len ++ nn :: rest')%list None
    /\ loop_fragments rest' ss se nn step len
       = loop_fragments rest ss se nn step len.
Proof.
  induction n as [|n IH]; intros rest Hn ss se nn step len Hl Hse.
  { destruct rest; [|cbn [List.length] in Hn; lia].
    exists []. split; [now apply roundtrip_nil | reflexivity]. }
  destruct rest as [|x rest].
  { exists []. split; [now apply roundtrip_nil | reflexivity]. }
  cbn [List.length] in Hn.
  destruct (Z.eq_dec nn (ss + step * len)) as [E|E].
  - (* the run goes on *)
    destruct (IH rest ltac:(lia) ss nn x step (len + 1)) as (r' & Hrun & Hloop);
      [lia | rewrite E; f_equal; f_equal; lia |].
    exists (x :: r'). rewrite !loop_ext by assumption. split; [|exact Hloop].
    rewrite Hrun. f_equal. rewrite arith_snoc by lia.
    rewrite <- app_assoc, <- E. reflexivity.
  - destruct ((3 <=? len) || (step =? 0)) eqn:C.
    + (* the run is written, two numbers start the next one *)
      pose proof (expand_build ss se step len Hl Hse) as Hb.
      destruct rest as [|y rest].
      * rewrite loop_break1 by assumption.
        destruct (Z.eqb_spec (x - nn) 0) as [Z0|Z0].
        -- assert (x = nn) as -> by lia.
           exists (repeat nn (Z.to_nat len - 1)). split.
           ++ rewrite (run_cons _ _ (arith ss step len)
                         (repeat nn (Z.to_nat len)) Hb)
                by (apply run_single; reflexivity).
              f_equal. f_equal.
              replace (Z.to_nat len) with (S (Z.to_nat len - 1)) at 1 by lia.
              reflexivity.
           ++ destruct (Z.to_nat len - 1)%nat as [|[|m]] eqn:Em; [lia| |];
                cbn [repeat].
              ** rewrite loop_break1 by assumption.
                 replace (nn - nn) with 0 by lia. reflexivity.
              ** rewrite loop_break2 by assumption.
                 replace (nn - nn) with 0 by lia.
                 rewrite loop_repeat. do 3 f_equal. lia.
        -- exists [x]. split.
           ++ rewrite (run_cons _ _ (arith ss step len) [nn; x] Hb)
                by reflexivity.
              reflexivity.
           ++ rewrite loop_break1 by assumption.
              destruct (Z.eqb_spec (x - nn) 0); [contradiction|].
              reflexivity.
      * cbn [List.length] in Hn.
        destruct (IH rest ltac:(lia) nn x y (x - nn) 2) as (r' & Hrun & Hloop);
          [lia | lia |].
        exists (x :: y :: r'). rewrite !loop_break2 by assumption.
        split; [|now rewrite Hloop].
        rewrite (run_cons _ _ _ _ Hb Hrun). f_equal. f_equal.
        rewrite arith_2. replace (nn + (x - nn)) with x by lia. reflexivity.
    + (* one number is written, the window slides *)
      pose proof C as C'. apply orb_false_iff in C' as [C1 C2].
      apply Z.leb_gt in C1. assert (len = 2) as -> by lia.
      destruct (IH rest ltac:(lia) se nn x (nn - se) 2) as (r' & Hrun & Hloop);
        [lia | lia |].
      exists (x :: r'). rewrite !loop_slide by assumption.
      split; [|now rewrite Hloop].
      rewrite (run_cons (FSingle ss) _ [ss] _ eq_refl Hrun).
      f_equal. rewrite !arith_2.
      replace (se + (nn - se)) with nn by lia.
      replace (ss + step) with se by lia. reflexivity.
Qed.

Lemma roundtrip_loop rest ss se nn step len :
  2 <= len -> se = ss + step * (len - 1) ->
  exists rest',
    run_fragments (loop_fragments rest ss se nn step len)
    = Trace (arith ss step len ++ nn :: rest')%list None
    /\ loop_fragments rest' ss se nn step len
       = loop_fragments rest ss se nn step len.
Proof. apply (roundtrip_loop_le (List.length rest)). lia. Qed.

(** Reading back the units of a list gives a list with the same units. *)
Lemma roundtrip_fragments (l : list Z) :
  l <> [] ->
  exists l', l' <> []
    /\ run_fragments (format_fragments l) = Trace l' None
    /\ format_fragments l' = format_fragments l.
Proof.
  intros H. destruct l as [|a [|b [|c rest]]]; [congruence| | |].
  - exists [a]. repeat split; congruence.
  - cbn [format_fragments]. destruct (Z.eqb_spec a b) as [->|N].
    + exists [b; b]. repeat split; [congruence|].
      cbn [format_fragments]. now rewrite Z.eqb_refl.
    + exists [a; b]. repeat split; [congruence|].
      cbn [format_fragments]. destruct (Z.eqb_spec a b); [contradiction|].
      reflexivity.
  - cbn [format_fragments].
    destruct (roundtrip_loop rest a b c (b - a) 2) as (r' & Hrun & Hloop);
      [lia | lia |].
    exists (a :: b :: c :: r'). split; [congruence|]. split.
    + rewrite Hrun, arith_2. replace (a + (b - a)) with b by lia. reflexivity.
    + exact Hloop.
Qed.

(** Formatting, parsing and formatting again gives the same text. *)
Lemma format_parse_format (l : list Z) (s : string) :
  format_numbers l = Ok s ->
  exists l', parse_numbers s = Trace l' None /\ format_numbers l' = Ok s.
Proof.
  intros H. assert (Hl : l <> []) by (intros ->; discriminate).
  rewrite (format_numbers_fragments l Hl) in H. injection H as <-.
  destruct (roundtrip_fragments l Hl) as (l' & Hl' & Hrun & Hfmt).
  exists l'. split.
  - now rewrite parse_numbers_join.
  - rewrite (format_numbers_fragments l' Hl'). now rewrite Hfmt.
Qed.

(** ** One unit as the whole text *)


Lemma parse_numbers_matches (s : string) :
  parse_numbers s = run_matches (number_matches s).
Proof. reflexivity. Qed.

Lemma run_matches_app (ms1 ms2 : list Re.mmatch) :
  (forall m, In m ms1 -> exists ys, numbers_of_match m = Ok ys) ->
  run_matches (ms1 ++ ms2)
  = Trace (yielded (run_matches ms1) ++ yielded (run_matches ms2))%list
          (raised (run_matches ms2)).
Proof.
  induction ms1 as [|m ms1 IH]; intros H.
  - cbn [app run_matches yielded]. now destruct (run_matches ms2).
  - cbn [app run_matches].
    destruct (H m (or_introl eq_refl)) as [ys ->].
    rewrite IH by (intros m' Hm'; apply H; now right).
    cbn [yielded raised]. now rewrite <- app_assoc.
Qed.

(** A match of [numbers_pattern] with groups 2 and 3 present and a step
    text that reads as zero makes [range] raise. *)
Lemma zero_step_raises (s : string) (m : Re.mmatch) (B C : string) :
  In m (number_matches s) ->
  Re.group m 2 = Some B -> Re.group m 3 = Some C -> Py.int C = Ok 0 ->
  numbers_of_match m = Raise (ValueError "range() arg 3 must not be zero").
Proof.
  intros Hin HB HC Hint. unfold number_matches in Hin.
  apply finditer_sound in Hin as (w & A & _ & _).
  apply accepts_numbers in A as ((A1 & L1 & I1) & [N2|(B' & L2 & I2)] & _);
    unfold Re.group in *; [congruence|].
  rewrite HB in L2. injection L2 as <-.
  destruct (int_literal_int _ I1) as [a Ha].
  destruct (int_literal_int _ I2) as [b Hb].
  unfold numbers_of_match, Re.group. rewrite L1, HB, HC.
  cbn [int_or_None]. rewrite Ha, Hb, Hint. reflexivity.
Qed.







(** ** Stems in which the pattern is found once *)

Lemma parse_template_plain_eq (ng : nat) (s : string) :
  no_backslash s = true -> Re.parse_template ng s = Ok (plain_template s).
Proof.
  induction s as [|c s IH]; intros H; [reflexivity|].
  cbn [no_backslash] in H. apply andb_true_iff in H as [Hc Hs].
  cbn [Re.parse_template plain_template].
  rewrite Ascii.eqb_sym in Hc. rewrite Ascii.eqb_sym, Hc, (IH Hs).
  reflexivity.
Qed.

Lemma expand_plain (s : string) (m : Re.mmatch) :
  Re.expand (plain_template s) m = s.
Proof. induction s as [|c s IH]; simpl; [reflexivity | now rewrite IH]. Qed.

Lemma no_match_pieces t (ps : list Re.piece) :
  Re.matches_of ps = [] ->
  Re.split_pieces ps = (pieces_text ps, [])
  /\ Re.sub_pieces t ps = pieces_text ps.
Proof.
  induction ps as [|[c|m] ps IH]; intros H; cbn in *.
  - auto.
  - destruct (IH H) as [-> ->]. auto.
  - discriminate.
Qed.

Lemma single_match_pieces t (ps : list Re.piece) (m : Re.mmatch) :
  Re.matches_of ps = [m] ->
  exists pre g,
    Re.first_match ps = Some (pre, m)
    /\ Re.sub_pieces t ps = pre ++ Re.expand t m ++ after_first_match ps
    /\ Re.split_pieces ps = (pre, [(g, after_first_match ps)]).
Proof.
  induction ps as [|[c|m'] ps IH]; intros H; cbn [Re.matches_of] in H.
  - discriminate.
  - destruct (IH H) as (pre & g & H1 & H2 & H3).
    exists (String c pre), g.
    cbn [Re.first_match Re.sub_pieces Re.split_pieces after_first_match].
    rewrite H1, H2, H3. auto.
  - injection H as -> Hps.
    destruct (no_match_pieces t ps Hps) as [Hs Hsub].
    exists "". eexists.
    cbn [Re.first_match Re.sub_pieces Re.split_pieces
         after_first_match append].
    rewrite Hs, Hsub. auto.
Qed.

(** When the pattern of the detected type is found once in the stem
    and the replacement has no backslash, [replace_framecode] does what
    the claim says. *)
Lemma replace_single_match (f repl : string) (p : _Parser.t) :
  _Parser.init f = Ok p ->
  Re.finditer (Re.re (_Parser._match p)) (Path.stem (_Parser.path p))
  = [_Parser._match p] ->
  no_backslash repl = true ->
  exists r, replace_framecode f repl = Ok r
            /\ claimed_replace f repl = Some r.
Proof.
  intros Hp Hone Hrepl.
  unfold replace_framecode, claimed_replace, except_ValueError.
  rewrite Hp. cbn [bind].
  unfold _Parser.replace_framecode, Re.sub.
  rewrite (parse_template_plain_eq _ _ Hrepl). cbn [bind].
  destruct (single_match_pieces (plain_template repl) _ _ Hone)
    as (pre & g & H1 & H2 & _).
  rewrite H1, H2, expand_plain, !sapp_assoc. eauto.
Qed.

(** Under the same condition [create_regex] with ["exact"] returns the
    text the claim describes. *)
Lemma exact_regex_single_match (f : string) (p : _Parser.t) :
  _Parser.init f = Ok p ->
  Re.finditer (Re.re (_Parser._match p)) (Path.stem (_Parser.path p))
  = [_Parser._match p] ->
  exists r, create_regex f "exact" = Ok r
            /\ claimed_exact_regex f = Some r.
Proof.
  intros Hp Hone.
  destruct (width_spec f p Hp) as (w & Hw & _).
  unfold create_regex, claimed_exact_regex. rewrite Hp, Hw.
  unfold _Parser.create_regex. rewrite Hw. cbn [bind].
  cbn [_Parser.width_options _Parser.options_get String.eqb Ascii.eqb
       Bool.eqb].
  destruct (single_match_pieces [] _ _ Hone) as (pre & g & H1 & _ & H3).
  unfold Re.split. rewrite H1, H3.
  unfold Re.split_first, Re.split_last. cbn [fst snd rev app].
  destruct (String.eqb _ "."); rewrite ?sapp_assoc; eauto.
Qed.

(** ** The scan covers the subject *)

(** The pieces put together give the subject back: the fuel of
    [pieces] is enough to reach the end of the subject. *)
Lemma pieces_text_from p : forall n b s,
  (String.length s <= n)%nat -> pieces_text (pieces_from p b s) = s.
Proof.
  induction n as [|n IH]; intros b s Hn; rewrite pieces_from_eq.
  - destruct s; [|simpl in Hn; lia].
    destruct (Re.match_at p b "") as [[m s']|] eqn:E; [|reflexivity].
    apply match_at_shorter in E. simpl in E. lia.
  - destruct (Re.match_at p b s) as [[m s']|] eqn:E.
    + pose proof (match_at_shorter _ _ _ _ _ E) as Hlt.
      apply match_at_sound in E as (w & cs & -> & _ & ->).
      cbn [pieces_text Re.group0]. rewrite IH by lia. reflexivity.
    + destruct s as [|c s]; [reflexivity|].
      cbn [pieces_text]. rewrite IH by (simpl in Hn; lia). reflexivity.
Qed.

Lemma pieces_text_pieces p s : pieces_text (Re.pieces p s) = s.
Proof.
  rewrite pieces_is_pieces_from.
  now apply (pieces_text_from p (String.length s)).
Qed.

(** The detected framecode is where [re.search] found it: the stem is
    the text before it, the framecode and the text after it. *)
Lemma first_match_split (ps : list Re.piece) pre m :
  Re.first_match ps = Some (pre, m) ->
  pieces_text ps = pre ++ Re.group0 m ++ after_first_match ps.
Proof.
  revert pre. induction ps as [|[c|m'] ps IH]; intros pre H;
    cbn [Re.first_match] in H.
  - discriminate.
  - destruct (Re.first_match ps) as [[pre' m'']|] eqn:E; [|discriminate].
    injection H as <- <-. cbn [pieces_text after_first_match append].
    now rewrite (IH pre' eq_refl).
  - injection H as <- <-. reflexivity.
Qed.

(** Every pattern of the program consumes at least one character of
    the subject when it matches. *)
Lemma accepts_cls_nonempty p cs w cs' r2 :
  accepts (Re.Cls p +++ r2) cs w cs' -> w <> "".
Proof.
  intros H. inversion H as [|? ? ? w1 cs1 w2 cs2 H1 H2| | | | | |]; subst.
  inversion H1; subst. discriminate.
Qed.

Lemma accepts_int_nonempty i cs w cs' r2 :
  accepts (Re.Grp i (Re.Opt (Re.Chr "-") +++ Re.Plus Re.Digit) +++ r2)
          cs w cs' -> w <> "".
Proof.
  intros H. inversion H as [|? ? ? w1 cs1 w2 cs2 H1 H2| | | | | |]; subst.
  inversion H1 as [| | | | |? ? ? ? ? G1| |]; subst.
  apply accepts_int in G1 as [L _].
  destruct w1; [discriminate L | discriminate].
Qed.

Lemma patterns_consume (p : Re.pattern) cs w cs' :
  In p [format_code_pattern; modulo_pattern; numbersign_pattern;
        digits_pattern; numbers_pattern;
        whitespace_not_before_digit; whitespace_not_after_digit] ->
  accepts (Re.ast p) cs w cs' -> w <> "".
Proof.
  intros Hp H. cbn [In] in Hp.
  repeat (destruct Hp as [<-|Hp]); try contradiction;
    unfold format_code_pattern, modulo_pattern, numbersign_pattern,
      digits_pattern, numbers_pattern, whitespace_not_before_digit,
      whitespace_not_after_digit, Re.ast, Re.Chr in H.
  - eapply accepts_cls_nonempty; eauto.
  - eapply accepts_cls_nonempty; eauto.
  - inversion H as [|? ? ? w1 cs1 w2 cs2 H1 H2| | | | | |]; subst.
    inversion H1 as [| | | | |? ? ? ? ? G1| |]; subst.
    apply accepts_cls_nonempty in G1.
    destruct w1; [congruence | discriminate].
  - eapply accepts_int_nonempty; eauto.
  - eapply accepts_int_nonempty; eauto.
  - eapply accepts_cls_nonempty; eauto.
  - inversion H as [|? ? ? w1 cs1 w2 cs2 H1 H2| | | | | |]; subst.
    inversion H1; subst. inversion H2; subst. discriminate.
Qed.

(** ** The examples of the documentation *)

Example format_numbers_examples :
  format_numbers [5] = Ok "5"
  /\ format_numbers [5; 5] = Ok "5x2"
  /\ format_numbers [1; 2; 3] = Ok "1-3"
  /\ format_numbers [1; 3; 5] = Ok "1-5x2"
  /\ format_numbers [1; 2; 3; 7; 9] = Ok "1-3, 7, 9"
  /\ format_numbers [] = Raise (ValueError "Input is empty.").
Proof. repeat split; reflexivity. Qed.

Example parse_numbers_example :
  parse_numbers "1-5, 10-16x2, 20, 21"
  = Trace [1; 2; 3; 4; 5; 10; 12; 14; 16; 20; 21] None.
Proof. vm_compute. reflexivity. Qed.

Example generate_framecode_examples :
  generate_framecode "format_code" 6 = Ok "{:06d}"
  /\ generate_framecode "modulo" 6 = Ok "%06d"
  /\ generate_framecode "numbersign" 6 = Ok "######"
  /\ generate_framecode "numbersign" 0
     = Raise (ValueError "'width' must be positive.")
  /\ generate_framecode "n/a" 10
     = Raise (ValueError "'n/a' is not a supported framecode type.").
Proof. repeat split; reflexivity. Qed.

Example framecode_examples :
  get_framecode "frame{:04d}.png" = Ok (Some "{:04d}")
  /\ get_frame_number "frame{:04d}.png" = Ok None
  /\ get_frame_number "shots/frame0042.png" = Ok (Some 42)
  /\ has_framecode "notes.txt" = Ok false
  /\ translate_framecode "shots/frame0042.png" "numbersign"
     = Ok "shots/frame####.png"
  /\ translate_framecode "notes.txt" "modulo" = Ok "notes.txt"
  /\ create_regex "shots/frame0042.png" "any" = Ok "shots/frame-?\d+\.png".
Proof. repeat split; vm_compute; reflexivity. Qed.

(** * The claims *)

(** C1. For every string [s] that [format_numbers] returns for a list of
    integers (a non-empty one, the empty list raises), parsing [s] with
    [parse_numbers] runs to its end without an exception, and
    formatting the integers it yields gives [s] again. *)
Theorem C1_format_parse_format_roundtrip (l : list Z) (s : string) :
  format_numbers l = Ok s ->
  exists l', parse_numbers s = Trace l' None /\ format_numbers l' = Ok s.
Proof. apply format_parse_format. Qed.

Lemma C1_format_parse_format_roundtrip_witness :
  format_numbers [1; 2; 3; 5; 5] = Ok "1-3, 5x3"
  /\ exists l', parse_numbers "1-3, 5x3" = Trace l' None
                /\ format_numbers l' = Ok "1-3, 5x3".
Proof.
  split; [reflexivity|].
  apply (C1_format_parse_format_roundtrip [1; 2; 3; 5; 5] "1-3, 5x3").
  reflexivity.
Defined.






(** C7. [translate_framecode("file####.exr", "digits")] raises the
    [ValueError] of [generate_framecode] for a type without generator;
    no value is returned. *)
Theorem C7_translate_to_digits_raises :
  translate_framecode "file####.exr" "digits"
  = Raise (ValueError "Cannot generate framecode of type 'digits'").
Proof. reflexivity. Qed.

(** C9. In any input, let [m] be a match [parse_numbers] iterates over
    whose groups 2 and 3 are both present and whose step text reads as
    0 (a fragment ["A-Bx0"]).  If no earlier match raises, so that [m]
    is reached, consuming the generator yields the values of the
    earlier matches and then raises the [ValueError] of [range]: the
    fragment is not skipped and nothing is yielded for it. *)
Theorem C9_zero_step_range_raises (s : string) (ms1 ms2 : list Re.mmatch)
    (m : Re.mmatch) (B C : string) :
  number_matches s = (ms1 ++ m :: ms2)%list ->
  Re.group m 2 = Some B -> Re.group m 3 = Some C -> Py.int C = Ok 0 ->
  (forall m', In m' ms1 -> exists ys, numbers_of_match m' = Ok ys) ->
  parse_numbers s
  = Trace (yielded (run_matches ms1))
          (Some (ValueError "range() arg 3 must not be zero")).
Proof.
  intros Hs HB HC Hint Hpre.
  assert (Hin : In m (number_matches s))
    by (rewrite Hs; apply in_or_app; right; now left).
  pose proof (zero_step_raises s m B C Hin HB HC Hint) as Hm.
  rewrite parse_numbers_matches, Hs, (run_matches_app _ _ Hpre).
  cbn [run_matches]. rewrite Hm. cbn [yielded raised].
  now rewrite List.app_nil_r.
Qed.

Lemma C9_zero_step_range_raises_witness :
  parse_numbers "1, 2-4x0, 7"
  = Trace [1] (Some (ValueError "range() arg 3 must not be zero")).
Proof.
  refine (C9_zero_step_range_raises "1, 2-4x0, 7"
            [Re.Match numbers_pattern "1" [(1%nat, "1")]]
            [Re.Match numbers_pattern "7" [(1%nat, "7")]]
            (Re.Match numbers_pattern "2-4x0"
               [(3%nat, "0"); (2%nat, "4"); (1%nat, "2")])
            "4" "0" _ _ _ _ _).
  - vm_compute. reflexivity.
  - reflexivity.
  - reflexivity.
  - reflexivity.
  - intros m' [<-|[]]. exists [1]. reflexivity.
Defined.






(** C5 as stated fails: a framecode is detected in ["frame{:00d}.png"],
    but [Seqname("frame{:00d}.png")] raises: the width is 0 and
    [generate_framecode] refuses it. *)
Lemma C5_seqname_counterexample : ~ seqname_claim "frame{:00d}.png".
Proof.
  intros H.
  destruct (_Parser.init "frame{:00d}.png") as [p|e] eqn:Hp;
    [|vm_compute in Hp; discriminate Hp].
  destruct (H (fun _ _ => true) (fun _ _ => true) p Hp) as (sn & Hsn & _).
  vm_compute in Hsn. discriminate Hsn.
Qed.

(** C5, amended. For every string [f] in which a framecode of width at
    least 1 is detected, [Seqname(f)] is built without an exception and
    [Seqname(f).matches(f)] returns true, strict or not, whatever the
    regular expression engine answers. *)
Theorem C5_seqname_matches_itself
    (re_fullmatch re_search : string -> string -> bool)
    (f : string) (p : _Parser.t) (w : Z) :
  _Parser.init f = Ok p -> _Parser.width p = Ok w -> 1 <= w ->
  exists sn, Seqname.new f = Ok sn
    /\ forall strict,
         Seqname.matches re_fullmatch re_search sn f strict = Ok true.
Proof. apply seqname_matches_self. Qed.

Lemma C5_seqname_matches_itself_witness :
  exists p, _Parser.init "shots/frame0042.png" = Ok p
    /\ _Parser.width p = Ok 4 /\ 1 <= 4
    /\ exists sn, Seqname.new "shots/frame0042.png" = Ok sn
         /\ forall strict,
              Seqname.matches (fun _ _ => false) (fun _ _ => false)
                              sn "shots/frame0042.png" strict = Ok true.
Proof.
  eexists. split; [reflexivity|]. split; [reflexivity|].
  assert (H1 : 1 <= 4) by lia. split; [exact H1|].
  exact (C5_seqname_matches_itself (fun _ _ => false) (fun _ _ => false)
           "shots/frame0042.png" _ 4 eq_refl eq_refl H1).
Defined.

(** C4 fails on the code: in ["shot%02d_frame%04d.exr"] the framecode
    detected is the first match [%02d], and replacing it by ["####"]
    replaces the second match [%04d] as well; the claim leaves the
    second match unchanged. *)
Theorem C4_replace_changes_every_match :
  get_framecode "shot%02d_frame%04d.exr" = Ok (Some "%02d")
  /\ replace_framecode "shot%02d_frame%04d.exr" "####"
     = Ok "shot####_frame####.exr"
  /\ claimed_replace "shot%02d_frame%04d.exr" "####"
     = Some "shot####_frame%04d.exr".
Proof. repeat split; vm_compute; reflexivity. Qed.

(** C8 fails on the code: for ["shot%02d_frame%04d.exr"] the text
    returned keeps what is before the first match and what is after the
    last match of the pattern, and loses ["_frame%04d"], which follows
    the detected framecode; the claim keeps the stem suffix. *)
Theorem C8_exact_regex_drops_text_between_matches :
  create_regex "shot%02d_frame%04d.exr" "exact"
  = Ok "shot(?:\d{2}|-\d{1})\.exr"
  /\ claimed_exact_regex "shot%02d_frame%04d.exr"
     = Some "shot(?:\d{2}|-\d{1})_frame%04d\.exr".
Proof. split; vm_compute; reflexivity. Qed.

(** * Further properties of the code *)

(** ** [parse_numbers] *)




Lemma has_digit_app (a b : string) :
  has_digit (a ++ b) = has_digit a || has_digit b.
Proof.
  induction a as [|c a IH]; simpl; [reflexivity|].
  now rewrite IH, orb_assoc.
Qed.

Lemma sub_pieces_nil_digit (ps : list Re.piece) :
  has_digit (pieces_text ps) = false ->
  has_digit (Re.sub_pieces [] ps) = false.
Proof.
  induction ps as [|[c|m] ps IH]; cbn [pieces_text Re.sub_pieces Re.expand
                                       has_digit append]; intros H.
  - reflexivity.
  - apply orb_false_iff in H as [-> H]. now apply IH.
  - rewrite has_digit_app in H. apply orb_false_iff in H as [_ H].
    now apply IH.
Qed.

Lemma pieces_match_digit (ps : list Re.piece) (m : Re.mmatch) :
  has_digit (pieces_text ps) = false -> In (Re.PMatch m) ps ->
  has_digit (Re.group0 m) = false.
Proof.
  induction ps as [|[c|m'] ps IH]; cbn [pieces_text has_digit In]; intros H Hin.
  - contradiction.
  - apply orb_false_iff in H as [_ H]. destruct Hin as [Hin|Hin];
      [discriminate | now apply IH].
  - rewrite has_digit_app in H. apply orb_false_iff in H as [H1 H2].
    destruct Hin as [Hin|Hin]; [now injection Hin as <- | now apply IH].
Qed.

Lemma stripped_no_digit (s : string) :
  has_digit s = false -> has_digit (stripped s) = false.
Proof.
  intros H. unfold stripped.
  apply sub_pieces_nil_digit. rewrite pieces_text_pieces.
  apply sub_pieces_nil_digit. now rewrite pieces_text_pieces.
Qed.

Lemma is_number_has_digit (s : string) :
  Py.is_number s = true -> has_digit s = true.
Proof.
  intros H. apply is_number_head in H. destruct s as [|c s]; [discriminate|].
  simpl in *. now rewrite H.
Qed.

Lemma int_literal_has_digit (s : string) :
  int_literal s = true -> has_digit s = true.
Proof.
  unfold int_literal. destruct s as [|c s]; [discriminate|].
  destruct (Ascii.eqb c "-") eqn:E; intros H.
  - cbn [has_digit]. rewrite (is_number_has_digit _ H). apply orb_true_r.
  - now apply is_number_has_digit.
Qed.

Lemma accepts_numbers_digit w cs :
  accepts (Re.ast numbers_pattern) [] w cs -> has_digit w = true.
Proof.
  unfold numbers_pattern, Re.ast. intros H.
  inversion H as [|? ? ? w1 cs1 w2 cs2 H1 H2| | | | | |]; subst.
  inversion H1 as [| | | | |? ? ? ? ? G1| |]; subst.
  apply accepts_int in G1 as [L _].
  rewrite has_digit_app, (int_literal_has_digit _ L). reflexivity.
Qed.

(** X2. A text without any decimal digit yields nothing and raises
    nothing: what [parse_numbers] does not understand is skipped. *)
Theorem parse_numbers_without_digit (s : string) :
  has_digit s = false -> parse_numbers s = Trace [] None.
Proof.
  intros H. rewrite parse_numbers_matches. unfold number_matches.
  destruct (Re.finditer numbers_pattern (stripped s)) as [|m ms] eqn:E;
    [reflexivity|].
  exfalso.
  assert (Hin : In m (Re.finditer numbers_pattern (stripped s)))
    by (rewrite E; now left).
  pose proof Hin as Hs. apply finditer_sound in Hs as (w & A & Hw & _).
  apply accepts_numbers_digit in A.
  unfold Re.finditer in Hin. apply matches_of_in in Hin.
  apply pieces_match_digit in Hin.
  - rewrite Hw in Hin. congruence.
  - rewrite pieces_text_pieces. now apply stripped_no_digit.
Qed.

Lemma parse_numbers_without_digit_witness :
  has_digit "frames: a-b, x-y" = false
  /\ parse_numbers "frames: a-b, x-y" = Trace [] None.
Proof.
  split; [reflexivity|].
  apply (parse_numbers_without_digit "frames: a-b, x-y"). reflexivity.
Defined.

Lemma arith_nonpos (a step len : Z) : len <= 0 -> arith a step len = [].
Proof.
  intros H. unfold arith. now replace (Z.to_nat len) with 0%nat by lia.
Qed.






(** X5. Integers written with [str] and joined with [", "] are read
    back as the same list. *)
Theorem parse_numbers_comma_list (l : list Z) :
  parse_numbers (Py.join ", " (map Py.str l)) = Trace l None.
Proof.
  replace (map Py.str l) with (map render (map FSingle l))
    by (rewrite map_map; reflexivity).
  rewrite parse_numbers_join.
  induction l as [|a l IH]; [reflexivity|].
  cbn [map]. now rewrite (run_cons (FSingle a) _ [a] l eq_refl IH).
Qed.

(** ** [format_numbers] *)

Lemma last_two_equal_tail (a b : Z) (l : list Z) :
  last_two_equal (a :: b :: l) = false -> last_two_equal (b :: l) = false.
Proof. destruct l as [|c l]; [reflexivity | auto]. Qed.

Lemma exact_loop_le (n : nat) :
  forall rest, (List.length rest <= n)%nat ->
  forall ss se nn step len,
  2 <= len -> se = ss + step * (len - 1) ->
  last_two_equal (nn :: rest) = false ->
  run_fragments (loop_fragments rest ss se nn step len)
  = Trace (arith ss step len ++ nn :: rest)%list None.
Proof.
  induction n as [|n IH]; intros rest Hn ss se nn step len Hl Hse Hlast.
  { destruct rest; [|cbn [List.length] in Hn; lia]. now apply roundtrip_nil. }
  destruct rest as [|x rest]; [now apply roundtrip_nil|].
  cbn [List.length] in Hn.
  pose proof (last_two_equal_tail _ _ _ Hlast) as Hlast1.
  destruct (Z.eq_dec nn (ss + step * len)) as [E|E].
  - rewrite loop_ext by assumption.
    assert (Hse' : nn = ss + step * (len + 1 - 1))
      by (rewrite E; f_equal; f_equal; lia).
    rewrite (IH rest ltac:(lia) ss nn x step (len + 1) ltac:(lia) Hse' Hlast1).
    f_equal. rewrite arith_snoc by lia.
    rewrite <- app_assoc, <- E. reflexivity.
  - destruct ((3 <=? len) || (step =? 0)) eqn:C.
    + pose proof (expand_build ss se step len Hl Hse) as Hb.
      destruct rest as [|y rest].
      * rewrite loop_break1 by assumption.
        cbn [last_two_equal] in Hlast.
        destruct (Z.eqb_spec (x - nn) 0) as [Z0|Z0];
          [apply Z.eqb_neq in Hlast; lia|].
        rewrite (run_cons _ _ (arith ss step len) [nn; x] Hb) by reflexivity.
        reflexivity.
      * cbn [List.length] in Hn.
        pose proof (last_two_equal_tail _ _ _ Hlast1) as Hlast2.
        rewrite loop_break2 by assumption.
        rewrite (run_cons _ _ _ _ Hb
                   (IH rest ltac:(lia) nn x y (x - nn) 2 ltac:(lia)
                       ltac:(lia) Hlast2)).
        f_equal. f_equal. rewrite arith_2.
        replace (nn + (x - nn)) with x by lia. reflexivity.
    + pose proof C as C'. apply orb_false_iff in C' as [C1 C2].
      apply Z.leb_gt in C1. assert (len = 2) as -> by lia.
      rewrite loop_slide by assumption.
      rewrite (run_cons (FSingle ss) _ [ss] _ eq_refl
                 (IH rest ltac:(lia) se nn x (nn - se) 2 ltac:(lia)
                     ltac:(lia) Hlast1)).
      f_equal. rewrite !arith_2.
      replace (se + (nn - se)) with nn by lia.
      replace (ss + step) with se by lia. reflexivity.
Qed.

(** X6. When the last two numbers of the list differ, the text
    [format_numbers] returns is read back by [parse_numbers] as the
    list itself.  (Without the condition the list read back can be
    longer: [1, 2, 3, 5, 5] is written ["1-3, 5x3"].) *)
Theorem parse_format_numbers (l : list Z) (s : string) :
  format_numbers l = Ok s -> last_two_equal l = false ->
  parse_numbers s = Trace l None.
Proof.
  intros H Hlast. assert (Hl : l <> []) by (intros ->; discriminate).
  rewrite (format_numbers_fragments l Hl) in H. injection H as <-.
  rewrite parse_numbers_join.
  destruct l as [|a [|b [|c rest]]]; [congruence| | |].
  - reflexivity.
  - cbn [format_fragments]. cbn [last_two_equal] in Hlast. rewrite Hlast.
    reflexivity.
  - cbn [format_fragments].
    rewrite (exact_loop_le (List.length rest) rest (le_n _)
               a b c (b - a) 2); try lia.
    + rewrite arith_2. replace (a + (b - a)) with b by lia. reflexivity.
    + now apply last_two_equal_tail, last_two_equal_tail in Hlast.
Qed.

Lemma parse_format_numbers_witness :
  format_numbers [1; 2; 3; 7; 9; 9; 11] = Ok "1-3, 7, 9x2, 11"
  /\ last_two_equal [1; 2; 3; 7; 9; 9; 11] = false
  /\ parse_numbers "1-3, 7, 9x2, 11" = Trace [1; 2; 3; 7; 9; 9; 11] None.
Proof.
  split; [reflexivity|]. split; [reflexivity|].
  apply (parse_format_numbers [1; 2; 3; 7; 9; 9; 11] "1-3, 7, 9x2, 11");
    reflexivity.
Defined.





(** ** Paths made of one plain name *)

Lemma has_char_app (x : ascii) (a b : string) :
  has_char x (a ++ b) = has_char x a || has_char x b.
Proof.
  induction a as [|c a IH]; simpl; [reflexivity|].
  now rewrite IH, orb_assoc.
Qed.

Lemma split_sep_plain (s : string) :
  has_char "/" s = false -> Path.split_sep s = [s].
Proof.
  induction s as [|c s IH]; intros H; cbn [Path.split_sep has_char] in *.
  - reflexivity.
  - apply orb_false_iff in H as [Hc Hs]. rewrite Ascii.eqb_sym, Hc.
    now rewrite (IH Hs).
Qed.

Lemma splitroot_plain (c : ascii) (s : string) :
  Ascii.eqb "/" c = false ->
  Path.splitroot (String c s) = ("", String c s).
Proof.
  intros H. destruct c as [[] [] [] [] [] [] [] []]; try reflexivity.
  discriminate H.
Qed.

Lemma of_str_plain (s : string) :
  has_char "/" s = false -> s <> "" -> s <> "." ->
  Path.of_str s = Path.Mk "" [s].
Proof.
  intros H Hne Hdot. unfold Path.of_str.
  destruct s as [|c s]; [congruence|].
  cbn [has_char] in H. pose proof H as H'.
  apply orb_false_iff in H' as [Hc _].
  rewrite (splitroot_plain c s Hc), split_sep_plain by exact H.
  cbn [filter]. unfold Path.keep.
  destruct (String.eqb_spec (String c s) ""); [congruence|].
  destruct (String.eqb_spec (String c s) "."); [congruence|].
  reflexivity.
Qed.

Lemma rfind_dot_none (s : string) :
  has_char "." s = false -> Path.rfind_dot s = None.
Proof.
  induction s as [|c s IH]; intros H; cbn [Path.rfind_dot has_char] in *.
  - reflexivity.
  - apply orb_false_iff in H as [Hc Hs]. rewrite (IH Hs).
    now rewrite Ascii.eqb_sym, Hc.
Qed.

Lemma rfind_dot_last (base ext : string) :
  has_char "." ext = false ->
  Path.rfind_dot (base ++ String "." ext) = Some (String.length base).
Proof.
  intros H. induction base as [|c base IH]; cbn [append Path.rfind_dot].
  - now rewrite (rfind_dot_none ext H).
  - now rewrite IH.
Qed.

Lemma substring_skip (a b : string) :
  substring (String.length a) (String.length b) (a ++ b) = b.
Proof.
  induction a as [|c a IH]; cbn [append String.length].
  - rewrite <- (sapp_nil_r b) at 2. apply substring_0_app.
  - exact IH.
Qed.

(** The stem and the suffix of a name [base.ext] without directory. *)
Lemma stem_suffix_plain (base ext : string) :
  has_char "/" base = false -> has_char "/" ext = false ->
  has_char "." ext = false -> base <> "" -> ext <> "" ->
  let p := Path.of_str (base ++ String "." ext) in
  Path.stem p = base /\ Path.suffix p = String "." ext
  /\ Path.to_str (Path.parent p) = ".".
Proof.
  intros Hb He Hd Hne Hene.
  assert (Hs : has_char "/" (base ++ String "." ext) = false).
  { rewrite has_char_app. cbn [has_char]. now rewrite Hb, He. }
  assert (Hlen : (1 <= String.length base)%nat)
    by (destruct base; [congruence | simpl; lia]).
  assert (Hlen' : (1 <= String.length ext)%nat)
    by (destruct ext; [congruence | simpl; lia]).
  rewrite of_str_plain; try exact Hs.
  - unfold Path.stem, Path.suffix, Path.name, Path.suffix_index.
    cbn [Path.parts last]. rewrite (rfind_dot_last base ext Hd).
    rewrite slength_app. cbn [String.length].
    destruct (Nat.ltb_spec 0 (String.length base)); [|lia].
    destruct (Nat.ltb_spec (String.length base)
                (String.length base + S (String.length ext) - 1)); [|lia].
    cbn [andb]. split; [apply substring_0_app|]. split; [|reflexivity].
    replace (String.length base + S (String.length ext) - String.length base)%nat
      with (String.length (String "." ext)) by (simpl; lia).
    apply substring_skip.
  - destruct base; [congruence | discriminate].
  - destruct base as [|c [|c' base]]; [congruence| |discriminate].
    destruct ext; [congruence | discriminate].
Qed.

(** The stem of a name without directory and without dot. *)
Lemma stem_plain (s : string) :
  has_char "/" s = false -> has_char "." s = false -> s <> "" ->
  let p := Path.of_str s in
  Path.stem p = s /\ Path.suffix p = ""
  /\ Path.to_str (Path.parent p) = ".".
Proof.
  intros Hs Hd Hne.
  rewrite of_str_plain; try assumption.
  - unfold Path.stem, Path.suffix, Path.name, Path.suffix_index.
    cbn [Path.parts last]. rewrite (rfind_dot_none s Hd). auto.
  - intros ->. discriminate Hd.
Qed.

(** ** Where [re.search] finds a match *)

Lemma search_split (p : Re.pattern) (s : string) (m : Re.mmatch) :
  Re.search p s = Some m ->
  exists pre post, s = pre ++ Re.group0 m ++ post.
Proof.
  unfold Re.search. destruct (Re.first_match _) as [[pre m']|] eqn:E;
    [|discriminate].
  intros [= <-]. apply first_match_split in E.
  rewrite pieces_text_pieces in E. eauto.
Qed.

Lemma search_at_start (p : Re.pattern) (s s' : string) (m : Re.mmatch) :
  Re.match_at p "" s = Some (m, s') -> Re.search p s = Some m.
Proof.
  intros H. unfold Re.search. rewrite pieces_is_pieces_from, pieces_from_eq, H.
  reflexivity.
Qed.

(** Characters at which the pattern cannot start are passed over. *)
Lemma first_match_skip (p : Re.pattern) (inert : ascii -> bool) :
  (forall b c s, inert c = true -> Re.match_at p b (String c s) = None) ->
  forall pre t b,
  (forall c, has_char c pre = true -> inert c = true) ->
  Re.first_match (pieces_from p b (pre ++ t))
  = match Re.first_match (pieces_from p (Re.rev_onto pre b) t) with
    | Some (q, m) => Some (pre ++ q, m)
    | None => None
    end.
Proof.
  intros Hinert pre t. induction pre as [|c pre IH]; intros b Hpre.
  - cbn [append Re.rev_onto]. now destruct (Re.first_match _) as [[q m]|].
  - cbn [append Re.rev_onto]. rewrite pieces_from_eq, Hinert.
    + cbn [Re.first_match]. rewrite IH.
      * now destruct (Re.first_match _) as [[q m]|].
      * intros x Hx. apply Hpre. cbn [has_char]. rewrite Hx. apply orb_true_r.
    + apply Hpre. cbn [has_char]. now rewrite Ascii.eqb_refl.
Qed.

(** A match somewhere in the subject makes the search succeed. *)
Lemma first_match_reach (p : Re.pattern) (t t' : string) (m : Re.mmatch) :
  (forall b, Re.match_at p b t = Some (m, t')) ->
  forall pre b, exists q m',
    Re.first_match (pieces_from p b (pre ++ t)) = Some (q, m').
Proof.
  intros H pre. induction pre as [|c pre IH]; intros b.
  - cbn [append]. rewrite pieces_from_eq, H. cbn [Re.first_match]. eauto.
  - cbn [append]. rewrite pieces_from_eq.
    destruct (Re.match_at p b (String c (pre ++ t))) as [[m' s']|].
    + cbn [Re.first_match]. eauto.
    + cbn [Re.first_match].
      destruct (IH (String c b)) as (q & m' & ->). eauto.
Qed.

Lemma search_reach (p : Re.pattern) (pre t t' : string) (m : Re.mmatch) :
  (forall b, Re.match_at p b t = Some (m, t')) ->
  exists m', Re.search p (pre ++ t) = Some m'.
Proof.
  intros H. unfold Re.search. rewrite pieces_is_pieces_from.
  destruct (first_match_reach p t t' m H pre "") as (q & m' & ->).
  cbn [option_map snd]. eauto.
Qed.

(** A character every accepted word has occurs in the subject of a
    successful search. *)
Lemma search_has_char (p : Re.pattern) (x : ascii) (s : string) m :
  (forall w cs, accepts (Re.ast p) [] w cs -> has_char x w = true) ->
  Re.search p s = Some m -> has_char x s = true.
Proof.
  intros Hacc H. pose proof (search_split _ _ _ H) as (pre & post & ->).
  apply search_sound in H as (w & A & -> & _).
  rewrite !has_char_app, (Hacc _ _ A). now rewrite orb_true_r.
Qed.

Lemma search_has_digit (p : Re.pattern) (s : string) m :
  (forall w cs, accepts (Re.ast p) [] w cs -> has_digit w = true) ->
  Re.search p s = Some m -> has_digit s = true.
Proof.
  intros Hacc H. pose proof (search_split _ _ _ H) as (pre & post & ->).
  apply search_sound in H as (w & A & -> & _).
  rewrite !has_digit_app, (Hacc _ _ A). now rewrite orb_true_r.
Qed.

Lemma accepts_chr_head (c : ascii) r2 cs w cs' :
  accepts (Re.Chr c +++ r2) cs w cs' -> exists w', w = String c w'.
Proof.
  intros H. inversion H as [|? ? ? w1 cs1 w2 cs2 H1 H2| | | | | |]; subst.
  inversion H1 as [? x ? Hx| | | | | | |]; subst.
  cbn [Re.in_class] in Hx. apply Ascii.eqb_eq in Hx. subst x.
  cbn [append]. eauto.
Qed.

Lemma accepts_format_code_char w cs :
  accepts (Re.ast format_code_pattern) [] w cs -> has_char "{" w = true.
Proof.
  intros H. apply accepts_chr_head in H as [w' ->]. reflexivity.
Qed.

Lemma accepts_modulo_char w cs :
  accepts (Re.ast modulo_pattern) [] w cs -> has_char "%" w = true.
Proof.
  intros H. apply accepts_chr_head in H as [w' ->]. reflexivity.
Qed.

Lemma accepts_numbersign_word w cs :
  accepts (Re.ast numbersign_pattern) [] w cs ->
  cs = [(1%nat, w)] /\ has_char "#" w = true.
Proof.
  unfold numbersign_pattern, Re.ast, Re.Plus. intros H.
  inversion H as [|? ? ? w1 cs1 w2 cs2 H1 H2| | | | | |]; subst.
  inversion H2; subst.
  inversion H1 as [| | | | |? ? ? ? ? G1| |]; subst.
  inversion G1 as [|? ? ? wa csa wb csb Ha Hb| | | | | |]; subst.
  inversion Ha as [? x ? Hx| | | | | | |]; subst.
  inversion Hb; subst.
  cbn [Re.in_class] in Hx. apply Ascii.eqb_eq in Hx. subst x.
  rewrite sapp_nil_r. split; reflexivity.
Qed.

Lemma accepts_digits_word w cs :
  accepts (Re.ast digits_pattern) [] w cs ->
  cs = [(1%nat, w)] /\ int_literal w = true.
Proof.
  unfold digits_pattern, Re.ast. intros H.
  inversion H as [|? ? ? w1 cs1 w2 cs2 H1 H2| | | | | |]; subst.
  inversion H2; subst.
  inversion H1 as [| | | | |? ? ? ? ? G1| |]; subst.
  apply accepts_int in G1 as [L ->].
  rewrite sapp_nil_r. auto.
Qed.

Lemma accepts_code_digit (r2 : Re.regex) (x : ascii) w cs cs' :
  accepts (Re.Chr x +++ Re.Chr "0" +++ r2) cs w cs' -> has_digit w = true.
Proof.
  intros H. inversion H as [|? ? ? w1 cs1 w2 cs2 H1 H2| | | | | |]; subst.
  apply accepts_chr_head in H2 as [w' ->].
  rewrite has_digit_app. cbn [has_digit].
  change (Py.is_digit "0") with true. cbn [orb]. apply orb_true_r.
Qed.

(** ** The functions on a string with or without framecode *)

Lemma init_of_get_framecode (s c : string) :
  get_framecode s = Ok (Some c) ->
  exists p, _Parser.init s = Ok p /\ _Parser.framecode p = c.
Proof.
  unfold get_framecode, except_ValueError.
  destruct (_Parser.init s) as [p|e] eqn:Hp; cbn [bind].
  - intros [= <-]. eauto.
  - destruct e; discriminate.
Qed.

(** X8. The framecode [get_framecode] returns is a part of the stem of
    the path: it is never taken from a directory or from the
    extension. *)
Theorem get_framecode_in_stem (s c : string) :
  get_framecode s = Ok (Some c) ->
  contains (Path.stem (Path.of_str s)) c.
Proof.
  intros H. apply init_of_get_framecode in H as (p & Hp & <-).
  apply init_cases in Hp as [_ (a & _ & S)].
  apply search_split in S as (pre & post & E).
  exists pre, post. exact E.
Qed.

Lemma get_framecode_in_stem_witness :
  get_framecode "v012/shot.0042.exr" = Ok (Some "0042")
  /\ contains (Path.stem (Path.of_str "v012/shot.0042.exr")) "0042".
Proof.
  split; [reflexivity|].
  apply (get_framecode_in_stem "v012/shot.0042.exr" "0042"). reflexivity.
Defined.

(** X9. For the types [numbersign] and [digits] the width is the length
    of the framecode itself; for [digits] a minus sign before the
    number is part of the framecode and counts in the width. *)
Theorem width_is_framecode_length (s : string) (p : _Parser.t) :
  _Parser.init s = Ok p ->
  _Parser._type p = "numbersign" \/ _Parser._type p = "digits" ->
  _Parser.width p = Ok (Py.len (_Parser.framecode p)).
Proof.
  intros Hp Hty. apply init_cases in Hp as [_ (a & Ha & S)].
  unfold _Parser.width, getitem, _Parser.framecode. rewrite Ha. cbn [bind].
  apply search_sound in S as (w & A & Hw & _).
  destruct (get_cases _ _ Ha) as [[E ->]|[[E ->]|[[E ->]|[E ->]]]];
    cbn [pattern width] in *;
    try (destruct Hty as [Hty|Hty]; rewrite E in Hty; discriminate Hty).
  - apply accepts_numbersign_word in A as [Hg _].
    unfold Re.group. rewrite Hg, Hw. reflexivity.
  - apply accepts_digits_word in A as [Hg _].
    unfold Re.group. rewrite Hg, Hw. reflexivity.
Qed.

Lemma width_is_framecode_length_witness :
  exists p, _Parser.init "shot-012.exr" = Ok p
    /\ (_Parser._type p = "numbersign" \/ _Parser._type p = "digits")
    /\ _Parser.framecode p = "-012"
    /\ _Parser.width p = Ok (Py.len (_Parser.framecode p)).
Proof.
  eexists. split; [reflexivity|].
  assert (H : "digits" = "numbersign" \/ "digits" = "digits")
    by (right; reflexivity).
  split; [exact H|]. split; [reflexivity|].
  exact (width_is_framecode_length "shot-012.exr" _ eq_refl H).
Defined.

(** X10. When no framecode is found, no function raises: the getters
    return [None], [replace_framecode] and [translate_framecode] return
    the string unchanged and [create_regex] returns the escaped string,
    whatever the replacement, the target type or the width option,
    valid or not. *)
Theorem no_framecode_fallbacks (s repl to_type width_ : string) :
  has_framecode s = Ok false ->
  get_framecode s = Ok None
  /\ get_frame_number s = Ok None
  /\ get_framecode_type s = Ok None
  /\ get_framecode_width s = Ok None
  /\ replace_framecode s repl = Ok s
  /\ translate_framecode s to_type = Ok s
  /\ create_regex s width_ = Ok (Re.escape s).
Proof.
  unfold has_framecode, get_framecode, get_frame_number, get_framecode_type,
    get_framecode_width, replace_framecode, translate_framecode,
    create_regex, except_ValueError.
  destruct (_Parser.init s) as [p|e] eqn:Hp; cbn [bind].
  - discriminate.
  - destruct e; intros H; try discriminate H. repeat split.
Qed.

Lemma no_framecode_fallbacks_witness :
  has_framecode "notes.txt" = Ok false
  /\ get_framecode "notes.txt" = Ok None
  /\ get_frame_number "notes.txt" = Ok None
  /\ get_framecode_type "notes.txt" = Ok None
  /\ get_framecode_width "notes.txt" = Ok None
  /\ replace_framecode "notes.txt" "\" = Ok "notes.txt"
  /\ translate_framecode "notes.txt" "bogus" = Ok "notes.txt"
  /\ create_regex "notes.txt" "bogus" = Ok (Re.escape "notes.txt").
Proof.
  split; [reflexivity|].
  apply (no_framecode_fallbacks "notes.txt" "\" "bogus" "bogus").
  reflexivity.
Defined.



(** ** When a framecode is found *)

Lemma star_fails (p : Re.cclass) k : forall s b cs,
  (forall w r, s = w ++ r -> k (Re.MState (Re.rev_onto w b) r cs) = None) ->
  Re.star p k b s cs = None.
Proof.
  induction s as [|c s IH]; intros b cs H; cbn [Re.star].
  - apply (H "" ""). reflexivity.
  - destruct (Re.in_class p c).
    + rewrite IH.
      * apply (H "" (String c s)). reflexivity.
      * intros w r ->. apply (H (String c w) r). reflexivity.
    + apply (H "" (String c s)). reflexivity.
Qed.

Lemma none_in_app (x : Re.cclass) (a b : string) :
  none_in x (a ++ b) = none_in x a && none_in x b.
Proof.
  induction a as [|c a IH]; simpl; [reflexivity|].
  now rewrite IH, andb_assoc.
Qed.

Lemma none_in_head (x : Re.cclass) (s : string) :
  none_in x s = true -> head_in x s = false.
Proof.
  destruct s as [|c s]; cbn [none_in head_in]; [reflexivity|].
  intros H. apply andb_true_iff in H as [H _]. now apply negb_true_iff in H.
Qed.

Lemma has_digit_none_in (s : string) :
  none_in Re.Digit s = negb (has_digit s).
Proof.
  induction s as [|c s IH]; cbn [none_in has_digit Re.in_class];
    [reflexivity|].
  rewrite IH. now rewrite negb_orb.
Qed.

Lemma has_char_none_in (x : ascii) (s : string) :
  none_in (Re.Lit x) s = negb (has_char x s).
Proof.
  induction s as [|c s IH]; cbn [none_in has_char Re.in_class];
    [reflexivity|].
  rewrite IH. now rewrite negb_orb.
Qed.

(** The lookahead [(?!.*c)] holds where no character of the class
    follows. *)
Lemma lookahead_passes (x : Re.cclass) (s b : string) cs k :
  none_in x s = true ->
  Re.mt (Re.NotAhead (Re.Star Re.Dot +++ Re.Cls x)) (Re.MState b s cs) k
  = k (Re.MState b s cs).
Proof.
  intros H. cbn [Re.mt Re.before Re.rest Re.caps].
  rewrite star_fails; [reflexivity|].
  intros w r ->. rewrite none_in_app in H.
  apply andb_true_iff in H as [_ Hr]. apply none_in_head in Hr.
  cbn [Re.rest]. destruct r as [|c r]; [reflexivity|].
  cbn [head_in] in Hr. now rewrite Hr.
Qed.

Lemma plus_single (x : Re.cclass) (c : ascii) (s b : string) cs k :
  Re.in_class x c = true -> none_in x s = true ->
  Re.mt (Re.Plus x) (Re.MState b (String c s) cs) k
  = k (Re.MState (String c b) s cs).
Proof.
  intros Hc Hs. apply none_in_head in Hs.
  cbn [Re.mt Re.Plus Re.before Re.rest Re.caps]. rewrite Hc.
  destruct s as [|d s]; cbn [Re.star]; [reflexivity|].
  cbn [head_in] in Hs. now rewrite Hs.
Qed.

Lemma taken_one (c : ascii) (s : string) :
  Re.taken (String c s) s = String c "".
Proof. exact (taken_app (String c "") s). Qed.

Lemma ltb_tail (c : ascii) (s : string) :
  (String.length s <? String.length (String c s))%nat = true.
Proof. apply Nat.ltb_lt. simpl. lia. Qed.

Lemma match_at_last_numbersign (s b : string) :
  none_in (Re.Lit "#") s = true ->
  Re.match_at numbersign_pattern b (String "#" s)
  = Some (Re.Match numbersign_pattern "#" [(1%nat, "#")], s).
Proof.
  intros H. unfold Re.match_at, numbersign_pattern, Re.ast.
  rewrite mt_seq. cbn [Re.mt].
  change (Re.mt (Re.Cls (Re.Lit "#")) ?st
            (fun st1 => Re.mt (Re.Star (Re.Lit "#")) st1 ?k))
    with (Re.mt (Re.Plus (Re.Lit "#")) st k).
  rewrite plus_single by (try reflexivity; exact H).
  cbn [Re.before Re.rest Re.caps].
  change (Re.star Re.Dot ?k ?b0 s ?cs0)
    with (Re.mt (Re.Star Re.Dot) (Re.MState b0 s cs0) k).
  pose proof (lookahead_passes (Re.Lit "#") s (String "#" b)
                [(1%nat, Re.taken (String "#" s) s)] Some H) as L.
  cbn [Re.mt Re.before Re.rest Re.caps Re.Chr] in L |- *.
  rewrite L. cbn [Re.rest Re.caps].
  now rewrite ltb_tail, taken_one.
Qed.

Lemma match_at_last_digit (c : ascii) (s b : string) :
  Py.is_digit c = true -> none_in Re.Digit s = true ->
  Re.match_at digits_pattern b (String c s)
  = Some (Re.Match digits_pattern (String c "") [(1%nat, String c "")], s).
Proof.
  intros Hc H. unfold Re.match_at, digits_pattern, Re.ast.
  rewrite mt_seq. cbn [Re.mt Re.Chr Re.before Re.rest Re.caps Re.in_class].
  rewrite Ascii.eqb_sym, (digit_not_minus c Hc).
  cbn [Re.before Re.rest Re.caps].
  rewrite plus_single by assumption.
  cbn [Re.before Re.rest Re.caps].
  change (Re.star Re.Dot ?k ?b0 s ?cs0)
    with (Re.mt (Re.Star Re.Dot) (Re.MState b0 s cs0) k).
  pose proof (lookahead_passes Re.Digit s (String c b)
                [(1%nat, Re.taken (String c s) s)] Some H) as L.
  cbn [Re.mt Re.before Re.rest Re.caps Re.in_class] in L |- *.
  rewrite L. cbn [Re.rest Re.caps].
  now rewrite ltb_tail, taken_one.
Qed.

(** A subject with a character of the class has a place where the
    pattern matches: at the last such character. *)
Lemma last_occurrence (x : Re.cclass) (s : string) :
  none_in x s = false ->
  exists pre c t, s = pre ++ String c t
                  /\ Re.in_class x c = true /\ none_in x t = true.
Proof.
  induction s as [|c s IH]; cbn [none_in]; intros H; [discriminate|].
  destruct (none_in x s) eqn:Hs.
  - rewrite andb_true_r in H. apply negb_false_iff in H.
    exists "", c, s. auto.
  - destruct (IH eq_refl) as (pre & d & t & -> & Hd & Ht).
    exists (String c pre), d, t. auto.
Qed.

Lemma search_digits_complete (s : string) :
  has_digit s = true -> exists m, Re.search digits_pattern s = Some m.
Proof.
  intros H.
  destruct (last_occurrence Re.Digit s) as (pre & c & t & -> & Hc & Ht).
  { rewrite has_digit_none_in, H. reflexivity. }
  eapply search_reach. intros b. now apply match_at_last_digit.
Qed.

Lemma search_numbersign_complete (s : string) :
  has_char "#" s = true -> exists m, Re.search numbersign_pattern s = Some m.
Proof.
  intros H.
  destruct (last_occurrence (Re.Lit "#") s) as (pre & c & t & -> & Hc & Ht).
  { rewrite has_char_none_in, H. reflexivity. }
  cbn [Re.in_class] in Hc. apply Ascii.eqb_eq in Hc. subst c.
  eapply search_reach. intros b. now apply match_at_last_numbersign.
Qed.

Lemma search_none_digit (p : Re.pattern) (s : string) :
  (forall w cs, accepts (Re.ast p) [] w cs -> has_digit w = true) ->
  has_digit s = false -> Re.search p s = None.
Proof.
  intros Hacc H. destruct (Re.search p s) as [m|] eqn:E; [|reflexivity].
  apply (search_has_digit p s m Hacc) in E. congruence.
Qed.

Lemma search_none_char (p : Re.pattern) (x : ascii) (s : string) :
  (forall w cs, accepts (Re.ast p) [] w cs -> has_char x w = true) ->
  has_char x s = false -> Re.search p s = None.
Proof.
  intros Hacc H. destruct (Re.search p s) as [m|] eqn:E; [|reflexivity].
  apply (search_has_char p x s m Hacc) in E. congruence.
Qed.

Lemma accepts_digits_digit w cs :
  accepts (Re.ast digits_pattern) [] w cs -> has_digit w = true.
Proof.
  intros H. apply accepts_digits_word in H as [_ H].
  now apply int_literal_has_digit.
Qed.

Lemma accepts_numbersign_char w cs :
  accepts (Re.ast numbersign_pattern) [] w cs -> has_char "#" w = true.
Proof. intros H. now apply accepts_numbersign_word in H. Qed.

Lemma accepts_format_code_digit w cs :
  accepts (Re.ast format_code_pattern) [] w cs -> has_digit w = true.
Proof.
  unfold format_code_pattern, Re.ast. intros H.
  inversion H as [|? ? ? w1 cs1 w2 cs2 H1 H2| | | | | |]; subst.
  apply accepts_code_digit in H2. rewrite has_digit_app, H2.
  apply orb_true_r.
Qed.

Lemma accepts_modulo_digit w cs :
  accepts (Re.ast modulo_pattern) [] w cs -> has_digit w = true.
Proof.
  unfold modulo_pattern, Re.ast. intros H.
  now apply accepts_code_digit in H.
Qed.

(** X12. [has_framecode] never raises, and it is true exactly when the
    stem of the path contains a decimal digit or a ['#']. *)
Theorem has_framecode_iff_digit_or_numbersign (s : string) :
  has_framecode s
  = Ok (has_digit (Path.stem (Path.of_str s))
        || has_char "#" (Path.stem (Path.of_str s))).
Proof.
  unfold has_framecode, except_ValueError, _Parser.init, _Parser.path_of.
  set (stem := Path.stem (Path.of_str s)).
  unfold FRAMECODE_TYPES. cbn [_Parser.find pattern].
  destruct (has_digit stem) eqn:Hd.
  - destruct (search_digits_complete stem Hd) as [m Hm].
    rewrite Hm. cbn [orb].
    destruct (Re.search format_code_pattern stem); [reflexivity|].
    destruct (Re.search modulo_pattern stem); [reflexivity|].
    destruct (Re.search numbersign_pattern stem); reflexivity.
  - rewrite (search_none_digit _ _ accepts_format_code_digit Hd).
    rewrite (search_none_digit _ _ accepts_modulo_digit Hd).
    rewrite (search_none_digit _ _ accepts_digits_digit Hd).
    cbn [orb]. destruct (has_char "#" stem) eqn:Hh.
    + destruct (search_numbersign_complete stem Hh) as [m ->]. reflexivity.
    + rewrite (search_none_char _ _ _ accepts_numbersign_char Hh).
      reflexivity.
Qed.

(** X13. [get_frame_number] returns [None] as soon as the stem contains
    a ['#'], also when the stem contains a number: the type
    [numbersign] (or a format code) is detected before [digits]. *)
Theorem get_frame_number_none_with_numbersign (s : string) :
  has_char "#" (Path.stem (Path.of_str s)) = true ->
  get_frame_number s = Ok None.
Proof.
  intros Hh. unfold get_frame_number, except_ValueError, _Parser.init,
    _Parser.path_of.
  destruct (search_numbersign_complete _ Hh) as [m Hm].
  unfold FRAMECODE_TYPES. cbn [_Parser.find pattern]. rewrite Hm.
  destruct (Re.search format_code_pattern _); [reflexivity|].
  destruct (Re.search modulo_pattern _); reflexivity.
Qed.

Lemma get_frame_number_none_with_numbersign_witness :
  has_char "#" (Path.stem (Path.of_str "take#2_0042.exr")) = true
  /\ get_frame_number "take#2_0042.exr" = Ok None.
Proof.
  split; [reflexivity|].
  apply (get_frame_number_none_with_numbersign "take#2_0042.exr").
  reflexivity.
Defined.

(** ** A generated framecode is detected again *)

Lemma all_digits_has_char (x : ascii) (s : string) :
  Py.all_digits s = true -> Py.is_digit x = false -> has_char x s = false.
Proof.
  intros Hs Hx. induction s as [|c s IH]; [reflexivity|].
  cbn [Py.all_digits] in Hs. apply andb_true_iff in Hs as [Hc Hs].
  cbn [has_char]. rewrite (IH Hs), orb_false_r.
  destruct (Ascii.eqb_spec x c) as [->|]; [congruence | reflexivity].
Qed.

Lemma str_number (w : Z) : 0 <= w -> Py.is_number (Py.str w) = true.
Proof.
  intros Hw. rewrite str_cases.
  destruct (Z.ltb_spec w 0); [lia | apply abs_digits_number].
Qed.

Lemma str_has_char (x : ascii) (w : Z) :
  0 <= w -> Py.is_digit x = false -> has_char x (Py.str w) = false.
Proof.
  intros Hw Hx. apply all_digits_has_char; [|exact Hx].
  apply is_number_all_digits, str_number, Hw.
Qed.

Lemma repeat_char_succ (c : ascii) (w : Z) :
  1 <= w -> Py.repeat_char c w = String c (Py.repeat_char c (w - 1)).
Proof.
  intros Hw. unfold Py.repeat_char.
  replace (Z.to_nat w) with (S (Z.to_nat (w - 1))) by lia. reflexivity.
Qed.

Lemma repeat_char_all_in (c : ascii) (w : Z) :
  all_in (Re.Lit c) (Py.repeat_char c w) = true.
Proof.
  unfold Py.repeat_char. induction (Z.to_nat w) as [|n IH]; [reflexivity|].
  cbn [repeat string_of_list_ascii all_in Re.in_class].
  now rewrite Ascii.eqb_refl, IH.
Qed.

Lemma repeat_char_has_char (x c : ascii) (w : Z) :
  x <> c -> has_char x (Py.repeat_char c w) = false.
Proof.
  intros Hx. unfold Py.repeat_char.
  induction (Z.to_nat w) as [|n IH]; [reflexivity|].
  cbn [repeat string_of_list_ascii has_char]. rewrite IH, orb_false_r.
  now apply Ascii.eqb_neq.
Qed.

Lemma repeat_char_len (c : ascii) (w : Z) :
  0 <= w -> Py.len (Py.repeat_char c w) = w.
Proof.
  intros Hw. unfold Py.len, Py.repeat_char.
  replace (String.length (string_of_list_ascii (repeat c (Z.to_nat w))))
    with (Z.to_nat w); [lia|].
  induction (Z.to_nat w) as [|n IH]; [reflexivity|].
  cbn [repeat string_of_list_ascii String.length]. now rewrite <- IH.
Qed.

Lemma taken_all (s : string) : Re.taken s "" = s.
Proof.
  pose proof (taken_app s "") as H. now rewrite sapp_nil_r in H.
Qed.

Lemma match_at_format_code (w : Z) (b : string) :
  0 <= w ->
  Re.match_at format_code_pattern b ("{:0" ++ Py.str w ++ "d}")
  = Some (Re.Match format_code_pattern ("{:0" ++ Py.str w ++ "d}")
            [(1%nat, Py.str w)], "").
Proof.
  intros Hw. pose proof (str_number w Hw) as Hn.
  unfold Re.match_at, format_code_pattern, Re.ast.
  set (code := "{:0" ++ Py.str w ++ "d}").
  assert (E : Re.mt
    (Re.Chr "{" +++ Re.Chr ":" +++ Re.Chr "0" +++ Re.Grp 1 (Re.Plus Re.Digit)
     +++ Re.Star (Re.Lit "d") +++ Re.Chr "}")
    (Re.MState b code []) Some
    = Some (Re.MState (String "}" (String "d"
              (Re.rev_onto (Py.str w)
                 (String "0" (String ":" (String "{" b))))))
              "" [(1%nat, Py.str w)])).
  { unfold code.
    cbn [Re.mt Re.Chr Re.before Re.rest Re.caps Re.in_class append].
    cbn [Ascii.eqb Bool.eqb].
    cbn [Re.before Re.rest Re.caps].
    apply mt_number; [exact Hn | reflexivity |].
    cbn [Re.mt Re.star Re.before Re.rest Re.caps Re.in_class].
    cbn [Ascii.eqb Bool.eqb].
    now rewrite (taken_app (Py.str w) "d}"). }
  rewrite E. cbn [Re.rest Re.caps String.length].
  rewrite taken_all.
  replace (0 <? String.length code)%nat with true; [reflexivity|].
  symmetry. apply Nat.ltb_lt. unfold code. simpl. lia.
Qed.

Lemma match_at_modulo (w : Z) (b : string) :
  0 <= w ->
  Re.match_at modulo_pattern b ("%0" ++ Py.str w ++ "d")
  = Some (Re.Match modulo_pattern ("%0" ++ Py.str w ++ "d")
            [(1%nat, Py.str w)], "").
Proof.
  intros Hw. pose proof (str_number w Hw) as Hn.
  unfold Re.match_at, modulo_pattern, Re.ast.
  set (code := "%0" ++ Py.str w ++ "d").
  assert (E : Re.mt
    (Re.Chr "%" +++ Re.Chr "0" +++ Re.Grp 1 (Re.Plus Re.Digit) +++ Re.Chr "d")
    (Re.MState b code []) Some
    = Some (Re.MState (String "d" (Re.rev_onto (Py.str w)
                                     (String "0" (String "%" b)))) ""
              [(1%nat, Py.str w)])).
  { unfold code.
    cbn [Re.mt Re.Chr Re.before Re.rest Re.caps Re.in_class append].
    cbn [Ascii.eqb Bool.eqb].
    cbn [Re.before Re.rest Re.caps].
    apply mt_number; [exact Hn | reflexivity |].
    cbn [Re.mt Re.star Re.before Re.rest Re.caps Re.in_class].
    cbn [Ascii.eqb Bool.eqb].
    now rewrite (taken_app (Py.str w) "d"). }
  rewrite E. cbn [Re.rest Re.caps String.length].
  rewrite taken_all.
  replace (0 <? String.length code)%nat with true; [reflexivity|].
  symmetry. apply Nat.ltb_lt. unfold code. simpl. lia.
Qed.

Lemma match_at_numbersigns (t b : string) :
  all_in (Re.Lit "#") t = true ->
  Re.match_at numbersign_pattern b (String "#" t)
  = Some (Re.Match numbersign_pattern (String "#" t)
            [(1%nat, String "#" t)], "").
Proof.
  intros Ht. unfold Re.match_at, numbersign_pattern, Re.ast.
  rewrite mt_seq.
  assert (E : forall k res,
    k (Re.MState (Re.rev_onto t (String "#" b)) ""
         [(1%nat, String "#" t)]) = Some res ->
    Re.mt (Re.Grp 1 (Re.Plus (Re.Lit "#"))) (Re.MState b (String "#" t) []) k
    = Some res).
  { intros k res Hk.
    cbn [Re.mt Re.Plus Re.before Re.rest Re.caps Re.in_class].
    rewrite Ascii.eqb_refl. cbn [Re.before Re.rest Re.caps].
    rewrite <- (sapp_nil_r t) at 1. apply star_greedy; [exact Ht | reflexivity|].
    cbn [Re.before Re.rest Re.caps]. now rewrite taken_all. }
  erewrite E.
  2:{ apply (lookahead_passes (Re.Lit "#") "" _ _ Some). reflexivity. }
  cbn [Re.rest Re.caps String.length]. now rewrite taken_all.
Qed.

Lemma init_found (s ty : string) (m : Re.mmatch) :
  _Parser.find FRAMECODE_TYPES (Path.stem (Path.of_str s)) = Some (ty, m) ->
  get_framecode s = Ok (Some (Re.group0 m))
  /\ get_framecode_type s = Ok (Some ty)
  /\ get_framecode_width s
     = except_ValueError
         (w <- _Parser.width (_Parser.Mk s m ty) ;; Ok (Some w)) None
  /\ get_frame_number s
     = except_ValueError
         (if String.eqb ty "digits"
          then n <- Py.int (Re.group0 m) ;; Ok (Some n) else Ok None) None.
Proof.
  intros H.
  unfold get_framecode, get_framecode_type, get_framecode_width,
    get_frame_number, _Parser.init, _Parser.path_of.
  rewrite H. repeat split; reflexivity.
Qed.

(** X14. A framecode made by [generate_framecode] is recognised by the
    detecting functions: as a name of its own it is its own framecode,
    of the type and of the width it was generated with, and it holds no
    frame number. *)
Theorem generate_then_detect (ty : string) (w : Z) (code : string) :
  generate_framecode ty w = Ok code ->
  get_framecode code = Ok (Some code)
  /\ get_framecode_type code = Ok (Some ty)
  /\ get_framecode_width code = Ok (Some w)
  /\ get_frame_number code = Ok None.
Proof.
  unfold generate_framecode.
  destruct (Z.ltb_spec w 1) as [|Hw]; [discriminate|].
  destruct (get ty FRAMECODE_TYPES) as [a|] eqn:Hg; [|discriminate].
  destruct (get_cases _ _ Hg) as [[-> ->]|[[-> ->]|[[-> ->]|[-> ->]]]];
    cbn [FramecodeTypes.generate_framecode]; intros E.
  - assert (Hc : code = "{:0" ++ Py.str w ++ "d}") by congruence.
    assert (Hs : Path.stem (Path.of_str code) = code).
    { apply stem_plain.
      - rewrite Hc. cbn [append has_char]. rewrite has_char_app.
        now rewrite str_has_char by (try lia; reflexivity).
      - rewrite Hc. cbn [append has_char]. rewrite has_char_app.
        now rewrite str_has_char by (try lia; reflexivity).
      - rewrite Hc. discriminate. }
    pose proof (search_at_start _ _ _ _ (match_at_format_code w "" ltac:(lia)))
      as Hm. rewrite <- Hc in Hm.
    destruct (init_found code "format_code"
                (Re.Match format_code_pattern code [(1%nat, Py.str w)]))
      as (H1 & H2 & H3 & H4).
    { rewrite Hs. unfold FRAMECODE_TYPES. cbn [_Parser.find pattern].
      now rewrite Hm. }
    rewrite H1, H2, H3, H4. repeat split.
    unfold _Parser.width. cbn. now rewrite int_str.
  - assert (Hc : code = "%0" ++ Py.str w ++ "d") by congruence.
    assert (Hb : forall x, Py.is_digit x = false -> x <> "%"%char ->
                 x <> "d"%char -> has_char x code = false).
    { intros x Hx H1 H2. rewrite Hc. cbn [append has_char].
      rewrite has_char_app, str_has_char by (try lia; exact Hx).
      cbn [has_char].
      apply Ascii.eqb_neq in H1, H2. rewrite H1, H2.
      destruct (Ascii.eqb_spec x "0") as [->|]; [discriminate Hx|reflexivity]. }
    assert (Hs : Path.stem (Path.of_str code) = code).
    { apply stem_plain; [apply Hb | apply Hb | rewrite Hc];
        first [reflexivity | discriminate]. }
    pose proof (search_at_start _ _ _ _ (match_at_modulo w "" ltac:(lia)))
      as Hm. rewrite <- Hc in Hm.
    destruct (init_found code "modulo"
                (Re.Match modulo_pattern code [(1%nat, Py.str w)]))
      as (H1 & H2 & H3 & H4).
    { rewrite Hs. unfold FRAMECODE_TYPES. cbn [_Parser.find pattern].
      rewrite (search_none_char _ "{" code accepts_format_code_char)
        by (apply Hb; [reflexivity | discriminate | discriminate]).
      now rewrite Hm. }
    rewrite H1, H2, H3, H4. repeat split.
    unfold _Parser.width. cbn. now rewrite int_str.
  - assert (Hc0 : code = Py.repeat_char "#" w) by congruence.
    assert (Hb : forall x, x <> "#"%char -> has_char x code = false).
    { intros x Hx. rewrite Hc0. now apply repeat_char_has_char. }
    assert (Hc : code = String "#" (Py.repeat_char "#" (w - 1))).
    { rewrite Hc0. apply repeat_char_succ, Hw. }
    assert (Hs : Path.stem (Path.of_str code) = code).
    { apply stem_plain; [apply Hb | apply Hb | rewrite Hc]; discriminate. }
    pose proof (search_at_start _ _ _ _
                  (match_at_numbersigns (Py.repeat_char "#" (w - 1)) ""
                     (repeat_char_all_in _ _))) as Hm.
    rewrite <- Hc in Hm.
    destruct (init_found code "numbersign"
                (Re.Match numbersign_pattern code [(1%nat, code)]))
      as (H1 & H2 & H3 & H4).
    { rewrite Hs. unfold FRAMECODE_TYPES. cbn [_Parser.find pattern].
      rewrite (search_none_char _ "{" code accepts_format_code_char)
        by (apply Hb; discriminate).
      rewrite (search_none_char _ "%" code accepts_modulo_char)
        by (apply Hb; discriminate).
      now rewrite Hm. }
    rewrite H1, H2, H3, H4. repeat split.
    unfold _Parser.width. cbn. rewrite Hc0 at 1.
    now rewrite repeat_char_len by lia.
  - discriminate.
Qed.

Lemma generate_then_detect_witness :
  generate_framecode "format_code" 4 = Ok "{:04d}"
  /\ get_framecode "{:04d}" = Ok (Some "{:04d}")
  /\ get_framecode_type "{:04d}" = Ok (Some "format_code")
  /\ get_framecode_width "{:04d}" = Ok (Some 4)
  /\ get_frame_number "{:04d}" = Ok None.
Proof.
  split; [reflexivity|].
  apply (generate_then_detect "format_code" 4 "{:04d}"). reflexivity.
Defined.

(** ** The frame number of a name *)

Lemma star_reach (p : Re.cclass) k (u r : string) : forall b cs res,
  all_in p u = true ->
  k (Re.MState (Re.rev_onto u b) r cs) = Some res ->
  exists res', Re.star p k b (u ++ r) cs = Some res'.
Proof.
  induction u as [|c u IH]; intros b cs res Hu Hk.
  - cbn [append Re.rev_onto] in *.
    destruct r as [|d r]; cbn [Re.star]; [eauto|].
    destruct (Re.in_class p d); [|eauto].
    destruct (Re.star p k (String d b) r cs); eauto.
  - cbn [all_in] in Hu. apply andb_true_iff in Hu as [Hc Hu].
    cbn [append Re.star]. rewrite Hc.
    destruct (IH (String c b) cs res Hu Hk) as [res' ->]. eauto.
Qed.

Lemma digit_is_found (s : string) cs : forall b,
  digit_on_line s = true ->
  exists res,
    Re.mt (Re.Star Re.Dot +++ Re.Cls Re.Digit) (Re.MState b s cs) Some
    = Some res.
Proof.
  cbn [Re.mt Re.before Re.rest Re.caps Re.in_class].
  induction s as [|c s IH]; intros b H; [discriminate|].
  cbn [digit_on_line] in H. cbn [Re.star Re.in_class].
  destruct (Py.is_digit c) eqn:Hc.
  - destruct (negb (Ascii.eqb c "010")).
    + destruct (Re.star _ _ _ s cs); [eauto|].
      cbn [Re.rest Re.in_class]. rewrite Hc. eauto.
    + cbn [Re.rest Re.in_class]. rewrite Hc. eauto.
  - cbn [orb] in H. apply andb_true_iff in H as [Hn Hs]. rewrite Hn.
    destruct (IH (String c b) Hs) as [res ->]. eauto.
Qed.

(** The lookahead [(?!.*\d)] fails where a digit follows on the line. *)
Lemma lookahead_blocks (s b : string) cs k :
  digit_on_line s = true ->
  Re.mt (Re.NotAhead (Re.Star Re.Dot +++ Re.Cls Re.Digit))
        (Re.MState b s cs) k = None.
Proof.
  intros H. destruct (digit_is_found s cs b H) as [res E].
  change (match Re.mt (Re.Star Re.Dot +++ Re.Cls Re.Digit)
                  (Re.MState b s cs) Some with
          | Some _ => None
          | None => k (Re.MState b s cs)
          end = None).
  now rewrite E.
Qed.

(** No match of the pattern of the type [digits] ends where a digit
    follows on the line. *)
Lemma match_at_digits_blocked (b s : string) :
  (forall w s', s = w ++ s' -> int_literal w = true ->
                digit_on_line s' = true) ->
  Re.match_at digits_pattern b s = None.
Proof.
  intros H. unfold Re.match_at, digits_pattern, Re.ast. rewrite mt_seq.
  destruct (Re.mt _ _ _) as [res|] eqn:E; [|reflexivity].
  apply mt_sound in E as (w & s' & cs' & Hs & A & Hk).
  cbn [Re.rest Re.caps Re.before] in Hs, A, Hk.
  inversion A as [| | | | |? ? ? ? cs1 A1| |]; subst.
  apply accepts_int in A1 as [Hw _].
  rewrite lookahead_blocks in Hk by now apply (H w s').
  discriminate.
Qed.

Lemma int_ok_literal (s : string) (n : Z) :
  Py.int s = Ok n -> int_literal s = true.
Proof.
  unfold Py.int, int_literal. destruct s as [|c ds]; [discriminate|].
  destruct (Ascii.eqb c "-").
  - destruct (Py.is_number ds); [reflexivity | discriminate].
  - destruct (Py.is_number (String c ds)); [reflexivity | discriminate].
Qed.

Lemma int_literal_chars (s : string) (x : ascii) :
  int_literal s = true -> has_char x s = true -> num_char x = true.
Proof.
  unfold int_literal. destruct s as [|c ds]; [discriminate|].
  assert (D : forall t, Py.all_digits t = true -> has_char x t = true ->
                        num_char x = true).
  { intros t Ht Hx. unfold num_char.
    destruct (Py.is_digit x) eqn:E; [reflexivity|].
    now rewrite (all_digits_has_char x t Ht E) in Hx. }
  destruct (Ascii.eqb_spec c "-") as [->|_]; intros Hn.
  - cbn [has_char]. destruct (Ascii.eqb_spec x "-") as [->|_];
      [reflexivity|]. cbn [orb]. apply D, is_number_all_digits, Hn.
  - apply D, is_number_all_digits, Hn.
Qed.

Lemma int_literal_no_char (s : string) (x : ascii) :
  int_literal s = true -> num_char x = false -> has_char x s = false.
Proof.
  intros Hs Hx. destruct (has_char x s) eqn:E; [|reflexivity].
  now rewrite (int_literal_chars s x Hs E) in Hx.
Qed.

Lemma int_literal_on_line (s : string) :
  int_literal s = true -> digit_on_line s = true.
Proof.
  unfold int_literal. destruct s as [|c ds]; [discriminate|].
  destruct (Ascii.eqb_spec c "-") as [->|_]; intros Hn.
  - apply is_number_head in Hn. destruct ds as [|d ds]; [discriminate|].
    cbn in Hn. cbn [digit_on_line]. rewrite Hn. reflexivity.
  - apply is_number_head in Hn. cbn in Hn. cbn [digit_on_line].
    now rewrite Hn.
Qed.

Lemma digit_on_line_app (u t : string) :
  has_char "010" u = false -> digit_on_line t = true ->
  digit_on_line (u ++ t) = true.
Proof.
  intros Hu Ht. induction u as [|c u IH]; [exact Ht|].
  cbn [has_char] in Hu. apply orb_false_iff in Hu as [Hc Hu].
  cbn [append digit_on_line]. rewrite (IH Hu), andb_true_r.
  rewrite Ascii.eqb_sym, Hc. apply orb_true_r.
Qed.

Lemma ends_num_cons (c d : ascii) (s : string) :
  ends_num (String c (String d s)) = ends_num (String d s).
Proof. reflexivity. Qed.

(** An integer literal that starts inside [x] ends inside [x], when
    [x] does not end with a digit or a minus sign. *)
Lemma literal_ends_before (t : string) : forall x c w s',
  w ++ s' = String c x ++ t ->
  (forall y, has_char y w = true -> num_char y = true) ->
  ends_num (String c x) = false ->
  exists v u, String c x = v ++ u /\ s' = u ++ t.
Proof.
  induction x as [|c' x IH]; intros c w s' E Hw Hx.
  - destruct w as [|d w].
    + exists "", (String c ""). cbn [append] in E |- *. auto.
    + cbn [append] in E. injection E as -> E.
      cbn [ends_num] in Hx. rewrite Hw in Hx; [discriminate|].
      cbn [has_char]. now rewrite Ascii.eqb_refl.
  - destruct w as [|d w].
    + exists "", (String c (String c' x)). cbn [append] in E |- *. auto.
    + cbn [append] in E. injection E as -> E.
      rewrite ends_num_cons in Hx.
      destruct (IH c' w s' E) as (v & u & Hv & Hu); [|exact Hx|].
      { intros y Hy. apply Hw. cbn [has_char]. rewrite Hy.
        apply orb_true_r. }
      exists (String c v), u. rewrite Hv. auto.
Qed.

Lemma mt_literal (lit r : string) k b cs res :
  int_literal lit = true -> Py.starts_with_digit r = false ->
  k (Re.MState (Re.rev_onto lit b) r cs) = Some res ->
  Re.mt (Re.Opt (Re.Chr "-") +++ Re.Plus Re.Digit)
        (Re.MState b (lit ++ r) cs) k = Some res.
Proof.
  unfold int_literal. destruct lit as [|c ds]; [discriminate|].
  destruct (Ascii.eqb_spec c "-") as [->|Hc]; intros Hn Hr Hk.
  - rewrite mt_seq.
    cbn [Re.mt Re.Chr Re.rest Re.before Re.caps append Re.in_class].
    rewrite Ascii.eqb_refl.
    change (Re.mt (Re.Cls Re.Digit) ?st (fun st1 => Re.mt (Re.Star Re.Digit) st1 k))
      with (Re.mt (Re.Plus Re.Digit) st k).
    now rewrite (mt_number _ _ _ _ _ _ Hn Hr Hk).
  - rewrite mt_seq.
    cbn [Re.mt Re.Chr Re.rest Re.before Re.caps append Re.in_class].
    apply Ascii.eqb_neq in Hc. rewrite Ascii.eqb_sym, Hc.
    change (String c (ds ++ r)) with (String c ds ++ r).
    change (Re.mt (Re.Cls Re.Digit) ?st (fun st1 => Re.mt (Re.Star Re.Digit) st1 k))
      with (Re.mt (Re.Plus Re.Digit) st k).
    now apply mt_number.
Qed.

Lemma match_at_literal (lit b : string) :
  int_literal lit = true ->
  Re.match_at digits_pattern b lit
  = Some (Re.Match digits_pattern lit [(1%nat, lit)], "").
Proof.
  intros Hl. unfold Re.match_at, digits_pattern, Re.ast. rewrite mt_seq.
  assert (E : forall k res,
    k (Re.MState (Re.rev_onto lit b) "" [(1%nat, lit)]) = Some res ->
    Re.mt (Re.Grp 1 (Re.Opt (Re.Chr "-") +++ Re.Plus Re.Digit))
          (Re.MState b lit []) k = Some res).
  { intros k res Hk.
    change (Re.mt (Re.Opt (Re.Chr "-") +++ Re.Plus Re.Digit)
              (Re.MState b lit [])
              (fun st1 => k (Re.MState (Re.before st1) (Re.rest st1)
                 ((1%nat, Re.taken lit (Re.rest st1)) :: Re.caps st1)))
            = Some res).
    rewrite <- (sapp_nil_r lit) at 1.
    apply mt_literal; [exact Hl | reflexivity|].
    cbn [Re.before Re.rest Re.caps]. now rewrite taken_all. }
  erewrite E.
  2:{ apply (lookahead_passes Re.Digit "" _ _ Some). reflexivity. }
  cbn [Re.rest Re.caps String.length]. rewrite taken_all.
  destruct lit as [|c ds]; [discriminate Hl | reflexivity].
Qed.

(** Places at which the pattern does not match are passed over. *)
Lemma first_match_after (p : Re.pattern) (t : string) : forall pre b,
  (forall v c u b', pre = v ++ String c u ->
                    Re.match_at p b' (String c (u ++ t)) = None) ->
  Re.first_match (pieces_from p b (pre ++ t))
  = match Re.first_match (pieces_from p (Re.rev_onto pre b) t) with
    | Some (q, m) => Some (pre ++ q, m)
    | None => None
    end.
Proof.
  induction pre as [|c pre IH]; intros b H.
  - cbn [append Re.rev_onto]. now destruct (Re.first_match _) as [[q m]|].
  - cbn [append Re.rev_onto]. rewrite pieces_from_eq, (H "" c pre b eq_refl).
    cbn [Re.first_match]. rewrite IH.
    + now destruct (Re.first_match _) as [[q m]|].
    + intros v d u b' ->. apply (H (String c v) d u b'). reflexivity.
Qed.

Lemma name_prefix_spec (pre : string) :
  name_prefix pre = true ->
  has_char "#" pre = false /\ has_char "{" pre = false
  /\ has_char "%" pre = false /\ has_char "010" pre = false
  /\ ends_num pre = false.
Proof.
  unfold name_prefix. intros H.
  repeat (apply andb_true_iff in H as [H ?]).
  repeat match goal with
         | [ X : negb _ = true |- _ ] => apply negb_true_iff in X
         end.
  auto.
Qed.

Lemma ends_num_app (v : string) (c : ascii) (u : string) :
  ends_num (v ++ String c u) = ends_num (String c u).
Proof.
  induction v as [|d v IH]; [reflexivity|].
  cbn [append]. destruct (v ++ String c u) eqn:E.
  - destruct v; discriminate E.
  - rewrite ends_num_cons. exact IH.
Qed.

(** The search for the type [digits] in a stem [pre ++ lit]. *)
Lemma search_last_digits (pre lit : string) :
  has_char "010" pre = false -> ends_num pre = false ->
  int_literal lit = true ->
  Re.search digits_pattern (pre ++ lit)
  = Some (Re.Match digits_pattern lit [(1%nat, lit)]).
Proof.
  intros Hnl He Hl. unfold Re.search.
  rewrite pieces_is_pieces_from, first_match_after.
  - rewrite pieces_from_eq, match_at_literal by exact Hl. reflexivity.
  - intros v c u b' ->. apply match_at_digits_blocked.
    intros w s' E Hw.
    rewrite ends_num_app in He. rewrite has_char_app in Hnl.
    apply orb_false_iff in Hnl as [_ Hnl].
    change (String c (u ++ lit)) with (String c u ++ lit) in E.
    destruct (literal_ends_before lit u c w s' (eq_sym E))
      as (v' & u' & Hx & ->).
    + intros y Hy. now apply (int_literal_chars w).
    + exact He.
    + apply digit_on_line_app; [|now apply int_literal_on_line].
      rewrite Hx, has_char_app in Hnl.
      now apply orb_false_iff in Hnl as [_ Hnl].
Qed.

(** X15. The frame number of a name is the last run of digits of its
    stem, with its sign: when the stem is [pre ++ lit], where [lit] is
    an integer literal of value [n] and [pre] holds no ['#'], ['{'],
    ['%'] or line feed and does not end with a digit or a minus sign,
    the framecode is [lit], of type [digits] and of width [len(lit)],
    and the frame number is [n]. *)
Theorem frame_number_is_last_digits (s pre lit : string) (n : Z) :
  Path.stem (Path.of_str s) = pre ++ lit ->
  name_prefix pre = true ->
  Py.int lit = Ok n ->
  get_framecode s = Ok (Some lit)
  /\ get_framecode_type s = Ok (Some "digits")
  /\ get_framecode_width s = Ok (Some (Py.len lit))
  /\ get_frame_number s = Ok (Some n).
Proof.
  intros Hs Hp Hn.
  apply name_prefix_spec in Hp as (H1 & H2 & H3 & H4 & H5).
  pose proof (int_ok_literal _ _ Hn) as Hl.
  assert (Hc : forall x, num_char x = false -> has_char x pre = false ->
                         has_char x (pre ++ lit) = false).
  { intros x Hx Hpre. rewrite has_char_app, Hpre.
    now apply int_literal_no_char. }
  destruct (init_found s "digits"
              (Re.Match digits_pattern lit [(1%nat, lit)]))
    as (G1 & G2 & G3 & G4).
  { rewrite Hs. unfold FRAMECODE_TYPES. cbn [_Parser.find pattern].
    rewrite (search_none_char _ "{" _ accepts_format_code_char)
      by now apply Hc.
    rewrite (search_none_char _ "%" _ accepts_modulo_char)
      by now apply Hc.
    rewrite (search_none_char _ "#" _ accepts_numbersign_char)
      by now apply Hc.
    now rewrite search_last_digits. }
  rewrite G1, G2, G3, G4. cbn [Re.group0 String.eqb Ascii.eqb Bool.eqb].
  rewrite Hn. repeat split.
Qed.

Lemma frame_number_is_last_digits_witness :
  Path.stem (Path.of_str "shots/sh01_v2.0042.exr") = "sh01_v2." ++ "0042"
  /\ name_prefix "sh01_v2." = true
  /\ Py.int "0042" = Ok 42
  /\ get_framecode "shots/sh01_v2.0042.exr" = Ok (Some "0042")
  /\ get_framecode_type "shots/sh01_v2.0042.exr" = Ok (Some "digits")
  /\ get_framecode_width "shots/sh01_v2.0042.exr" = Ok (Some 4)
  /\ get_frame_number "shots/sh01_v2.0042.exr" = Ok (Some 42).
Proof.
  split; [reflexivity|]. split; [reflexivity|]. split; [reflexivity|].
  apply (frame_number_is_last_digits
           "shots/sh01_v2.0042.exr" "sh01_v2." "0042" 42); reflexivity.
Defined.

(** ** Replacing the frame number of a name *)

Lemma pieces_after (p : Re.pattern) (t : string) : forall pre b,
  (forall v c u b', pre = v ++ String c u ->
                    Re.match_at p b' (String c (u ++ t)) = None) ->
  pieces_from p b (pre ++ t)
  = (map Re.PChar (list_ascii_of_string pre)
     ++ pieces_from p (Re.rev_onto pre b) t)%list.
Proof.
  induction pre as [|c pre IH]; intros b H; [reflexivity|].
  cbn [append Re.rev_onto list_ascii_of_string map app].
  rewrite pieces_from_eq, (H "" c pre b eq_refl). f_equal.
  apply IH. intros v d u b' ->. apply (H (String c v) d u b'). reflexivity.
Qed.

Lemma sub_pieces_chars t (pre : string) (ps : list Re.piece) :
  Re.sub_pieces t (map Re.PChar (list_ascii_of_string pre) ++ ps)%list
  = pre ++ Re.sub_pieces t ps.
Proof.
  induction pre as [|c pre IH]; [reflexivity|].
  cbn [list_ascii_of_string map app Re.sub_pieces append]. now rewrite IH.
Qed.

Lemma split_pieces_chars (pre : string) (ps : list Re.piece) :
  Re.split_pieces (map Re.PChar (list_ascii_of_string pre) ++ ps)%list
  = (pre ++ fst (Re.split_pieces ps), snd (Re.split_pieces ps)).
Proof.
  induction pre as [|c pre IH].
  - cbn [list_ascii_of_string map app append]. now destruct (Re.split_pieces ps).
  - cbn [list_ascii_of_string map app Re.split_pieces append]. now rewrite IH.
Qed.

Lemma pieces_from_nil (p : Re.pattern) (b : string) : pieces_from p b "" = [].
Proof.
  rewrite pieces_from_eq.
  destruct (Re.match_at p b "") as [[m s']|] eqn:E; [|reflexivity].
  apply match_at_shorter in E. simpl in E. lia.
Qed.

(** The pieces of a stem [pre ++ lit] for the type [digits]: the
    characters of [pre], then the one match. *)
Lemma pieces_last_digits (pre lit : string) :
  has_char "010" pre = false -> ends_num pre = false ->
  int_literal lit = true ->
  Re.pieces digits_pattern (pre ++ lit)
  = (map Re.PChar (list_ascii_of_string pre)
     ++ [Re.PMatch (Re.Match digits_pattern lit [(1%nat, lit)])])%list.
Proof.
  intros Hnl He Hl. rewrite pieces_is_pieces_from, pieces_after.
  - f_equal. rewrite pieces_from_eq, match_at_literal by exact Hl.
    now rewrite pieces_from_nil.
  - intros v c u b' ->. apply match_at_digits_blocked.
    intros w s' E Hw.
    rewrite ends_num_app in He. rewrite has_char_app in Hnl.
    apply orb_false_iff in Hnl as [_ Hnl].
    change (String c (u ++ lit)) with (String c u ++ lit) in E.
    destruct (literal_ends_before lit u c w s' (eq_sym E))
      as (v' & u' & Hx & ->).
    + intros y Hy. now apply (int_literal_chars w).
    + exact He.
    + apply digit_on_line_app; [|now apply int_literal_on_line].
      rewrite Hx, has_char_app in Hnl.
      now apply orb_false_iff in Hnl as [_ Hnl].
Qed.

Lemma init_last_digits (s pre lit : string) (n : Z) :
  Path.stem (Path.of_str s) = pre ++ lit ->
  name_prefix pre = true ->
  Py.int lit = Ok n ->
  _Parser.init s
  = Ok (_Parser.Mk s (Re.Match digits_pattern lit [(1%nat, lit)]) "digits").
Proof.
  intros Hs Hp Hn.
  apply name_prefix_spec in Hp as (H1 & H2 & H3 & H4 & H5).
  pose proof (int_ok_literal _ _ Hn) as Hl.
  assert (Hc : forall x, num_char x = false -> has_char x pre = false ->
                         has_char x (pre ++ lit) = false).
  { intros x Hx Hpre. rewrite has_char_app, Hpre.
    now apply int_literal_no_char. }
  unfold _Parser.init, _Parser.path_of. rewrite Hs.
  unfold FRAMECODE_TYPES. cbn [_Parser.find pattern].
  rewrite (search_none_char _ "{" _ accepts_format_code_char) by now apply Hc.
  rewrite (search_none_char _ "%" _ accepts_modulo_char) by now apply Hc.
  rewrite (search_none_char _ "#" _ accepts_numbersign_char) by now apply Hc.
  now rewrite search_last_digits.
Qed.

Lemma parser_replace_last_digits (s pre lit repl : string) :
  Path.stem (Path.of_str s) = pre ++ lit ->
  name_prefix pre = true ->
  int_literal lit = true ->
  no_backslash repl = true ->
  _Parser.replace_framecode
    (_Parser.Mk s (Re.Match digits_pattern lit [(1%nat, lit)]) "digits") repl
  = Ok (Path.to_str
          (Path.joinpath (Path.parent (Path.of_str s))
                         (pre ++ repl ++ Path.suffix (Path.of_str s)))).
Proof.
  intros Hs Hp Hl Hr.
  apply name_prefix_spec in Hp as (H1 & H2 & H3 & H4 & H5).
  unfold _Parser.replace_framecode, _Parser.path, _Parser.path_of, Re.sub.
  cbn [_Parser._string _Parser._match Re.re].
  rewrite (parse_template_plain_eq _ _ Hr). cbn [bind].
  rewrite Hs, pieces_last_digits by assumption.
  rewrite sub_pieces_chars. cbn [Re.sub_pieces].
  now rewrite expand_plain, sapp_nil_r, sapp_assoc.
Qed.

(** X16. In a name whose stem is [pre ++ lit], where [lit] is an
    integer literal and [pre] holds no ['#'], ['{'], ['%'] or line feed
    and does not end with a digit or a minus sign, [replace_framecode]
    with a replacement without backslash replaces the last run of
    digits and nothing else: the new stem is [pre ++ repl], put back
    between the parent directory and the suffix. *)
Theorem replace_framecode_last_digits (s pre lit repl : string) (n : Z) :
  Path.stem (Path.of_str s) = pre ++ lit ->
  name_prefix pre = true ->
  Py.int lit = Ok n ->
  no_backslash repl = true ->
  replace_framecode s repl
  = Ok (Path.to_str
          (Path.joinpath (Path.parent (Path.of_str s))
                         (pre ++ repl ++ Path.suffix (Path.of_str s)))).
Proof.
  intros Hs Hp Hn Hr. unfold replace_framecode.
  rewrite (init_last_digits s pre lit n Hs Hp Hn). cbn [bind].
  rewrite (parser_replace_last_digits s pre lit repl Hs Hp
             (int_ok_literal _ _ Hn) Hr).
  reflexivity.
Qed.

Lemma replace_framecode_last_digits_witness :
  Path.stem (Path.of_str "shots/sh01_v2.0042.exr") = "sh01_v2." ++ "0042"
  /\ name_prefix "sh01_v2." = true
  /\ Py.int "0042" = Ok 42
  /\ no_backslash "%04d" = true
  /\ replace_framecode "shots/sh01_v2.0042.exr" "%04d"
     = Ok "shots/sh01_v2.%04d.exr".
Proof.
  split; [reflexivity|]. split; [reflexivity|]. split; [reflexivity|].
  split; [reflexivity|].
  exact (replace_framecode_last_digits
           "shots/sh01_v2.0042.exr" "sh01_v2." "0042" "%04d" 42
           eq_refl eq_refl eq_refl eq_refl).
Defined.

Lemma no_backslash_has_char (s : string) :
  no_backslash s = negb (has_char "\" s).
Proof.
  induction s as [|c s IH]; [reflexivity|].
  cbn [no_backslash has_char]. now rewrite IH, negb_orb, Ascii.eqb_sym.
Qed.

Lemma generated_no_backslash (ty : string) (w : Z) (code : string) :
  generate_framecode ty w = Ok code ->
  no_backslash code = true /\ ty <> "regex".
Proof.
  unfold generate_framecode.
  destruct (Z.ltb_spec w 1) as [|Hw]; [discriminate|].
  destruct (get ty FRAMECODE_TYPES) as [a|] eqn:Hg; [|discriminate].
  destruct (get_cases _ _ Hg) as [[-> ->]|[[-> ->]|[[-> ->]|[-> ->]]]];
    cbn [FramecodeTypes.generate_framecode]; intros E;
    (split; [|discriminate]); rewrite no_backslash_has_char;
    apply negb_true_iff.
  - assert (Hc : code = "{:0" ++ Py.str w ++ "d}") by congruence.
    rewrite Hc. cbn [append has_char]. rewrite has_char_app.
    now rewrite str_has_char by (try lia; reflexivity).
  - assert (Hc : code = "%0" ++ Py.str w ++ "d") by congruence.
    rewrite Hc. cbn [append has_char]. rewrite has_char_app.
    now rewrite str_has_char by (try lia; reflexivity).
  - assert (Hc : code = Py.repeat_char "#" w) by congruence.
    rewrite Hc. now apply repeat_char_has_char.
  - discriminate E.
Qed.

(** X17. In a name whose stem is [pre ++ lit], where [lit] is an
    integer literal and [pre] holds no ['#'], ['{'], ['%'] or line feed
    and does not end with a digit or a minus sign, [translate_framecode]
    replaces the last run of digits by the framecode
    [generate_framecode] makes for the target type and the width
    [len(lit)]. *)
Theorem translate_framecode_last_digits
    (s pre lit to_type code : string) (n : Z) :
  Path.stem (Path.of_str s) = pre ++ lit ->
  name_prefix pre = true ->
  Py.int lit = Ok n ->
  generate_framecode to_type (Py.len lit) = Ok code ->
  translate_framecode s to_type
  = Ok (Path.to_str
          (Path.joinpath (Path.parent (Path.of_str s))
                         (pre ++ code ++ Path.suffix (Path.of_str s)))).
Proof.
  intros Hs Hp Hn Hg. unfold translate_framecode.
  rewrite (init_last_digits s pre lit n Hs Hp Hn).
  destruct (generated_no_backslash _ _ _ Hg) as [Hb Hty].
  unfold _Parser.translate.
  apply String.eqb_neq in Hty. rewrite Hty.
  unfold _Parser.width. cbn [_Parser._type _Parser._match].
  cbn. rewrite Hg. cbn [bind].
  apply (parser_replace_last_digits s pre lit code Hs Hp
           (int_ok_literal _ _ Hn) Hb).
Qed.

Lemma translate_framecode_last_digits_witness :
  Path.stem (Path.of_str "shots/sh01_v2.0042.exr") = "sh01_v2." ++ "0042"
  /\ name_prefix "sh01_v2." = true
  /\ Py.int "0042" = Ok 42
  /\ generate_framecode "numbersign" (Py.len "0042") = Ok "####"
  /\ translate_framecode "shots/sh01_v2.0042.exr" "numbersign"
     = Ok "shots/sh01_v2.####.exr".
Proof.
  split; [reflexivity|]. split; [reflexivity|]. split; [reflexivity|].
  split; [reflexivity|].
  exact (translate_framecode_last_digits
           "shots/sh01_v2.0042.exr" "sh01_v2." "0042" "numbersign" "####" 42
           eq_refl eq_refl eq_refl eq_refl).
Defined.

(** X18. In a name whose stem is [pre ++ lit], where [lit] is an
    integer literal and [pre] holds no ['#'], ['{'], ['%'] or line feed
    and does not end with a digit or a minus sign, [create_regex] with
    one of its four width options gives the escaped text before the
    last run of digits, the fragment of the option for the width
    [len(lit)] and the escaped suffix, after the escaped parent
    directory and separator when the name has a parent directory. *)
Theorem create_regex_last_digits (s pre lit opt code : string) (n : Z) :
  Path.stem (Path.of_str s) = pre ++ lit ->
  name_prefix pre = true ->
  Py.int lit = Ok n ->
  _Parser.options_get opt (_Parser.width_options (Py.len lit)) = Some code ->
  create_regex s opt
  = Ok (let name := Re.escape pre ++ code
                    ++ Re.escape (Path.suffix (Path.of_str s)) in
        let parent := Path.to_str (Path.parent (Path.of_str s)) in
        if String.eqb parent "." then name
        else Re.escape parent ++ Re.escape Path.sep ++ name).
Proof.
  intros Hs Hp Hn Ho. unfold create_regex.
  rewrite (init_last_digits s pre lit n Hs Hp Hn).
  apply name_prefix_spec in Hp as (H1 & H2 & H3 & H4 & H5).
  unfold _Parser.create_regex, _Parser.width, _Parser.path, _Parser.path_of.
  cbn [_Parser._type _Parser._match _Parser._string Re.re].
  change (getitem "digits" FRAMECODE_TYPES)
    with (Ok (Attrs digits_pattern len_ None)).
  cbn [bind FramecodeTypes.width Re.group Re.groups Re.lookup Nat.eqb len_].
  rewrite Ho. unfold Re.split.
  rewrite Hs, pieces_last_digits by (try assumption; eapply int_ok_literal, Hn).
  rewrite split_pieces_chars.
  cbn [Re.split_pieces fst snd Re.split_first Re.split_last rev app].
  cbn zeta. change (Re.escape "") with "".
  rewrite !sapp_nil_r, !sapp_assoc.
  now destruct (String.eqb _ ".").
Qed.

Lemma create_regex_last_digits_witness :
  Path.stem (Path.of_str "shots/sh01_v2.0042.exr") = "sh01_v2." ++ "0042"
  /\ name_prefix "sh01_v2." = true
  /\ Py.int "0042" = Ok 42
  /\ _Parser.options_get "any" (_Parser.width_options (Py.len "0042"))
     = Some "-?\d+"
  /\ create_regex "shots/sh01_v2.0042.exr" "any"
     = Ok "shots/sh01_v2\.-?\d+\.exr".
Proof.
  split; [reflexivity|]. split; [reflexivity|]. split; [reflexivity|].
  split; [reflexivity|].
  exact (create_regex_last_digits
           "shots/sh01_v2.0042.exr" "sh01_v2." "0042" "any" "-?\d+" 42
           eq_refl eq_refl eq_refl eq_refl).
Defined.

(** ** The frames of one sequence *)




(** ** A pair after a run *)




(** ** Numbers separated by blanks *)

Lemma pieces_ws1_nil b :
  Re.sub_pieces [] (pieces_from whitespace_not_before_digit b "") = "".
Proof. now rewrite pieces_from_eq, match_at_ws1_nil. Qed.

Lemma pieces_ws2_nil b :
  Re.sub_pieces [] (pieces_from whitespace_not_after_digit b "") = "".
Proof. now rewrite pieces_from_eq, match_at_ws2_nil. Qed.

Lemma strip1_whole (t b : string) :
  no_space t = true ->
  Re.sub_pieces [] (pieces_from whitespace_not_before_digit b t) = t.
Proof.
  intros H. rewrite <- (sapp_nil_r t) at 1.
  rewrite strip1_token by exact H. now rewrite pieces_ws1_nil, sapp_nil_r.
Qed.

Lemma sub_ws_eq (s : string) :
  (s1 <- Re.sub whitespace_not_before_digit "" s ;;
   Re.sub whitespace_not_after_digit "" s1)
  = Ok (Re.sub_pieces []
          (pieces_from whitespace_not_after_digit ""
             (Re.sub_pieces []
                (pieces_from whitespace_not_before_digit "" s)))).
Proof.
  unfold Re.sub. cbn [Re.parse_template Re.ngroups
    whitespace_not_before_digit whitespace_not_after_digit bind].
  rewrite !pieces_is_pieces_from. reflexivity.
Qed.



Lemma str_starts_with_digit (x : Z) :
  0 <= x -> Py.starts_with_digit (Py.str x) = true.
Proof. intros Hx. apply is_number_head, str_number, Hx. Qed.



Lemma starts_with_digit_join_blank (t : string) (ts : list string) :
  t <> "" ->
  Py.starts_with_digit (Py.join " " (t :: ts)) = Py.starts_with_digit t.
Proof.
  intros H. destruct t as [|c t]; [congruence|].
  destruct ts; reflexivity.
Qed.

Lemma rev_onto_digits (t b : string) :
  Py.all_digits t = true ->
  (t = "" -> Py.starts_with_digit b = true) ->
  Py.starts_with_digit (Re.rev_onto t b) = true.
Proof.
  revert b. induction t as [|c t IH]; intros b Ht Hb; [now apply Hb|].
  cbn [Py.all_digits] in Ht. apply andb_true_iff in Ht as [Hc Ht].
  cbn [Re.rev_onto]. apply IH; [exact Ht|]. intros _. exact Hc.
Qed.

Lemma rev_onto_str (x : Z) (b : string) :
  Py.starts_with_digit (Re.rev_onto (Py.str x) b) = true.
Proof.
  rewrite str_cases. pose proof (abs_digits_number x) as Hn.
  assert (Hne : abs_digits x <> "") by (destruct (abs_digits x); discriminate).
  destruct (x <? 0); cbn [Re.rev_onto];
    (apply rev_onto_digits; [now apply is_number_all_digits | contradiction]).
Qed.

Lemma strip1_blanks (l : list Z) : forall a b,
  Forall (fun x => 0 <= x) l ->
  Re.sub_pieces []
    (pieces_from whitespace_not_before_digit b
       (Py.join " " (map Py.str (a :: l))))
  = Py.join " " (map Py.str (a :: l)).
Proof.
  induction l as [|x l IH]; intros a b H.
  - change (Py.join " " (map Py.str [a])) with (Py.str a).
    apply strip1_whole, str_no_space.
  - inversion H as [|? ? Hx Hl]; subst.
    cbn [map]. rewrite join_cons2.
    rewrite strip1_token by apply str_no_space. f_equal.
    cbn [append]. rewrite ws1_keep.
    + f_equal. apply (IH x _ Hl).
    + change (Py.str x :: map Py.str l) with (map Py.str (x :: l)).
      cbn [map].
      rewrite starts_with_digit_join_blank by apply str_nonempty.
      now rewrite str_starts_with_digit.
Qed.

Lemma strip2_blanks (l : list Z) : forall a b,
  Re.sub_pieces []
    (pieces_from whitespace_not_after_digit b
       (Py.join " " (map Py.str (a :: l))))
  = Py.join " " (map Py.str (a :: l)).
Proof.
  induction l as [|x l IH]; intros a b.
  - change (Py.join " " (map Py.str [a])) with (Py.str a).
    rewrite <- (sapp_nil_r (Py.str a)) at 1.
    rewrite strip2_token by apply str_no_space.
    now rewrite pieces_ws2_nil, sapp_nil_r.
  - cbn [map]. rewrite join_cons2.
    rewrite strip2_token by apply str_no_space. f_equal.
    cbn [append]. rewrite ws2_keep by now rewrite rev_onto_str.
    f_equal. apply (IH x).
Qed.

Lemma match_at_single (a : Z) (b r : string) :
  Py.starts_with_digit r = false ->
  head_in (Re.Lit "-") r = false -> head_in (Re.Lit "x") r = false ->
  Re.match_at numbers_pattern b (Py.str a ++ r)
  = Some (match_of (FSingle a), r).
Proof.
  intros Hd Hm Hx. unfold Re.match_at.
  assert (E : Re.mt (Re.ast numbers_pattern)
                (Re.MState b (Py.str a ++ r) []) Some
              = Some (Re.MState (Re.rev_onto (Py.str a) b) r
                        (groups_of (FSingle a)))).
  { unfold numbers_pattern, Re.ast. rewrite mt_seq.
    apply mt_grp_int; [exact Hd|].
    rewrite mt_seq, mt_opt_skip by exact Hm.
    rewrite mt_opt_skip by exact Hx. reflexivity. }
  rewrite E. cbn [Re.rest Re.caps].
  pose proof (render_nonempty (FSingle a) r) as L. cbn [render] in L.
  rewrite L, taken_app. reflexivity.
Qed.

Lemma match_at_numbers_blank b s :
  Re.match_at numbers_pattern b (String " " s) = None.
Proof. reflexivity. Qed.

Lemma matches_blanks (l : list Z) : forall a b,
  Re.matches_of
    (pieces_from numbers_pattern b (Py.join " " (map Py.str (a :: l))))
  = map match_of (map FSingle (a :: l)).
Proof.
  induction l as [|x l IH]; intros a b.
  - change (Py.join " " (map Py.str [a])) with (Py.str a).
    rewrite <- (sapp_nil_r (Py.str a)).
    rewrite pieces_from_eq, match_at_single by reflexivity.
    cbn [Re.matches_of map]. f_equal.
  - cbn [map]. rewrite join_cons2.
    rewrite pieces_from_eq, match_at_single by reflexivity.
    cbn [Re.matches_of]. f_equal. cbn [append].
    rewrite pieces_from_eq, match_at_numbers_blank.
    cbn [Re.matches_of]. apply (IH x).
Qed.

(** X22. Integers written with [str] and separated by one blank are read
    back as the same list, when every number after the first is not
    negative. *)
Theorem parse_numbers_blank_list (a : Z) (l : list Z) :
  Forall (fun x => 0 <= x) l ->
  parse_numbers (Py.join " " (map Py.str (a :: l))) = Trace (a :: l) None.
Proof.
  intros H. unfold parse_numbers. rewrite sub_ws_eq.
  rewrite strip1_blanks by exact H. rewrite strip2_blanks.
  unfold Re.finditer. rewrite pieces_is_pieces_from, matches_blanks.
  rewrite run_matches_fragments.
  generalize (a :: l). intros l'.
  induction l' as [|y l' IH]; [reflexivity|].
  cbn [map]. now rewrite (run_cons (FSingle y) _ [y] l' eq_refl IH).
Qed.

Lemma parse_numbers_blank_list_witness :
  Forall (fun x => 0 <= x) [7; 0; 12]
  /\ parse_numbers "-4 7 0 12" = Trace [-4; 7; 0; 12] None.
Proof.
  assert (H : Forall (fun x => 0 <= x) [7; 0; 12])
    by (repeat constructor; lia).
  split; [exact H|]. exact (parse_numbers_blank_list (-4) [7; 0; 12] H).
Defined.

(** ** Translating a name, then detecting *)

Lemma of_str_name (base ext : string) :
  has_char "/" base = false -> has_char "/" ext = false ->
  base <> "" -> ext <> "" ->
  Path.of_str (base ++ String "." ext)
  = Path.Mk "" [base ++ String "." ext].
Proof.
  intros Hb He Hne Hene. apply of_str_plain.
  - rewrite has_char_app. cbn [has_char]. now rewrite Hb, He.
  - destruct base; [congruence | discriminate].
  - destruct base as [|c [|c' base]]; [congruence| |discriminate].
    destruct ext; [congruence | discriminate].
Qed.

(** A name without directory put back after its (empty) parent. *)
Lemma joinpath_name (base ext base' ext' : string) :
  has_char "/" base = false -> has_char "/" ext = false ->
  base <> "" -> ext <> "" ->
  has_char "/" base' = false -> has_char "/" ext' = false ->
  base' <> "" -> ext' <> "" ->
  Path.to_str
    (Path.joinpath (Path.parent (Path.of_str (base ++ String "." ext)))
                   (base' ++ String "." ext'))
  = base' ++ String "." ext'.
Proof.
  intros. rewrite of_str_name by assumption.
  unfold Path.joinpath. rewrite of_str_name by assumption.
  cbn [Path.root Path.parts Path.parent removelast app Path.to_str].
  cbn [Py.join String.concat append]. reflexivity.
Qed.

Lemma generated_plain (ty : string) (w : Z) (code : string) :
  generate_framecode ty w = Ok code ->
  has_char "/" code = false /\ code <> "".
Proof.
  unfold generate_framecode.
  destruct (Z.ltb_spec w 1) as [|Hw]; [discriminate|].
  destruct (get ty FRAMECODE_TYPES) as [a|] eqn:Hg; [|discriminate].
  destruct (get_cases _ _ Hg) as [[-> ->]|[[-> ->]|[[-> ->]|[-> ->]]]];
    cbn [FramecodeTypes.generate_framecode]; intros E.
  - assert (Hc : code = "{:0" ++ Py.str w ++ "d}") by congruence.
    rewrite Hc. split; [|discriminate].
    cbn [append has_char]. rewrite has_char_app.
    now rewrite str_has_char by (try lia; reflexivity).
  - assert (Hc : code = "%0" ++ Py.str w ++ "d") by congruence.
    rewrite Hc. split; [|discriminate].
    cbn [append has_char]. rewrite has_char_app.
    now rewrite str_has_char by (try lia; reflexivity).
  - assert (Hc : code = Py.repeat_char "#" w) by congruence.
    rewrite Hc. split; [now apply repeat_char_has_char|].
    rewrite repeat_char_succ by exact Hw. discriminate.
  - discriminate E.
Qed.

Lemma match_at_not_format_code (b : string) (c : ascii) (s : string) :
  c <> "{"%char -> Re.match_at format_code_pattern b (String c s) = None.
Proof.
  intros Hc. unfold Re.match_at, format_code_pattern, Re.ast.
  cbn [Re.mt Re.Chr Re.rest Re.in_class].
  apply Ascii.eqb_neq in Hc. now rewrite Ascii.eqb_sym, Hc.
Qed.

Lemma match_at_not_modulo (b : string) (c : ascii) (s : string) :
  c <> "%"%char -> Re.match_at modulo_pattern b (String c s) = None.
Proof.
  intros Hc. unfold Re.match_at, modulo_pattern, Re.ast.
  cbn [Re.mt Re.Chr Re.rest Re.in_class].
  apply Ascii.eqb_neq in Hc. now rewrite Ascii.eqb_sym, Hc.
Qed.

Lemma match_at_not_numbersign (b : string) (c : ascii) (s : string) :
  c <> "#"%char -> Re.match_at numbersign_pattern b (String c s) = None.
Proof.
  intros Hc. unfold Re.match_at, numbersign_pattern, Re.ast.
  cbn [Re.mt Re.Plus Re.rest Re.in_class].
  apply Ascii.eqb_neq in Hc. now rewrite Ascii.eqb_sym, Hc.
Qed.

(** The search passes over a prefix without the first character of the
    pattern and finds the match that follows. *)
Lemma search_after_prefix (p : Re.pattern) (x : ascii)
    (pre code : string) (m : Re.mmatch) :
  (forall b c s, c <> x -> Re.match_at p b (String c s) = None) ->
  has_char x pre = false ->
  (forall b, Re.match_at p b code = Some (m, "")) ->
  Re.search p (pre ++ code) = Some m.
Proof.
  intros Hp Hpre Hm. unfold Re.search. rewrite pieces_is_pieces_from.
  rewrite (first_match_skip p (fun c => negb (Ascii.eqb c x))).
  - now rewrite pieces_from_eq, Hm.
  - intros b c s Hc. apply Hp. apply negb_true_iff in Hc.
    now apply Ascii.eqb_neq.
  - intros c Hc. apply negb_true_iff, Ascii.eqb_neq. intros ->.
    congruence.
Qed.

(** The parser of a stem that ends with a generated framecode. *)
Lemma find_generated (ty : string) (w : Z) (pre code : string) :
  generate_framecode ty w = Ok code ->
  has_char "#" pre = false -> has_char "{" pre = false ->
  has_char "%" pre = false ->
  exists m,
    _Parser.find FRAMECODE_TYPES (pre ++ code) = Some (ty, m)
    /\ Re.group0 m = code
    /\ _Parser.width (_Parser.Mk (pre ++ code) m ty) = Ok w.
Proof.
  intros Hg H1 H2 H3. revert Hg. unfold generate_framecode.
  destruct (Z.ltb_spec w 1) as [|Hw]; [discriminate|].
  destruct (get ty FRAMECODE_TYPES) as [a|] eqn:Hg; [|discriminate].
  destruct (get_cases _ _ Hg) as [[-> ->]|[[-> ->]|[[-> ->]|[-> ->]]]];
    cbn [FramecodeTypes.generate_framecode]; intros E.
  - assert (Hc : code = "{:0" ++ Py.str w ++ "d}") by congruence.
    exists (Re.Match format_code_pattern code [(1%nat, Py.str w)]).
    unfold FRAMECODE_TYPES. cbn [_Parser.find pattern].
    rewrite (search_after_prefix format_code_pattern "{" pre code
               (Re.Match format_code_pattern code [(1%nat, Py.str w)])).
    + repeat split. unfold _Parser.width. cbn. now rewrite int_str.
    + apply match_at_not_format_code.
    + exact H2.
    + intros b. rewrite Hc. apply match_at_format_code. lia.
  - assert (Hc : code = "%0" ++ Py.str w ++ "d") by congruence.
    exists (Re.Match modulo_pattern code [(1%nat, Py.str w)]).
    unfold FRAMECODE_TYPES. cbn [_Parser.find pattern].
    rewrite (search_none_char _ "{" _ accepts_format_code_char).
    2:{ rewrite has_char_app, H2, Hc. cbn [append has_char].
        rewrite has_char_app.
        now rewrite str_has_char by (try lia; reflexivity). }
    rewrite (search_after_prefix modulo_pattern "%" pre code
               (Re.Match modulo_pattern code [(1%nat, Py.str w)])).
    + repeat split. unfold _Parser.width. cbn. now rewrite int_str.
    + apply match_at_not_modulo.
    + exact H3.
    + intros b. rewrite Hc. apply match_at_modulo. lia.
  - assert (Hc : code = Py.repeat_char "#" w) by congruence.
    assert (Hc' : code = String "#" (Py.repeat_char "#" (w - 1))).
    { rewrite Hc. apply repeat_char_succ, Hw. }
    assert (Hx : forall x, x <> "#"%char -> has_char x pre = false ->
                           has_char x (pre ++ code) = false).
    { intros x Hx Hpre. rewrite has_char_app, Hpre, Hc.
      now apply repeat_char_has_char. }
    exists (Re.Match numbersign_pattern code [(1%nat, code)]).
    unfold FRAMECODE_TYPES. cbn [_Parser.find pattern].
    rewrite (search_none_char _ "{" _ accepts_format_code_char)
      by (apply Hx; [discriminate | exact H2]).
    rewrite (search_none_char _ "%" _ accepts_modulo_char)
      by (apply Hx; [discriminate | exact H3]).
    rewrite (search_after_prefix numbersign_pattern "#" pre code
               (Re.Match numbersign_pattern code [(1%nat, code)])).
    + repeat split. unfold _Parser.width. cbn. rewrite Hc at 1.
      now rewrite repeat_char_len by lia.
    + apply match_at_not_numbersign.
    + exact H1.
    + intros b. rewrite Hc'. apply match_at_numbersigns.
      apply repeat_char_all_in.
  - discriminate E.
Qed.

(** X23. Translating a numbered name without directory,
    [pre ++ lit ++ "." ++ ext] with [lit] an integer literal, [pre]
    without ['/'], ['#'], ['{'], ['%'] or line feed and not ending with
    a digit or a minus sign, and [ext] not empty and without ['/'] or
    ['.'], puts the generated framecode in the place of the number, and
    the result is detected with the target type, the width of the
    number and the generated framecode. *)
Theorem translate_then_detect (pre lit ext ty code : string) :
  name_prefix pre = true -> has_char "/" pre = false ->
  int_literal lit = true ->
  has_char "/" ext = false -> has_char "." ext = false -> ext <> "" ->
  generate_framecode ty (Py.len lit) = Ok code ->
  translate_framecode (pre ++ lit ++ "." ++ ext) ty
  = Ok (pre ++ code ++ "." ++ ext)
  /\ get_framecode (pre ++ code ++ "." ++ ext) = Ok (Some code)
  /\ get_framecode_type (pre ++ code ++ "." ++ ext) = Ok (Some ty)
  /\ get_framecode_width (pre ++ code ++ "." ++ ext)
     = Ok (Some (Py.len lit)).
Proof.
  intros Hp Hps Hl He1 He2 He3 Hg.
  destruct (int_literal_int _ Hl) as [n Hn].
  destruct (generated_no_backslash _ _ _ Hg) as [Hb Hty].
  destruct (generated_plain _ _ _ Hg) as [Hcs Hcne].
  assert (Hlne : lit <> "") by (destruct lit; [discriminate Hl | discriminate]).
  assert (Hls : has_char "/" lit = false)
    by (now apply int_literal_no_char).
  assert (B1 : has_char "/" (pre ++ lit) = false)
    by (now rewrite has_char_app, Hps, Hls).
  assert (B2 : pre ++ lit <> "")
    by (destruct pre; [exact Hlne | discriminate]).
  assert (B3 : has_char "/" (pre ++ code) = false)
    by (now rewrite has_char_app, Hps, Hcs).
  assert (B4 : pre ++ code <> "")
    by (destruct pre; [exact Hcne | discriminate]).
  replace (pre ++ lit ++ "." ++ ext) with ((pre ++ lit) ++ String "." ext)
    by (now rewrite sapp_assoc).
  replace (pre ++ code ++ "." ++ ext) with ((pre ++ code) ++ String "." ext)
    by (now rewrite sapp_assoc).
  destruct (stem_suffix_plain (pre ++ lit) ext B1 He1 He2 B2 He3)
    as (S1 & S2 & _).
  destruct (stem_suffix_plain (pre ++ code) ext B3 He1 He2 B4 He3)
    as (T1 & _ & _).
  split.
  - unfold translate_framecode.
    rewrite (init_last_digits _ pre lit n S1 Hp Hn).
    unfold _Parser.translate.
    apply String.eqb_neq in Hty. rewrite Hty.
    unfold _Parser.width. cbn [_Parser._type _Parser._match].
    change (getitem "digits" FRAMECODE_TYPES)
      with (Ok (Attrs digits_pattern len_ None)).
    cbn [bind FramecodeTypes.width Re.group Re.groups Re.lookup Nat.eqb
         len_].
    rewrite Hg. cbn [bind].
    rewrite (parser_replace_last_digits _ pre lit code S1 Hp Hl Hb).
    rewrite S2, <- sapp_assoc. f_equal.
    now apply joinpath_name.
  - apply name_prefix_spec in Hp as (H1 & H2 & H3 & _ & _).
    destruct (find_generated ty (Py.len lit) pre code Hg H1 H2 H3)
      as (m & Hf & Hm & Hw).
    destruct (init_found ((pre ++ code) ++ String "." ext) ty m)
      as (G1 & G2 & G3 & _).
    { rewrite T1. exact Hf. }
    rewrite G1, G2, G3, Hm. repeat split.
    unfold _Parser.width in *.
    cbn [_Parser._type _Parser._match] in *. now rewrite Hw.
Qed.

Lemma translate_then_detect_witness :
  translate_framecode ("sh01_v2." ++ "0042" ++ "." ++ "exr") "modulo"
  = Ok ("sh01_v2." ++ "%04d" ++ "." ++ "exr")
  /\ get_framecode ("sh01_v2." ++ "%04d" ++ "." ++ "exr") = Ok (Some "%04d")
  /\ get_framecode_type ("sh01_v2." ++ "%04d" ++ "." ++ "exr")
     = Ok (Some "modulo")
  /\ get_framecode_width ("sh01_v2." ++ "%04d" ++ "." ++ "exr")
     = Ok (Some (Py.len "0042")).
Proof.
  apply (translate_then_detect "sh01_v2." "0042" "exr" "modulo" "%04d");
    first [reflexivity | discriminate].
Defined.

(** ** What the getters return *)





